(** * Agent Arena: the orchestration engine, embedded and verified

    A shallow embedding of the Python package [agent_arena]: the message
    log ([arena/channel.py]), the event bus ([core/events.py]), the
    participant ([agents/agent.py]), the directory ([arena/registry.py])
    and the scheduler ([arena/world.py]).

    Conventions of the embedding.
    - A Python [str] is a [string] of bytes; [str.lower] and [str.strip]
      act on the ASCII range.
    - A Python [float] is a primitive binary64 [float]: the arithmetic and
      the comparisons below are IEEE 754 double precision, as in CPython,
      and a decimal literal denotes the double nearest to it in both.
    - A Python [int] is a [Z].
    - A [datetime] is a number of microseconds on the wall clock; every
      function that reads [datetime.now()] takes the reading as [now].
    - A [dict] used as a table is a [gmap]; the registry's dict, whose
      iteration order the scheduler depends on, is an association list in
      insertion order.
    - A call that may raise returns a [Completion].
    - The random module is an explicit [RandomSource]. *)

From Stdlib Require Import ZArith Lia Floats Reals Lra Ascii String.
From stdpp Require Import base option list gmap strings.

Set Warnings "-inexact-float".

Local Open Scope string_scope.
Local Open Scope list_scope.
Local Open Scope Z_scope.

(** ** Python values *)

Module py.

(** The outcome of a call: a normal return or a raised exception.
    [CancelledError] derives from [BaseException] and escapes
    [except Exception]; the others derive from [Exception]. *)
Inductive Exn :=
  | ValueError (msg : string)
  | RuntimeError (msg : string)
  | KeyError (key : string)
  | IndexError
  | APIError (msg : string)
  | CancelledError.

Definition is_Exception (e : Exn) : bool :=
  match e with
  | CancelledError => false
  | _ => true
  end.

Inductive Completion (A : Type) :=
  | Returned (a : A)
  | Raised (e : Exn).
Arguments Returned {A} a.
Arguments Raised {A} e.

(** [l[start:]] for a list [l] and an integer [start]: a negative
    [start] counts from the end and is clamped at the front; a
    non-negative one is clamped at the end. [l[-k:]] is
    [slice_from (- k) l], so that [l[-0:]] is the whole of [l]. *)
Definition slice_from {A : Type} (start : Z) (l : list A) : list A :=
  let n := Z.of_nat (length l) in
  let s := if start <? 0 then Z.max (start + n) 0 else Z.min start n in
  drop (Z.to_nat s) l.

(** [min(a, b)] on floats: [b] replaces [a] only when [b < a]. *)
Definition min (a b : float) : float :=
  if (b <? a)%float then b else a.

(** [str.lower()] on the ASCII range. *)
Definition lower_ascii (c : ascii) : ascii :=
  let n := nat_of_ascii c in
  if (Nat.leb 65 n && Nat.leb n 90)%bool then ascii_of_nat (n + 32) else c.

Fixpoint lower (s : string) : string :=
  match s with
  | EmptyString => EmptyString
  | String c s' => String (lower_ascii c) (lower s')
  end.

(** [sub in s] for strings. *)
Fixpoint contains (sub s : string) : bool :=
  (String.prefix sub s ||
   match s with
   | EmptyString => false
   | String _ s' => contains sub s'
   end)%bool.

(** [str.strip()]: the ASCII white space of Python. *)
Definition is_space (c : ascii) : bool :=
  let n := nat_of_ascii c in
  ((Nat.leb 9 n && Nat.leb n 13) || (Nat.leb 28 n && Nat.leb n 32))%bool.

Fixpoint lstrip (s : string) : string :=
  match s with
  | String c s' => if is_space c then lstrip s' else s
  | EmptyString => EmptyString
  end.

Fixpoint rstrip (s : string) : string :=
  match s with
  | EmptyString => EmptyString
  | String c s' =>
      match rstrip s' with
      | EmptyString => if is_space c then EmptyString else String c EmptyString
      | r => String c r
      end
  end.

Definition strip (s : string) : string := rstrip (lstrip s).

Definition nl : string := String (ascii_of_nat 10) EmptyString.

(** A [datetime] in microseconds, and the test
    [(now - t).total_seconds() < k] for an integer number of seconds
    [k]. [total_seconds()] is the correctly rounded quotient of the
    microseconds by [10**6]; [k] is a double and rounding is monotone,
    so the test on the float agrees with the test on the integers. *)
Definition datetime : Type := Z.

Definition seconds_ago_lt (now t : datetime) (k : Z) : bool :=
  now - t <? k * 1000000.

(** The module [random]: [choice] indexes the sequence with a number
    below its length, the [k]-th call of [random()] returns
    [draws k]. *)
Record RandomSource := {
  randbelow : nat -> nat;
  draws : nat -> float
}.

Definition choice {A : Type} (rnd : RandomSource) (l : list A) : option A :=
  l !! (randbelow rnd (length l) mod length l)%nat.

(** [list.sort(key=..., reverse=True)]: descending by key and stable,
    so that elements with equal keys keep the order they had. The
    elements are inserted from the last to the first, each one in front
    of the first element whose key is not greater than its own. *)
Fixpoint insert_desc {A : Type} (key : A -> float) (x : A) (l : list A) : list A :=
  match l with
  | [] => [x]
  | y :: l' =>
      if (key x <? key y)%float then y :: insert_desc key x l' else x :: l
  end.

Definition sort_desc {A : Type} (key : A -> float) (l : list A) : list A :=
  foldr (insert_desc key) [] l.

(** [\w] in a [str] pattern, on the ASCII range: a letter, a digit or
    the underscore. *)
Definition is_word (c : ascii) : bool :=
  let n := nat_of_ascii c in
  ((Nat.leb 48 n && Nat.leb n 57) || (Nat.leb 65 n && Nat.leb n 90)
   || (Nat.leb 97 n && Nat.leb n 122) || Nat.eqb n 95)%bool.

(** The longest run of word characters at the head of [s]. *)
Fixpoint take_word (s : string) : string :=
  match s with
  | String c s' => if is_word c then String c (take_word s') else EmptyString
  | EmptyString => EmptyString
  end.

(** [re.findall(r'@(\w+)', s)]: the scan restarts after each match; a
    match holds no ["@"], so restarting right after its ["@"] finds the
    same matches. *)
Fixpoint findall_mentions (s : string) : list string :=
  match s with
  | EmptyString => []
  | String c s' =>
      if Ascii.eqb c "@"
      then match take_word s' with
           | EmptyString => findall_mentions s'
           | w => w :: findall_mentions s'
           end
      else findall_mentions s'
  end.

(** [sep.join(l)]. *)
Fixpoint join (sep : string) (l : list string) : string :=
  match l with
  | [] => EmptyString
  | x :: l' =>
      match l' with
      | [] => x
      | _ => x +:+ sep +:+ join sep l'
      end
  end.

(** [strftime("%H:%M:%S")], the microseconds of a [datetime] being
    counted from a midnight. *)
Definition digit (d : Z) : ascii := ascii_of_nat (48 + Z.to_nat d).

Definition two_digits (n : Z) : string :=
  String (digit (n / 10)) (String (digit (n mod 10)) EmptyString).

Definition strftime_HMS (t : datetime) : string :=
  let seconds := t / 1000000 in
  two_digits (seconds / 3600 mod 24) +:+ ":" +:+ two_digits (seconds / 60 mod 60)
  +:+ ":" +:+ two_digits (seconds mod 60).

(** [l[:stop]]. *)
Definition slice_to {A : Type} (stop : Z) (l : list A) : list A :=
  let n := Z.of_nat (length l) in
  let e := if stop <? 0 then Z.max (stop + n) 0 else Z.min stop n in
  take (Z.to_nat e) l.

End py.

(** ** core/types.py *)

Module types.

Inductive AgentStatus := IDLE | THINKING | SPEAKING | OFFLINE.

Inductive MessageType := CHAT | SYSTEM | ACTION | JOIN | LEAVE.

Inductive ScheduleMode := TURN_BASED | ASYNC | HYBRID.

Definition ScheduleMode_value (m : ScheduleMode) : string :=
  match m with
  | TURN_BASED => "turn_based"
  | ASYNC => "async"
  | HYBRID => "hybrid"
  end.

#[global] Instance AgentStatus_eq_dec : EqDecision AgentStatus.
Proof. solve_decision. Defined.

End types.

(** ** core/message.py *)

Module message.

Record Message := {
  sender_id : string;
  sender_name : string;
  content : string;
  channel : string;
  id : string;
  type : types.MessageType;
  timestamp : py.datetime;
  reply_to : option string;
  mentions : list string
}.

Definition _extract_mentions (text : string) : list string :=
  py.findall_mentions text.

(** The constructor: the fields as given, then [__post_init__], which
    fills an empty [mentions] from the content. *)
Definition new (the_sender_id the_sender_name the_content the_channel the_id : string)
    (the_type : types.MessageType) (the_timestamp : py.datetime)
    (the_reply_to : option string) (the_mentions : list string) : Message :=
  {| sender_id := the_sender_id; sender_name := the_sender_name;
     content := the_content; channel := the_channel; id := the_id;
     type := the_type; timestamp := the_timestamp; reply_to := the_reply_to;
     mentions := match the_mentions with
                 | [] => _extract_mentions the_content
                 | _ => the_mentions
                 end |}.

Definition format_irc (self : Message) : string :=
  let time_str := py.strftime_HMS (timestamp self) in
  match type self with
  | types.ACTION => "[" +:+ time_str +:+ "] * " +:+ sender_name self +:+ " " +:+ content self
  | types.SYSTEM => "[" +:+ time_str +:+ "] *** " +:+ content self
  | types.JOIN => "[" +:+ time_str +:+ "] --> " +:+ content self
  | types.LEAVE => "[" +:+ time_str +:+ "] <-- " +:+ content self
  | types.CHAT => "[" +:+ time_str +:+ "] <" +:+ sender_name self +:+ "> " +:+ content self
  end.

End message.

(** ** arena/channel.py *)

Module channel.

Record Channel := {
  name : string;
  description : string;
  id : string;
  topic : string;
  created_at : py.datetime;
  members : gset string;
  messages : list message.Message;
  max_history : Z
}.

Definition with_messages (self : Channel) (ms : list message.Message) : Channel :=
  {| name := name self; description := description self; id := id self;
     topic := topic self; created_at := created_at self;
     members := members self; messages := ms;
     max_history := max_history self |}.

(** [add_message]: append, then trim with [messages[-max_history:]]
    when the length exceeds [max_history]. *)
Definition add_message (self : Channel) (m : message.Message) : Channel :=
  let appended := messages self ++ [m] in
  if Z.of_nat (length appended) >? max_history self
  then with_messages self (py.slice_from (- max_history self) appended)
  else with_messages self appended.

(** [get_recent_messages(count)] is [messages[-count:]]. *)
Definition get_recent_messages (self : Channel) (count : Z) : list message.Message :=
  py.slice_from (- count) (messages self).

Definition clear_messages (self : Channel) : Channel * Z :=
  (with_messages self [], Z.of_nat (length (messages self))).

(** A run of [add_message] calls, in call order. *)
Definition add_messages (self : Channel) (ms : list message.Message) : Channel :=
  foldl add_message self ms.

Definition with_members (self : Channel) (ms : gset string) : Channel :=
  {| name := name self; description := description self; id := id self;
     topic := topic self; created_at := created_at self;
     members := ms; messages := messages self;
     max_history := max_history self |}.

Definition add_member (self : Channel) (agent_id : string) : Channel :=
  with_members self (members self ∪ {[agent_id]}).

(** [set.discard]: nothing happens when the element is absent. *)
Definition remove_member (self : Channel) (agent_id : string) : Channel :=
  with_members self (members self ∖ {[agent_id]}).

Definition set_topic (self : Channel) (t : string) : Channel :=
  {| name := name self; description := description self; id := id self;
     topic := t; created_at := created_at self;
     members := members self; messages := messages self;
     max_history := max_history self |}.

Definition get_context_string (self : Channel) (count : Z) : string :=
  let recent := get_recent_messages self count in
  let lines :=
    if decide (topic self = "") then []
    else ["=== Room Topic: " +:+ topic self +:+ " ==="; ""] in
  py.join py.nl (lines ++ (message.format_irc <$> recent)).

(** [Channel(name=..., description=...)]: [the_id] is the uuid drawn by
    the default factory. *)
Definition new (now : py.datetime) (the_id the_name the_description : string) : Channel :=
  {| name := the_name; description := the_description; id := the_id;
     topic := ""; created_at := now; members := ∅; messages := [];
     max_history := 1000 |}.

End channel.

(** ** core/events.py *)

Module events.

(** The [data] of the events the engine emits. *)
Inductive Payload :=
  | NoData
  | MessageData (channel : string) (m : message.Message)
  | ModeData (mode : string)
  | RoundsData (rounds : Z).

Record Event := {
  type : string;
  data : Payload;
  timestamp : py.datetime
}.

(** A handler is a callable, known to the bus by its identity. *)
Definition Handler : Type := nat.

(** The handle of a background task: its loop is running, or it was
    cancelled and awaited. *)
Inductive Task := TaskRunning | TaskCancelled.

Record EventBus := {
  _handlers : gmap string (list Handler);
  _queue : list Event;
  _running : bool;
  _task : option Task
}.

Definition empty_bus : EventBus :=
  {| _handlers := ∅; _queue := []; _running := false; _task := None |}.

Definition with_handlers (self : EventBus) (t : gmap string (list Handler)) : EventBus :=
  {| _handlers := t; _queue := _queue self; _running := _running self;
     _task := _task self |}.

Definition subscribe (self : EventBus) (event_type : string) (handler : Handler) : EventBus :=
  let t := _handlers self in
  let t := if t !! event_type is Some _ then t else <[event_type := []]> t in
  with_handlers self (<[event_type := default [] (t !! event_type) ++ [handler]]> t).

(** [list.remove(x)]: drops the first occurrence, [ValueError] without one. *)
Fixpoint list_remove (h : Handler) (l : list Handler) : option (list Handler) :=
  match l with
  | [] => None
  | x :: l' => if decide (x = h) then Some l' else cons x <$> list_remove h l'
  end.

Definition unsubscribe (self : EventBus) (event_type : string) (handler : Handler)
  : py.Completion EventBus :=
  match _handlers self !! event_type with
  | Some l =>
      match list_remove handler l with
      | Some l' => py.Returned (with_handlers self (<[event_type := l']> (_handlers self)))
      | None => py.Raised (py.ValueError "list.remove(x): x not in list")
      end
  | None => py.Returned self
  end.

Definition emit (self : EventBus) (event : Event) : EventBus :=
  {| _handlers := _handlers self; _queue := _queue self ++ [event];
     _running := _running self; _task := _task self |}.

Definition start (self : EventBus) : EventBus :=
  {| _handlers := _handlers self; _queue := _queue self;
     _running := true; _task := Some TaskRunning |}.

Definition stop (self : EventBus) : EventBus :=
  {| _handlers := _handlers self; _queue := _queue self;
     _running := false;
     _task := match _task self with Some _ => Some TaskCancelled | None => None end |}.

(** A local variable bound to a list: either the list object stored in
    the table under a key, or a list object of its own. *)
Inductive ListRef :=
  | Stored (key : string)
  | Fresh (l : list Handler).

(** [table.get(key, [])]: the stored list object itself when there is
    one, a new empty list otherwise. *)
Definition get_ref (t : gmap string (list Handler)) (key : string) : ListRef :=
  if t !! key is Some _ then Stored key else Fresh [].

Definition deref (t : gmap string (list Handler)) (r : ListRef) : list Handler :=
  match r with
  | Stored key => default [] (t !! key)
  | Fresh l => l
  end.

(** [r.extend(xs)] mutates the list object [r] is bound to. *)
Definition extend (t : gmap string (list Handler)) (r : ListRef) (xs : list Handler)
  : gmap string (list Handler) * ListRef :=
  match r with
  | Stored key => (<[key := deref t r ++ xs]> t, r)
  | Fresh l => (t, Fresh (l ++ xs))
  end.

(** [_dispatch]: the bus afterwards and the handlers called, in call
    order. Each call sits in its own [try]/[except Exception], so what a
    handler does has no effect on the calls that follow. *)
Definition _dispatch (self : EventBus) (event : Event) : EventBus * list Handler :=
  let t := _handlers self in
  let handlers := get_ref t (type event) in
  let wildcard := deref t (get_ref t "*") in
  let '(t, handlers) := extend t handlers wildcard in
  (with_handlers self t, deref t handlers).

(** One turn of [_process_events] with an event waiting: take the head
    of the queue and dispatch it. *)
Definition _process_event (self : EventBus) : EventBus * list (Handler * Event) :=
  match _queue self with
  | [] => (self, [])
  | event :: q =>
      let self := {| _handlers := _handlers self; _queue := q;
                     _running := _running self; _task := _task self |} in
      let '(self, called) := _dispatch self event in
      (self, (fun h => (h, event)) <$> called)
  end.

End events.

(** ** agents/agent.py *)

Module agent.

(** The runtime and scoring fields of [Agent]; the fields that only feed
    the prompt and the API request are left out. [_client] records
    whether a client is present. *)
Record Agent := {
  name : string;
  interests : list string;
  response_tendency : float;
  id : string;
  status : types.AgentStatus;
  last_spoke_at : option py.datetime;
  message_count : Z;
  conversation_history : list (string * string);
  _client : bool
}.

Definition with_status (self : Agent) (s : types.AgentStatus) : Agent :=
  {| name := name self; interests := interests self;
     response_tendency := response_tendency self; id := id self;
     status := s; last_spoke_at := last_spoke_at self;
     message_count := message_count self;
     conversation_history := conversation_history self;
     _client := _client self |}.

Definition with_history (self : Agent) (h : list (string * string)) : Agent :=
  {| name := name self; interests := interests self;
     response_tendency := response_tendency self; id := id self;
     status := status self; last_spoke_at := last_spoke_at self;
     message_count := message_count self;
     conversation_history := h;
     _client := _client self |}.

Definition spoke (self : Agent) (now : py.datetime) : Agent :=
  {| name := name self; interests := interests self;
     response_tendency := response_tendency self; id := id self;
     status := status self; last_spoke_at := Some now;
     message_count := message_count self + 1;
     conversation_history := conversation_history self;
     _client := _client self |}.

(** What [await self._client.messages.create(...)] does: it returns a
    response with the texts of its content blocks, raises an error of
    the client, or is cancelled. *)
Inductive ApiOutcome :=
  | ApiResponse (content : list string)
  | ApiRaises (msg : string)
  | ApiCancelled.

(** The body of the [try] of [step], entered with status THINKING. *)
Definition step_body (now : py.datetime) (api : ApiOutcome) (self : Agent)
    (chat_context : string) : Agent * py.Completion (option string) :=
  let user_message :=
    "Current conversation:" +:+ py.nl +:+ py.nl +:+ chat_context +:+ py.nl +:+ py.nl
    +:+ "Now respond as " +:+ name self
    +:+ ". Keep it brief (1-2 sentences). Just your response, nothing else." in
  let self := with_history self (conversation_history self ++ [("user", user_message)]) in
  let self :=
    if Z.of_nat (length (conversation_history self)) >? 40
    then with_history self (py.slice_from (- 40) (conversation_history self))
    else self in
  match api with
  | ApiRaises msg => (self, py.Raised (py.APIError msg))
  | ApiCancelled => (self, py.Raised py.CancelledError)
  | ApiResponse [] => (self, py.Raised py.IndexError)
  | ApiResponse (text :: _) =>
      let response_text := py.strip text in
      let self :=
        with_history self (conversation_history self ++ [("assistant", response_text)]) in
      if decide (response_text = "[PASS]")
      then (with_status self types.IDLE, py.Returned None)
      else (spoke (with_status self types.SPEAKING) now, py.Returned (Some response_text))
  end.

(** [except Exception as e]: status IDLE, return [None]. *)
Definition step_except (r : Agent * py.Completion (option string))
  : Agent * py.Completion (option string) :=
  match r with
  | (self, py.Raised e) =>
      if py.is_Exception e then (with_status self types.IDLE, py.Returned None) else r
  | _ => r
  end.

(** [finally]: status IDLE, whatever the outcome. *)
Definition step_finally (r : Agent * py.Completion (option string))
  : Agent * py.Completion (option string) :=
  (with_status (fst r) types.IDLE, snd r).

Definition step (now : py.datetime) (api : ApiOutcome) (self : Agent)
    (chat_context : string) : Agent * py.Completion (option string) :=
  if negb (_client self)
  then (self, py.Raised (py.RuntimeError ("Agent " +:+ name self +:+ " is not connected")))
  else
    let self := with_status self types.THINKING in
    step_finally (step_except (step_body now api self chat_context)).

Definition respond (now : py.datetime) (api : ApiOutcome) (self : Agent)
    (context : string) : Agent * py.Completion (option string) :=
  step now api self context.

(** The test [self.name.lower() in [m.lower() for m in message.mentions]]. *)
Definition mentioned (self : Agent) (m : message.Message) : bool :=
  bool_decide (py.lower (name self) ∈ py.lower <$> message.mentions m).

(** [should_respond]; [all_agents] is not read. *)
Definition should_respond (now : py.datetime) (self : Agent) (m : message.Message)
    (all_agents : list string) : float :=
  let base_prob := (response_tendency self * 0.3)%float in
  if mentioned self m
  then py.min 0.95 (base_prob + 0.6)
  else
    let base_prob :=
      if py.contains "?" (message.content m) then (base_prob + 0.15)%float else base_prob in
    let content_lower := py.lower (message.content m) in
    let base_prob :=
      if existsb (fun interest => py.contains (py.lower interest) content_lower)
           (interests self)
      then (base_prob + 0.1)%float else base_prob in
    let base_prob :=
      match last_spoke_at self with
      | Some t =>
          if py.seconds_ago_lt now t 10 then (base_prob * 0.3)%float
          else if py.seconds_ago_lt now t 30 then (base_prob * 0.6)%float
          else base_prob
      | None => base_prob
      end in
    py.min 0.8 base_prob.

(** [connect]: [api_key] is what [os.environ.get("ANTHROPIC_API_KEY")]
    returns. *)
Definition connect (api_key : option string) (self : Agent) : Agent * py.Completion unit :=
  match api_key with
  | Some (String _ _) =>
      ({| name := name self; interests := interests self;
          response_tendency := response_tendency self; id := id self;
          status := types.IDLE; last_spoke_at := last_spoke_at self;
          message_count := message_count self;
          conversation_history := [];
          _client := true |},
       py.Returned tt)
  | _ =>
      (self, py.Raised (py.ValueError "ANTHROPIC_API_KEY environment variable not set"))
  end.

Definition disconnect (self : Agent) : Agent :=
  {| name := name self; interests := interests self;
     response_tendency := response_tendency self; id := id self;
     status := types.OFFLINE; last_spoke_at := last_spoke_at self;
     message_count := message_count self;
     conversation_history := [];
     _client := false |}.

End agent.

(** ** arena/registry.py *)

Module registry.

Record AgentRegistry := {
  _agents : list (string * agent.Agent);
  _by_name : gmap string string
}.

Definition empty : AgentRegistry := {| _agents := []; _by_name := ∅ |}.

Definition register (self : AgentRegistry) (a : agent.Agent) : py.Completion AgentRegistry :=
  if bool_decide (agent.id a ∈ fst <$> _agents self)
  then py.Raised (py.ValueError ("Agent " +:+ agent.id a +:+ " already registered"))
  else py.Returned
         {| _agents := _agents self ++ [(agent.id a, a)];
            _by_name := <[py.lower (agent.name a) := agent.id a]> (_by_name self) |}.

Definition all (self : AgentRegistry) : list agent.Agent := snd <$> _agents self.

Definition names (self : AgentRegistry) : list string := agent.name <$> all self.

(** The dict [_agents], in insertion order: lookup, and [pop] of a key. *)
Fixpoint lookup_id (agent_id : string) (l : list (string * agent.Agent))
  : option agent.Agent :=
  match l with
  | [] => None
  | (k, a) :: l' => if decide (k = agent_id) then Some a else lookup_id agent_id l'
  end.

Fixpoint remove_id (agent_id : string) (l : list (string * agent.Agent))
  : list (string * agent.Agent) :=
  match l with
  | [] => []
  | (k, a) :: l' => if decide (k = agent_id) then l' else (k, a) :: remove_id agent_id l'
  end.

Definition get (self : AgentRegistry) (agent_id : string) : option agent.Agent :=
  lookup_id agent_id (_agents self).

(** [unregister]: the registry afterwards and the value returned. An
    [Agent] is always true in a condition. *)
Definition unregister (self : AgentRegistry) (agent_id : string)
  : AgentRegistry * option agent.Agent :=
  match get self agent_id with
  | Some a =>
      ({| _agents := remove_id agent_id (_agents self);
          _by_name := delete (py.lower (agent.name a)) (_by_name self) |},
       Some a)
  | None => (self, None)
  end.

(** [get_by_name]: an id that is the empty string is false in the
    condition [if agent_id]. *)
Definition get_by_name (self : AgentRegistry) (n : string) : option agent.Agent :=
  match _by_name self !! py.lower n with
  | Some (String c k) => get self (String c k)
  | _ => None
  end.

Definition count (self : AgentRegistry) : Z := Z.of_nat (length (_agents self)).

Definition contains (self : AgentRegistry) (agent_id : string) : bool :=
  bool_decide (agent_id ∈ fst <$> _agents self).

(** The two indices agree: ids are registered once, and a name leads to
    a registered agent that bears it. *)
Definition consistent (self : AgentRegistry) : Prop :=
  NoDup (fst <$> _agents self)
  /\ (forall k a, (k, a) ∈ _agents self -> agent.id a = k)
  /\ (forall n k, _by_name self !! n = Some k ->
        exists a, get self k = Some a /\ py.lower (agent.name a) = n).

End registry.

(** ** arena/world.py *)

Module world.

Inductive LogLevel := DEBUG | INFO | WARNING | ERROR.

Record ArenaWorld := {
  name : string;
  registry : registry.AgentRegistry;
  channels : gmap string channel.Channel;
  event_bus : events.EventBus;
  mode : types.ScheduleMode;
  round_interval : float;
  max_speakers_per_round : Z;
  running : bool;
  current_round : Z;
  start_time : option py.datetime;
  default_channel : string;
  _scheduler_task : option events.Task
}.

Definition with_channels (self : ArenaWorld) (c : gmap string channel.Channel) : ArenaWorld :=
  {| name := name self; registry := registry self; channels := c;
     event_bus := event_bus self; mode := mode self;
     round_interval := round_interval self;
     max_speakers_per_round := max_speakers_per_round self;
     running := running self; current_round := current_round self;
     start_time := start_time self; default_channel := default_channel self;
     _scheduler_task := _scheduler_task self |}.

Definition with_event_bus (self : ArenaWorld) (b : events.EventBus) : ArenaWorld :=
  {| name := name self; registry := registry self; channels := channels self;
     event_bus := b; mode := mode self;
     round_interval := round_interval self;
     max_speakers_per_round := max_speakers_per_round self;
     running := running self; current_round := current_round self;
     start_time := start_time self; default_channel := default_channel self;
     _scheduler_task := _scheduler_task self |}.

Definition with_run (self : ArenaWorld) (r : bool) (st : option py.datetime)
    (task : option events.Task) : ArenaWorld :=
  {| name := name self; registry := registry self; channels := channels self;
     event_bus := event_bus self; mode := mode self;
     round_interval := round_interval self;
     max_speakers_per_round := max_speakers_per_round self;
     running := r; current_round := current_round self;
     start_time := st; default_channel := default_channel self;
     _scheduler_task := task |}.

(** [broadcast]: the world afterwards, the records logged at WARNING or
    above, and how the call completes. *)
Definition broadcast (now : py.datetime) (self : ArenaWorld) (m : message.Message)
  : ArenaWorld * list (LogLevel * string) * py.Completion unit :=
  match channels self !! message.channel m with
  | None =>
      (self, [(WARNING, "Channel " +:+ message.channel m +:+ " not found")],
       py.Returned tt)
  | Some ch =>
      let self :=
        with_channels self (<[message.channel m := channel.add_message ch m]> (channels self)) in
      let self :=
        with_event_bus self
          (events.emit (event_bus self)
             {| events.type := "message";
                events.data := events.MessageData (message.channel m) m;
                events.timestamp := now |}) in
      (self, [], py.Returned tt)
  end.

Definition start (now : py.datetime) (self : ArenaWorld) : ArenaWorld :=
  if running self then self
  else
    let self := with_run self true (Some now) (_scheduler_task self) in
    let self := with_event_bus self (events.start (event_bus self)) in
    let self := with_run self (running self) (start_time self) (Some events.TaskRunning) in
    with_event_bus self
      (events.emit (event_bus self)
         {| events.type := "simulation_started";
            events.data := events.ModeData (types.ScheduleMode_value (mode self));
            events.timestamp := now |}).

Definition stop (now : py.datetime) (self : ArenaWorld) : ArenaWorld :=
  if negb (running self) then self
  else
    let self := with_run self false (start_time self) (_scheduler_task self) in
    let self :=
      match _scheduler_task self with
      | Some _ => with_run self (running self) (start_time self) (Some events.TaskCancelled)
      | None => self
      end in
    let self := with_event_bus self (events.stop (event_bus self)) in
    with_event_bus self
      (events.emit (event_bus self)
         {| events.type := "simulation_stopped";
            events.data := events.RoundsData (current_round self);
            events.timestamp := now |}).

(** The loop of [_select_speakers] over [registry.all()]: [k] counts the
    calls of [random.random()] made so far. *)
Fixpoint scan_candidates (now : py.datetime) (rnd : py.RandomSource)
    (last_message : message.Message) (all_names : list string)
    (agents : list agent.Agent) (k : nat) : list (float * agent.Agent) :=
  match agents with
  | [] => []
  | a :: rest =>
      if negb (bool_decide (agent.status a = types.IDLE))
      then scan_candidates now rnd last_message all_names rest k
      else if decide (agent.id a = message.sender_id last_message)
      then scan_candidates now rnd last_message all_names rest k
      else
        let probability := agent.should_respond now a last_message all_names in
        if (py.draws rnd k <? probability)%float
        then (probability, a) :: scan_candidates now rnd last_message all_names rest (S k)
        else scan_candidates now rnd last_message all_names rest (S k)
  end.

Definition _select_speakers (now : py.datetime) (rnd : py.RandomSource)
    (self : ArenaWorld) : py.Completion (list agent.Agent) :=
  match channels self !! default_channel self with
  | None => py.Raised (py.KeyError (default_channel self))
  | Some ch =>
      let recent := channel.get_recent_messages ch 1 in
      match last recent with
      | None =>
          let agents := registry.all (registry self) in
          match py.choice rnd agents with
          | Some a => py.Returned [a]
          | None => py.Returned []
          end
      | Some last_message =>
          let candidates :=
            scan_candidates now rnd last_message (registry.names (registry self))
              (registry.all (registry self)) 0 in
          let candidates := py.sort_desc fst candidates in
          py.Returned (snd <$> candidates)
      end
  end.

(** [__post_init__]: [uuid] is the id drawn when a channel is made. *)
Definition post_init (now : py.datetime) (uuid : string) (self : ArenaWorld) : ArenaWorld :=
  match channels self !! default_channel self with
  | Some _ => self
  | None =>
      with_channels self
        (<[default_channel self :=
             channel.new now uuid (default_channel self) "General discussion"]>
           (channels self))
  end.

Definition create_channel (now : py.datetime) (uuid : string) (self : ArenaWorld)
    (the_name the_description : string) : ArenaWorld * channel.Channel :=
  let ch := channel.new now uuid the_name the_description in
  (with_channels self (<[the_name := ch]> (channels self)), ch).

Definition get_channel (self : ArenaWorld) (the_name : string) : option channel.Channel :=
  channels self !! the_name.

(** [inject_message]: the world afterwards, the records logged by
    [broadcast], and the message returned. [channel or
    self.default_channel] takes the default for [None] and for the empty
    string. *)
Definition inject_message (now : py.datetime) (uuid : string) (self : ArenaWorld)
    (the_content the_sender_name : string) (the_channel : option string)
  : ArenaWorld * list (LogLevel * string) * message.Message :=
  let m :=
    message.new "human" the_sender_name the_content
      match the_channel with
      | Some (String c k) => String c k
      | _ => default_channel self
      end
      uuid types.CHAT now None [] in
  let '(self, log, _) := broadcast now self m in
  (self, log, m).

End world.


(** ** Sample values used by the closed statements *)

Definition sample_message (text channel_name : string) : message.Message :=
  {| message.sender_id := "human"; message.sender_name := "Human";
     message.content := text; message.channel := channel_name;
     message.id := text; message.type := types.CHAT;
     message.timestamp := 0; message.reply_to := None;
     message.mentions := [] |}.

Definition sample_mention : message.Message :=
  {| message.sender_id := "human"; message.sender_name := "Human";
     message.content := "@ALICE do you like music?"; message.channel := "general";
     message.id := "m1"; message.type := types.CHAT;
     message.timestamp := 0; message.reply_to := None;
     message.mentions := ["ALICE"] |}.

Definition sample_channel (capacity : Z) (log : list message.Message) : channel.Channel :=
  {| channel.name := "general"; channel.description := "General discussion";
     channel.id := "c0"; channel.topic := ""; channel.created_at := 0;
     channel.members := ∅; channel.messages := log;
     channel.max_history := capacity |}.

Definition sample_agent (n : string) (t : float) (s : types.AgentStatus)
    (spoke_at : option py.datetime) : agent.Agent :=
  {| agent.name := n; agent.interests := ["music"]; agent.response_tendency := t;
     agent.id := n; agent.status := s; agent.last_spoke_at := spoke_at;
     agent.message_count := 0; agent.conversation_history := [];
     agent._client := true |}.

(** The registry after registering the agents in turn. *)
Definition sample_registry (agents : list agent.Agent) : registry.AgentRegistry :=
  foldl (fun r a => match registry.register r a with
                    | py.Returned r' => r'
                    | py.Raised _ => r
                    end)
    registry.empty agents.

Definition sample_world (agents : list agent.Agent) (log : list message.Message)
    (is_running : bool) : world.ArenaWorld :=
  {| world.name := "Agent Arena";
     world.registry := sample_registry agents;
     world.channels := {[ "general" := sample_channel 1000 log ]};
     world.event_bus := events.empty_bus;
     world.mode := types.TURN_BASED;
     world.round_interval := 5%float;
     world.max_speakers_per_round := 3;
     world.running := is_running;
     world.current_round := 0;
     world.start_time := None;
     world.default_channel := "general";
     world._scheduler_task := None |}.

Definition sample_random : py.RandomSource :=
  {| py.randbelow := fun _ => 0%nat; py.draws := fun _ => 0%float |}.

(** The last [n] elements of a list. *)
Definition lastn {A : Type} (n : nat) (l : list A) : list A :=
  drop (length l - n) l.

(** ** The value of a double

    A finite double with mantissa [m] and exponent [e] has the value
    [m * 2^e]; the lemmas on doubles below compare these values. *)

Definition bpow (e : Z) : R := powerRZ 2 e.
Definition dyad (m e : Z) : R := (IZR m * bpow e)%R.

Definition SF2R (x : spec_float) : R :=
  match x with
  | S754_finite s m e => dyad (cond_Zopp s (Zpos m)) e
  | _ => 0%R
  end.

Definition nonneg_finite (x : spec_float) : Prop :=
  match x with
  | S754_zero _ => True
  | S754_finite false _ _ => True
  | _ => False
  end.

Definition F2R (x : float) : R := SF2R (Prim2SF x).
Definition fin_nonneg (x : float) : Prop := nonneg_finite (Prim2SF x).


(** The state of the shifter after [j] shifts of [m]. *)
Definition shifted (m j : Z) (mrs : shr_record) : Prop :=
  shr_m mrs = m / 2 ^ j
  /\ (orb (shr_r mrs) (shr_s mrs) = true -> m mod 2 ^ j <> 0).


(** A double that is zero or positive and finite, with a value of at
    most [q]. *)
Definition at_most (x : float) (q : R) : Prop := fin_nonneg x /\ (F2R x <= q)%R.


(** ** Auxiliary definitions on participants *)

Definition with_last_spoke_at (self : agent.Agent) (t : option py.datetime) : agent.Agent :=
  {| agent.name := agent.name self; agent.interests := agent.interests self;
     agent.response_tendency := agent.response_tendency self;
     agent.id := agent.id self; agent.status := agent.status self;
     agent.last_spoke_at := t;
     agent.message_count := agent.message_count self;
     agent.conversation_history := agent.conversation_history self;
     agent._client := agent._client self |}.


(** The score before the final [min], as [should_respond] computes it
    when the participant is not mentioned. *)
Definition unmentioned_base (now : py.datetime) (self : agent.Agent) (m : message.Message)
  : float :=
  let base_prob := (agent.response_tendency self * 0.3)%float in
  let base_prob :=
    if py.contains "?" (message.content m) then (base_prob + 0.15)%float else base_prob in
  let base_prob :=
    if existsb (fun interest => py.contains (py.lower interest) (py.lower (message.content m)))
         (agent.interests self)
    then (base_prob + 0.1)%float else base_prob in
  match agent.last_spoke_at self with
  | Some t =>
      if py.seconds_ago_lt now t 10 then (base_prob * 0.3)%float
      else if py.seconds_ago_lt now t 30 then (base_prob * 0.6)%float
      else base_prob
  | None => base_prob
  end.



(** ** Auxiliary definitions on strings *)

Fixpoint string_forallb (p : ascii -> bool) (s : string) : bool :=
  match s with
  | EmptyString => true
  | String c s' => p c && string_forallb p s'
  end.

(** A string of word characters only. *)
Definition word_only (s : string) : bool := string_forallb py.is_word s.

(** A string of the ASCII range, where [\w] is a letter, a digit or
    the underscore and nothing else. *)
Definition ascii_only (s : string) : bool :=
  string_forallb (fun c => Nat.ltb (nat_of_ascii c) 128) s.

(** A character of the ASCII range that is not a word character: a
    space, a hyphen, a dot and the like. *)
Definition ascii_nonword (c : ascii) : bool :=
  Nat.ltb (nat_of_ascii c) 128 && negb (py.is_word c).

(** The string does not begin with a word character. *)
Definition word_stops (s : string) : bool :=
  match s with
  | EmptyString => true
  | String c _ => negb (py.is_word c)
  end.


(** ** Auxiliary definitions on the bus *)

(** [n] dispatches of the same event, one after the other: the bus
    after the last one and the handlers it called. *)
Fixpoint dispatch_times (n : nat) (self : events.EventBus) (event : events.Event)
  : events.EventBus * list events.Handler :=
  match n with
  | O => (self, [])
  | S n' => events._dispatch (dispatch_times n' self event).1 event
  end.

(** [n] copies of a list, one after the other. *)
Definition repeated {A : Type} (n : nat) (l : list A) : list A :=
  mjoin (replicate n l).


(** ** Auxiliary definitions on the Arena *)

(** The channel [inject_message] writes to: the one given, or the
    default channel for [None] and for the empty string. *)
Definition inject_target (self : world.ArenaWorld) (the_channel : option string) : string :=
  match the_channel with
  | Some (String c k) => String c k
  | _ => world.default_channel self
  end.


(** A list in non-increasing order of a float score. *)
Fixpoint descending {A : Type} (score : A -> float) (l : list A) : Prop :=
  match l with
  | [] => True
  | x :: l' => Forall (fun y => (score y <=? score x)%float = true) l' /\ descending score l'
  end.


(** * Properties *)

(** ** Slices *)

Lemma slice_from_neg_pos {A : Type} (k : Z) (l : list A) :
  0 < k -> py.slice_from (- k) l = lastn (Z.to_nat k) l.
Proof.
  intros Hk. unfold py.slice_from, lastn.
  destruct (Z.ltb_spec (- k) 0) as [_|]; [|lia].
  f_equal. lia.
Qed.

Lemma slice_from_zero {A : Type} (l : list A) : py.slice_from (- 0) l = l.
Proof.
  unfold py.slice_from. simpl.
  destruct (length l); reflexivity.
Qed.

Lemma lastn_length {A : Type} (n : nat) (l : list A) :
  length (lastn n l) = Nat.min n (length l).
Proof. unfold lastn. rewrite length_drop. lia. Qed.

Lemma lastn_all {A : Type} (n : nat) (l : list A) :
  (length l <= n)%nat -> lastn n l = l.
Proof.
  intros H. unfold lastn.
  replace (length l - n)%nat with 0%nat by lia. reflexivity.
Qed.

Lemma lastn_snoc {A : Type} (n : nat) (l : list A) (x : A) :
  lastn (S n) (l ++ [x]) = lastn n l ++ [x].
Proof.
  unfold lastn. rewrite length_app. simpl.
  replace (length l + 1 - S n)%nat with (length l - n)%nat by lia.
  rewrite drop_app_le by lia. reflexivity.
Qed.

Lemma lastn_lastn_snoc {A : Type} (n : nat) (l : list A) (x : A) :
  (0 < n)%nat -> lastn n (lastn n l ++ [x]) = lastn n (l ++ [x]).
Proof.
  intros Hn. destruct n as [|n]; [lia|].
  rewrite !lastn_snoc. f_equal.
  unfold lastn at 1 3. rewrite lastn_length.
  unfold lastn. rewrite drop_drop. f_equal. lia.
Qed.

(** ** The message log *)

Lemma add_message_messages (self : channel.Channel) (m : message.Message) :
  0 < channel.max_history self ->
  channel.messages (channel.add_message self m)
  = lastn (Z.to_nat (channel.max_history self)) (channel.messages self ++ [m]).
Proof.
  intros Hk. unfold channel.add_message.
  destruct (Z.gtb_spec (Z.of_nat (length (channel.messages self ++ [m])))
              (channel.max_history self)) as [Hgt|Hle]; simpl.
  - apply slice_from_neg_pos, Hk.
  - symmetry. apply lastn_all. lia.
Qed.

Lemma add_message_max_history (self : channel.Channel) (m : message.Message) :
  channel.max_history (channel.add_message self m) = channel.max_history self.
Proof. unfold channel.add_message. destruct (_ >? _); reflexivity. Qed.

Lemma add_messages_max_history (ms : list message.Message) (self : channel.Channel) :
  channel.max_history (channel.add_messages self ms) = channel.max_history self.
Proof.
  unfold channel.add_messages. revert self.
  induction ms as [|m ms IH]; intros self; simpl; [reflexivity|].
  rewrite IH. apply add_message_max_history.
Qed.

(** With a capacity of at least one, a run of [add_message] calls keeps
    the last [max_history] messages of everything appended, in append
    order, and the log never exceeds the capacity. *)
Lemma add_messages_retains_suffix (ms : list message.Message) (self : channel.Channel) :
  0 < channel.max_history self ->
  Z.of_nat (length (channel.messages self)) <= channel.max_history self ->
  channel.messages (channel.add_messages self ms)
  = lastn (Z.to_nat (channel.max_history self)) (channel.messages self ++ ms).
Proof.
  intros Hk Hlen.
  induction ms as [|m ms IH] using rev_ind.
  - simpl. rewrite app_nil_r. symmetry. apply lastn_all. lia.
  - unfold channel.add_messages. rewrite foldl_app. simpl.
    fold (channel.add_messages self ms).
    rewrite add_message_messages by (rewrite add_messages_max_history; exact Hk).
    rewrite add_messages_max_history, IH, app_assoc.
    apply lastn_lastn_snoc. lia.
Qed.

Lemma add_messages_bounded (ms : list message.Message) (self : channel.Channel) :
  0 < channel.max_history self ->
  Z.of_nat (length (channel.messages self)) <= channel.max_history self ->
  Z.of_nat (length (channel.messages (channel.add_messages self ms)))
  <= channel.max_history self.
Proof.
  intros Hk Hlen. rewrite add_messages_retains_suffix by assumption.
  rewrite lastn_length. lia.
Qed.

(** From an empty log: the last [min(total, max_history)] of the
    appended messages. *)
Lemma add_messages_from_empty (ms : list message.Message) (self : channel.Channel) :
  0 < channel.max_history self ->
  channel.messages self = [] ->
  channel.messages (channel.add_messages self ms)
  = lastn (Nat.min (length ms) (Z.to_nat (channel.max_history self))) ms
  /\ Z.of_nat (length (channel.messages (channel.add_messages self ms)))
     <= channel.max_history self.
Proof.
  intros Hk Hempty. split.
  - rewrite add_messages_retains_suffix by (rewrite ?Hempty; simpl; lia).
    rewrite Hempty. simpl. unfold lastn. f_equal. lia.
  - apply add_messages_bounded; [exact Hk|]. rewrite Hempty. simpl. lia.
Qed.

(** C6, at a capacity of zero: [messages[-0:]] is the whole list, so
    the trim keeps everything. After three [add_message] calls on an
    empty channel with [max_history = 0] the log holds all three
    messages, where the bound [len(messages) <= max_history] and the
    suffix of the last [min(3, 0) = 0] messages both ask for an empty
    log. *)
Theorem add_message_zero_capacity_unbounded :
  let ch := channel.add_messages (sample_channel 0 [])
              [sample_message "a" "general"; sample_message "b" "general";
               sample_message "c" "general"] in
  channel.messages ch
  = [sample_message "a" "general"; sample_message "b" "general";
     sample_message "c" "general"]
  /\ ~ (Z.of_nat (length (channel.messages ch)) <= channel.max_history ch)
  /\ channel.messages ch
     <> lastn (Nat.min 3 (Z.to_nat (channel.max_history ch)))
          [sample_message "a" "general"; sample_message "b" "general";
           sample_message "c" "general"].
Proof.
  cbv zeta. split; [reflexivity|]. split.
  - vm_compute. intros H. apply H. reflexivity.
  - vm_compute. discriminate.
Qed.

(** [get_recent_messages(n)] for [n >= 1]: the last [n] messages, or the
    whole log when it is shorter. *)
Lemma get_recent_messages_positive (self : channel.Channel) (n : Z) :
  0 < n ->
  channel.get_recent_messages self n = lastn (Z.to_nat n) (channel.messages self).
Proof. intros Hn. apply slice_from_neg_pos, Hn. Qed.

Lemma get_recent_messages_zero (self : channel.Channel) :
  channel.get_recent_messages self 0 = channel.messages self.
Proof. apply slice_from_zero. Qed.

(** C7, at [n = 0]: [messages[-0:]] is the whole log, so
    [get_recent_messages(0)] on a log of two messages returns both, not
    the empty list. *)
Theorem get_recent_messages_zero_returns_log :
  channel.get_recent_messages
    (sample_channel 1000 [sample_message "a" "general"; sample_message "b" "general"]) 0
  = [sample_message "a" "general"; sample_message "b" "general"]
  /\ channel.get_recent_messages
       (sample_channel 1000 [sample_message "a" "general"; sample_message "b" "general"]) 0
     <> [].
Proof. split; [reflexivity | discriminate]. Qed.

(** ** The event bus *)

(** An event of a type nobody subscribed to reaches the wildcard
    handlers, in subscription order, and leaves the table as it was. *)
Lemma dispatch_unsubscribed_type (self : events.EventBus) (event : events.Event) :
  events._handlers self !! events.type event = None ->
  events._dispatch self event
  = (self, default [] (events._handlers self !! "*")).
Proof.
  intros Hnone. unfold events._dispatch, events.get_ref. rewrite Hnone.
  destruct self as [t q r k]. simpl in *.
  destruct (t !! "*") as [w|] eqn:Hw; simpl; rewrite ?Hw; reflexivity.
Qed.

(** An event of a subscribed type reaches the type's handlers, then the
    wildcard handlers; the wildcard handlers are appended to the list
    the table stores for the type. *)
Lemma dispatch_subscribed_type (self : events.EventBus) (event : events.Event)
    (l : list events.Handler) :
  events._handlers self !! events.type event = Some l ->
  events._dispatch self event
  = (events.with_handlers self
       (<[events.type event := l ++ default [] (events._handlers self !! "*")]>
          (events._handlers self)),
     l ++ default [] (events._handlers self !! "*")).
Proof.
  intros Hsome. unfold events._dispatch, events.get_ref. rewrite Hsome.
  assert (Hw : events.deref (events._handlers self)
                 (if events._handlers self !! "*" is Some _
                  then events.Stored "*" else events.Fresh [])
               = default [] (events._handlers self !! "*")).
  { destruct (events._handlers self !! "*") eqn:E; simpl; rewrite ?E; reflexivity. }
  rewrite Hw. simpl. rewrite Hsome. simpl.
  rewrite lookup_insert_eq. reflexivity.
Qed.

(** C1, with one handler on ["message"] and one on ["*"]: the first
    dispatch of a ["message"] event calls both once, in order, but it
    stores the wildcard handler in the list of ["message"]; the second
    dispatch of the same event then calls the wildcard handler twice. *)
Theorem dispatch_appends_wildcard_to_type_list :
  let bus := events.subscribe (events.subscribe events.empty_bus "message" 1%nat) "*" 2%nat in
  let event := {| events.type := "message"; events.data := events.NoData;
                  events.timestamp := 0 |} in
  events._handlers bus !! "message" = Some [1%nat]
  /\ (events._dispatch bus event).2 = [1%nat; 2%nat]
  /\ events._handlers (events._dispatch bus event).1 !! "message" = Some [1%nat; 2%nat]
  /\ (events._dispatch (events._dispatch bus event).1 event).2 = [1%nat; 2%nat; 2%nat].
Proof. cbv zeta. repeat split; vm_compute; reflexivity. Qed.

(** ** Broadcast *)

(** C3, as the code has it: on a channel name that names no channel,
    [broadcast] logs a warning and returns normally; the world is
    unchanged, so nothing is appended to any log and no event is
    queued. *)
Theorem broadcast_unknown_channel_returns (now : py.datetime) (self : world.ArenaWorld)
    (m : message.Message) :
  world.channels self !! message.channel m = None ->
  world.broadcast now self m
  = (self, [(world.WARNING, "Channel " +:+ message.channel m +:+ " not found")],
     py.Returned tt).
Proof. intros Hnone. unfold world.broadcast. rewrite Hnone. reflexivity. Qed.

Lemma broadcast_unknown_channel_returns_witness :
  world.channels (sample_world [] [] false)
    !! message.channel (sample_message "hello" "lobby") = None
  /\ world.broadcast 7 (sample_world [] [] false) (sample_message "hello" "lobby")
     = (sample_world [] [] false,
        [(world.WARNING, "Channel lobby not found")], py.Returned tt).
Proof.
  split; [reflexivity|].
  apply (broadcast_unknown_channel_returns 7 (sample_world [] [] false)
           (sample_message "hello" "lobby")).
  reflexivity.
Defined.

(** C3, as stated, fails: the channel ["lobby"] does not exist, and
    [broadcast] returns normally, raising nothing, with every log and
    the event queue as before. *)
Lemma broadcast_unknown_channel_silent :
  world.channels (sample_world [] [] false)
    !! message.channel (sample_message "hello" "lobby") = None
  /\ (world.broadcast 7 (sample_world [] [] false) (sample_message "hello" "lobby")).2
     = py.Returned tt
  /\ world.channels
       (world.broadcast 7 (sample_world [] [] false) (sample_message "hello" "lobby")).1.1
     = world.channels (sample_world [] [] false)
  /\ events._queue
       (world.event_bus
          (world.broadcast 7 (sample_world [] [] false)
             (sample_message "hello" "lobby")).1.1)
     = [].
Proof. repeat split. Qed.

Lemma broadcast_never_raises (now : py.datetime) (self : world.ArenaWorld)
    (m : message.Message) :
  (world.broadcast now self m).2 = py.Returned tt.
Proof. unfold world.broadcast. destruct (_ !! _); reflexivity. Qed.

(** On a channel that exists, [broadcast] appends and queues one
    ["message"] event. *)
Lemma broadcast_known_channel (now : py.datetime) (self : world.ArenaWorld)
    (m : message.Message) (ch : channel.Channel) :
  world.channels self !! message.channel m = Some ch ->
  world.channels (world.broadcast now self m).1.1 !! message.channel m
  = Some (channel.add_message ch m)
  /\ events._queue (world.event_bus (world.broadcast now self m).1.1)
     = events._queue (world.event_bus self)
       ++ [{| events.type := "message";
              events.data := events.MessageData (message.channel m) m;
              events.timestamp := now |}].
Proof.
  intros Hsome. unfold world.broadcast. rewrite Hsome. simpl.
  rewrite lookup_insert_eq. split; reflexivity.
Qed.

(** ** Start and stop *)

(** C9: [stop()] on an Arena that is not running and [start()] on one
    that is running return at their guard: the Arena afterwards is the
    Arena before, in every field ([running], [current_round],
    [start_time], [channels], [registry], the bus and its queue), so no
    lifecycle event is queued. *)
Theorem stop_start_guarded_noop (now : py.datetime) (self : world.ArenaWorld) :
  (world.running self = false -> world.stop now self = self)
  /\ (world.running self = true -> world.start now self = self).
Proof.
  split; intros Hr.
  - unfold world.stop. rewrite Hr. reflexivity.
  - unfold world.start. rewrite Hr. reflexivity.
Qed.

Lemma stop_start_guarded_noop_witness :
  world.stop 9 (sample_world [] [] false) = sample_world [] [] false
  /\ world.start 9 (sample_world [] [] true) = sample_world [] [] true.
Proof.
  split.
  - apply (proj1 (stop_start_guarded_noop 9 (sample_world [] [] false))). reflexivity.
  - apply (proj2 (stop_start_guarded_noop 9 (sample_world [] [] true))). reflexivity.
Defined.

(** Past the guards both calls do change the Arena and queue their
    lifecycle event. *)
Lemma start_when_stopped (now : py.datetime) (self : world.ArenaWorld) :
  world.running self = false ->
  world.running (world.start now self) = true
  /\ world.start_time (world.start now self) = Some now
  /\ events._queue (world.event_bus (world.start now self))
     = events._queue (world.event_bus self)
       ++ [{| events.type := "simulation_started";
              events.data := events.ModeData (types.ScheduleMode_value (world.mode self));
              events.timestamp := now |}].
Proof. intros Hr. unfold world.start. rewrite Hr. repeat split. Qed.

Lemma stop_when_running (now : py.datetime) (self : world.ArenaWorld) :
  world.running self = true ->
  world.running (world.stop now self) = false
  /\ events._queue (world.event_bus (world.stop now self))
     = events._queue (world.event_bus self)
       ++ [{| events.type := "simulation_stopped";
              events.data := events.RoundsData (world.current_round self);
              events.timestamp := now |}].
Proof.
  intros Hr. unfold world.stop. rewrite Hr. simpl.
  destruct (world._scheduler_task self); repeat split.
Qed.

(** ** One step of a participant *)

Lemma step_finally_status (r : agent.Agent * py.Completion (option string)) :
  agent.status (agent.step_finally r).1 = types.IDLE.
Proof. reflexivity. Qed.

(** What the body of the [try] leaves in [last_spoke_at] and
    [message_count]: they move only when it returns a text. *)
Lemma step_body_counters (now : py.datetime) (api : agent.ApiOutcome) (self : agent.Agent)
    (chat_context : string) :
  match (agent.step_body now api self chat_context).2 with
  | py.Returned (Some text) =>
      text <> "[PASS]"
      /\ agent.last_spoke_at (agent.step_body now api self chat_context).1 = Some now
      /\ agent.message_count (agent.step_body now api self chat_context).1
         = agent.message_count self + 1
  | _ =>
      agent.last_spoke_at (agent.step_body now api self chat_context).1
      = agent.last_spoke_at self
      /\ agent.message_count (agent.step_body now api self chat_context).1
         = agent.message_count self
  end.
Proof.
  unfold agent.step_body.
  set (h := agent.with_history self _).
  set (h' := if Z.of_nat (length (agent.conversation_history h)) >? 40 then _ else h).
  assert (Hh : agent.last_spoke_at h' = agent.last_spoke_at self
               /\ agent.message_count h' = agent.message_count self)
    by (unfold h'; destruct (_ >? 40); split; reflexivity).
  destruct api as [[|text rest]|msg|]; cbn [fst snd]; try exact Hh.
  destruct (decide (py.strip text = "[PASS]")) as [Hpass|Hpass]; cbn [fst snd].
  - exact Hh.
  - split; [exact Hpass|]. split; [reflexivity|].
    cbn [agent.message_count agent.spoke agent.with_status agent.with_history].
    destruct Hh as [_ ->]. reflexivity.
Qed.

(** C10: for a connected agent, whatever the API call does, the agent
    is IDLE when [step] (and so [respond]) completes: SPEAKING is set
    and overwritten before the call ends. [last_spoke_at] and
    [message_count] are as before unless the call returns a text, which
    is never ["[PASS]"]; then [last_spoke_at] is the time of the call and
    [message_count] is one more. The call returns [None] on a ["[PASS]"]
    and on an error of the client, and only a cancellation leaves it as
    an exception. *)
Theorem step_leaves_agent_idle (now : py.datetime) (api : agent.ApiOutcome)
    (self : agent.Agent) (chat_context : string) :
  agent._client self = true ->
  agent.respond now api self chat_context = agent.step now api self chat_context
  /\ agent.status (agent.step now api self chat_context).1 = types.IDLE
  /\ match (agent.step now api self chat_context).2 with
     | py.Returned (Some text) =>
         text <> "[PASS]"
         /\ agent.last_spoke_at (agent.step now api self chat_context).1 = Some now
         /\ agent.message_count (agent.step now api self chat_context).1
            = agent.message_count self + 1
     | py.Returned None =>
         agent.last_spoke_at (agent.step now api self chat_context).1
         = agent.last_spoke_at self
         /\ agent.message_count (agent.step now api self chat_context).1
            = agent.message_count self
     | py.Raised e =>
         e = py.CancelledError
         /\ agent.last_spoke_at (agent.step now api self chat_context).1
            = agent.last_spoke_at self
         /\ agent.message_count (agent.step now api self chat_context).1
            = agent.message_count self
     end.
Proof.
  intros Hc. split; [reflexivity|]. unfold agent.step. rewrite Hc. simpl negb. cbv iota.
  split; [apply step_finally_status|].
  pose proof (step_body_counters now api (agent.with_status self types.THINKING)
                chat_context) as Hb.
  destruct (agent.step_body now api (agent.with_status self types.THINKING) chat_context)
    as [a [[text|]|e]] eqn:E; simpl in *.
  - exact Hb.
  - exact Hb.
  - destruct e; simpl; try exact Hb.
    split; [reflexivity | exact Hb].
Qed.

Lemma step_leaves_agent_idle_witness :
  agent._client (sample_agent "Alice" 0.5 types.IDLE None) = true
  /\ agent.status
       (agent.step 42 (agent.ApiResponse ["  Hello there  "])
          (sample_agent "Alice" 0.5 types.IDLE None) "ctx").1 = types.IDLE.
Proof.
  split; [reflexivity|].
  exact (proj1 (proj2 (step_leaves_agent_idle 42 (agent.ApiResponse ["  Hello there  "])
                         (sample_agent "Alice" 0.5 types.IDLE None) "ctx" eq_refl))).
Defined.

(** The three outcomes on a sample agent. *)
Example step_returns_text :
  (agent.step 42 (agent.ApiResponse ["  Hello there  "])
     (sample_agent "Alice" 0.5 types.IDLE None) "ctx").2
  = py.Returned (Some "Hello there").
Proof. reflexivity. Qed.

Example step_pass_returns_none :
  (agent.step 42 (agent.ApiResponse [" [PASS] "])
     (sample_agent "Alice" 0.5 types.IDLE None) "ctx").2
  = py.Returned None.
Proof. reflexivity. Qed.

Example step_api_error_returns_none :
  (agent.step 42 (agent.ApiRaises "overloaded")
     (sample_agent "Alice" 0.5 types.IDLE None) "ctx").2
  = py.Returned None.
Proof. reflexivity. Qed.

(** ** Speaker selection *)

Lemma insert_desc_elem {A : Type} (key : A -> float) (x y : A) (l : list A) :
  y ∈ py.insert_desc key x l -> y = x \/ y ∈ l.
Proof.
  induction l as [|z l IH]; simpl.
  - intros H. apply list_elem_of_singleton in H. left. exact H.
  - destruct (key x <? key z)%float.
    + intros H. apply elem_of_cons in H. destruct H as [->|H].
      * right. left.
      * destruct (IH H) as [->|H']; [left; reflexivity | right; right; exact H'].
    + intros H. apply elem_of_cons in H. exact H.
Qed.

Lemma sort_desc_elem {A : Type} (key : A -> float) (y : A) (l : list A) :
  y ∈ py.sort_desc key l -> y ∈ l.
Proof.
  unfold py.sort_desc. induction l as [|x l IH]; simpl; [trivial|].
  intros H. apply insert_desc_elem in H. destruct H as [->|H].
  - left.
  - right. apply IH, H.
Qed.

Lemma scan_candidates_idle (now : py.datetime) (rnd : py.RandomSource)
    (last_message : message.Message) (all_names : list string)
    (agents : list agent.Agent) (k : nat) (c : float * agent.Agent) :
  c ∈ world.scan_candidates now rnd last_message all_names agents k ->
  agent.status c.2 = types.IDLE
  /\ agent.id c.2 <> message.sender_id last_message
  /\ c.2 ∈ agents.
Proof.
  revert k. induction agents as [|a rest IH]; intros k; simpl.
  - intros H. inversion H.
  - destruct (bool_decide (agent.status a = types.IDLE)) eqn:Hs; simpl.
    + apply bool_decide_eq_true in Hs.
      destruct (decide (agent.id a = message.sender_id last_message)) as [Hid|Hid].
      * intros H. destruct (IH _ H) as (? & ? & ?). repeat split; try assumption.
        right. assumption.
      * destruct (py.draws rnd k <? _)%float.
        -- intros H. apply elem_of_cons in H. destruct H as [->|H].
           ++ simpl. repeat split; try assumption. left.
           ++ destruct (IH _ H) as (? & ? & ?). repeat split; try assumption.
              right. assumption.
        -- intros H. destruct (IH _ H) as (? & ? & ?). repeat split; try assumption.
           right. assumption.
    + intros H. destruct (IH _ H) as (? & ? & ?). repeat split; try assumption.
      right. assumption.
Qed.

Example sort_desc_stable :
  py.sort_desc fst [(0.5%float, 1%nat); (0.7%float, 2%nat); (0.5%float, 3%nat);
                    (0.9%float, 4%nat); (0.7%float, 5%nat)]
  = [(0.9%float, 4%nat); (0.7%float, 2%nat); (0.7%float, 5%nat);
     (0.5%float, 1%nat); (0.5%float, 3%nat)].
Proof. reflexivity. Qed.

(** On a log that is not empty, every selected speaker is a registered
    participant whose status is IDLE and who did not send the last
    message. *)
Lemma select_speakers_scored_idle (now : py.datetime) (rnd : py.RandomSource)
    (self : world.ArenaWorld) (ch : channel.Channel) (last_message : message.Message)
    (speakers : list agent.Agent) :
  world.channels self !! world.default_channel self = Some ch ->
  last (channel.get_recent_messages ch 1) = Some last_message ->
  world._select_speakers now rnd self = py.Returned speakers ->
  Forall (fun a => agent.status a = types.IDLE
                   /\ agent.id a <> message.sender_id last_message
                   /\ a ∈ registry.all (world.registry self)) speakers.
Proof.
  intros Hch Hlast. unfold world._select_speakers. rewrite Hch, Hlast.
  intros [= <-]. apply Forall_forall. intros a Ha.
  apply list_elem_of_fmap in Ha. destruct Ha as [c [-> Hc]].
  apply sort_desc_elem in Hc.
  eapply scan_candidates_idle, Hc.
Qed.

(** C2, on an empty log: the icebreaker is drawn from all registered
    participants with no test of their status. With one participant,
    registered and THINKING (or OFFLINE), and nothing in the log, the
    selection returns that participant. *)
Theorem select_speakers_icebreaker_not_idle :
  world._select_speakers 100 sample_random
    (sample_world [sample_agent "Alice" 0.5 types.THINKING None] [] true)
  = py.Returned [sample_agent "Alice" 0.5 types.THINKING None]
  /\ agent.status (sample_agent "Alice" 0.5 types.THINKING None) <> types.IDLE
  /\ world._select_speakers 100 sample_random
       (sample_world [sample_agent "Alice" 0.5 types.OFFLINE None] [] true)
     = py.Returned [sample_agent "Alice" 0.5 types.OFFLINE None]
  /\ agent.status (sample_agent "Alice" 0.5 types.OFFLINE None) <> types.IDLE.
Proof.
  split; [vm_compute; reflexivity|]. split; [discriminate|].
  split; [vm_compute; reflexivity | discriminate].
Qed.

(** ** Doubles: powers of two and dyadic values *)

Lemma bpow_pos (e : Z) : (0 < bpow e)%R.
Proof. apply powerRZ_lt. lra. Qed.

Lemma bpow_add (a b : Z) : bpow (a + b) = (bpow a * bpow b)%R.
Proof. apply powerRZ_add. lra. Qed.

Lemma bpow_IZR (k : Z) : 0 <= k -> bpow k = IZR (2 ^ k).
Proof.
  intros Hk. unfold bpow.
  rewrite <- (Z2Nat.id k Hk) at 1.
  rewrite <- pow_powerRZ, pow_IZR, Z2Nat.id by exact Hk. reflexivity.
Qed.

Lemma bpow_le (a b : Z) : a <= b -> (bpow a <= bpow b)%R.
Proof.
  intros H. replace b with (a + (b - a)) by lia.
  rewrite bpow_add, (bpow_IZR (b - a)) by lia.
  assert (H0 : 1 <= 2 ^ (b - a)).
  { assert (0 < 2 ^ (b - a)) by (apply Z.pow_pos_nonneg; lia). lia. }
  apply IZR_le in H0. pose proof (bpow_pos a). nra.
Qed.

Lemma bpow_lt (a b : Z) : a < b -> (bpow a < bpow b)%R.
Proof.
  intros H. replace b with (a + (b - a)) by lia.
  rewrite bpow_add, (bpow_IZR (b - a)) by lia.
  assert (H0 : 2 ^ 1 <= 2 ^ (b - a)) by (apply Z.pow_le_mono_r; lia).
  change (2 ^ 1) with 2 in H0. apply IZR_le in H0. pose proof (bpow_pos a). nra.
Qed.

Lemma bpow_lt_inv (a b : Z) : (bpow a < bpow b)%R -> a < b.
Proof.
  intros H. destruct (Z_lt_le_dec a b) as [|Hle]; [assumption|].
  apply bpow_le in Hle. lra.
Qed.

Lemma dyad_shift (m e k : Z) : 0 <= k -> dyad (m * 2 ^ k) e = dyad m (e + k).
Proof.
  intros Hk. unfold dyad. rewrite mult_IZR, bpow_add, (bpow_IZR k) by exact Hk. ring.
Qed.

Lemma dyad_le (m1 m2 e : Z) : m1 <= m2 -> (dyad m1 e <= dyad m2 e)%R.
Proof.
  intros H. unfold dyad. apply IZR_le in H. pose proof (bpow_pos e). nra.
Qed.

Lemma dyad_le_inv (m1 m2 e : Z) : (dyad m1 e <= dyad m2 e)%R -> m1 <= m2.
Proof.
  unfold dyad. intros H. apply le_IZR. pose proof (bpow_pos e). nra.
Qed.

Lemma dyad_lt (m1 m2 e : Z) : m1 < m2 -> (dyad m1 e < dyad m2 e)%R.
Proof.
  intros H. unfold dyad. apply IZR_lt in H. pose proof (bpow_pos e). nra.
Qed.

Lemma dyad_pow (k e : Z) : 0 <= k -> dyad (2 ^ k) e = bpow (k + e).
Proof. intros Hk. unfold dyad. rewrite bpow_add, (bpow_IZR k) by exact Hk. ring. Qed.

Lemma digits2_pos_bounds (p : positive) :
  2 ^ (Zpos (digits2_pos p) - 1) <= Zpos p < 2 ^ Zpos (digits2_pos p).
Proof.
  induction p as [p IH|p IH|]; simpl digits2_pos.
  - rewrite Pos2Z.inj_succ.
    replace (Z.succ (Zpos (digits2_pos p)) - 1) with (Z.succ (Zpos (digits2_pos p) - 1)) by lia.
    rewrite !Z.pow_succ_r by lia. lia.
  - rewrite Pos2Z.inj_succ.
    replace (Z.succ (Zpos (digits2_pos p)) - 1) with (Z.succ (Zpos (digits2_pos p) - 1)) by lia.
    rewrite !Z.pow_succ_r by lia. lia.
  - simpl. lia.
Qed.

Lemma bounded_facts (m : positive) (e : Z) :
  SpecFloat.bounded prec emax m e = true ->
  -1074 <= e <= 971 /\ Zpos m < 2 ^ 53 /\ (-1074 < e -> 2 ^ 52 <= Zpos m).
Proof.
  unfold SpecFloat.bounded, canonical_mantissa, fexp, SpecFloat.emin, prec, emax.
  intros H. apply andb_prop in H. destruct H as [Hc He].
  apply Z.eqb_eq in Hc. apply Z.leb_le in He.
  pose proof (digits2_pos_bounds m) as [Hlo Hhi].
  assert (Hd : Zpos (digits2_pos m) <= 53) by lia.
  split; [lia|]. split.
  - eapply Z.lt_le_trans; [exact Hhi|]. apply Z.pow_le_mono_r; lia.
  - intros Hgt. assert (Hd' : Zpos (digits2_pos m) = 53) by lia.
    rewrite Hd' in Hlo. exact Hlo.
Qed.

(** ** Doubles: the shifter and rounding to nearest even *)

Lemma div_pow2_succ (m j : Z) : 0 <= j -> m / 2 ^ (j + 1) = m / 2 ^ j / 2.
Proof.
  intros Hj. rewrite Z.pow_add_r, Z.pow_1_r by lia.
  rewrite Z.div_div by (try apply Z.pow_pos_nonneg; lia). reflexivity.
Qed.

Lemma mod_pow2_succ_ne (m j : Z) :
  0 <= j -> m mod 2 ^ j <> 0 \/ (m / 2 ^ j) mod 2 <> 0 -> m mod 2 ^ (j + 1) <> 0.
Proof.
  intros Hj H Hz.
  assert (Hp : 0 < 2 ^ j) by (apply Z.pow_pos_nonneg; lia).
  rewrite Z.pow_add_r, Z.pow_1_r in Hz by lia.
  rewrite Z.rem_mul_r in Hz by lia.
  pose proof (Z.mod_pos_bound m (2 ^ j) Hp).
  pose proof (Z.mod_pos_bound (m / 2 ^ j) 2 ltac:(lia)).
  destruct H as [H|H]; nia.
Qed.

Lemma shr_1_shifted (m j : Z) (mrs : shr_record) :
  0 <= m -> 0 <= j -> shifted m j mrs -> shifted m (j + 1) (shr_1 mrs).
Proof.
  intros Hm Hj [Hq Hloc].
  assert (Hp : 0 < 2 ^ j) by (apply Z.pow_pos_nonneg; lia).
  assert (Hq0 : 0 <= m / 2 ^ j) by (apply Z.div_pos; lia).
  destruct mrs as [q r s]. simpl in Hq, Hloc. subst q.
  unfold shifted. rewrite div_pow2_succ by exact Hj.
  destruct (m / 2 ^ j) as [|[p|p|]|p] eqn:E; simpl shr_1; simpl shr_m;
    simpl shr_r; simpl shr_s; try lia.
  - split; [reflexivity|]. intros H. apply mod_pow2_succ_ne; [exact Hj|].
    left. apply Hloc. destruct r, s; simpl in *; congruence.
  - split; [rewrite Pos2Z.inj_xI; apply Z.div_unique with 1; lia|].
    intros _. apply mod_pow2_succ_ne; [exact Hj|]. right. rewrite E.
    rewrite Pos2Z.inj_xI. rewrite Z.add_comm, Z.mul_comm, Z.mod_add by lia.
    discriminate.
  - split; [rewrite Pos2Z.inj_xO; apply Z.div_unique with 0; lia|].
    intros H. apply mod_pow2_succ_ne; [exact Hj|].
    left. apply Hloc. destruct r, s; simpl in *; congruence.
  - split; [reflexivity|].
    intros _. apply mod_pow2_succ_ne; [exact Hj|]. right. rewrite E. discriminate.
Qed.

Lemma iter_shr_1_shifted (m : Z) (p : positive) :
  0 <= m ->
  forall j mrs, 0 <= j -> shifted m j mrs ->
  shifted m (j + Zpos p) (SpecFloat.iter_pos shr_1 p mrs).
Proof.
  intros Hm. induction p as [p IH|p IH|]; intros j mrs Hj H; simpl SpecFloat.iter_pos.
  - replace (j + Zpos p~1) with (j + 1 + Zpos p + Zpos p) by lia.
    apply IH; [lia|]. apply IH; [lia|]. apply shr_1_shifted; assumption.
  - replace (j + Zpos p~0) with (j + Zpos p + Zpos p) by lia.
    apply IH; [lia|]. apply IH; assumption.
  - apply shr_1_shifted; assumption.
Qed.

(** [shr] from an exact location: no shift, or the quotient by [2^n]
    with an inexact location only when the division leaves a rest. *)
Lemma shr_exact_spec (m e n : Z) :
  0 <= m ->
  let mrs := fst (shr {| shr_m := m; shr_r := false; shr_s := false |} e n) in
  let e' := snd (shr {| shr_m := m; shr_r := false; shr_s := false |} e n) in
  (n <= 0 /\ shr_m mrs = m /\ loc_of_shr_record mrs = loc_Exact /\ e' = e)
  \/ (0 < n /\ shr_m mrs = m / 2 ^ n /\ e' = e + n
      /\ (loc_of_shr_record mrs <> loc_Exact -> m mod 2 ^ n <> 0)).
Proof.
  intros Hm. destruct n as [|p|p]; simpl.
  - left. repeat split; lia.
  - right. split; [lia|].
    pose proof (iter_shr_1_shifted m p Hm 0
                  {| shr_m := m; shr_r := false; shr_s := false |}
                  ltac:(lia)) as H.
    destruct H as [Hq Hloc].
    { split; simpl; [rewrite Z.div_1_r; reflexivity | discriminate]. }
    rewrite Z.add_0_l in Hq, Hloc.
    split; [exact Hq|]. split; [reflexivity|].
    intros Hne. apply Hloc.
    destruct (SpecFloat.iter_pos shr_1 p _) as [q [] []]; simpl in *; congruence.
  - left. repeat split; lia.
Qed.

Lemma round_nearest_even_cases (q : Z) (l : location) :
  round_nearest_even q l = q
  \/ (round_nearest_even q l = q + 1 /\ l <> loc_Exact).
Proof.
  destruct l as [|[]]; simpl; try (left; reflexivity);
    try (right; split; [reflexivity | discriminate]).
  destruct (Z.even q); [left; reflexivity | right; split; [reflexivity | discriminate]].
Qed.

Lemma round_up_below (m n k : Z) :
  0 < n -> 0 <= m -> m mod 2 ^ n <> 0 -> m <= k * 2 ^ n -> m / 2 ^ n + 1 <= k.
Proof.
  intros Hn Hm Hrest Hle.
  assert (Hp : 0 < 2 ^ n) by (apply Z.pow_pos_nonneg; lia).
  pose proof (Z.div_mod m (2 ^ n) ltac:(lia)) as Hdm.
  pose proof (Z.mod_pos_bound m (2 ^ n) Hp) as Hb.
  nia.
Qed.

Section RoundBelow.

Variables (mB : positive) (eB : Z).
Hypothesis HB : SpecFloat.bounded prec emax mB eB = true.

Lemma bound_lt_bpow : (dyad (Zpos mB) eB < bpow (53 + eB))%R.
Proof.
  destruct (bounded_facts mB eB HB) as (_ & Hm & _).
  rewrite <- dyad_pow by lia. apply dyad_lt, Hm.
Qed.

Lemma bound_pos : (0 < dyad (Zpos mB) eB)%R.
Proof.
  unfold dyad. pose proof (bpow_pos eB).
  assert (0 < IZR (Zpos mB))%R by (apply IZR_lt; lia). nra.
Qed.

Lemma first_round_below (m : positive) (e : Z) :
  (dyad (Zpos m) e <= dyad (Zpos mB) eB)%R ->
  0 <= round_nearest_even
         (shr_m (fst (shr_fexp prec emax (Zpos m) e loc_Exact)))
         (loc_of_shr_record (fst (shr_fexp prec emax (Zpos m) e loc_Exact)))
  /\ (dyad (round_nearest_even
              (shr_m (fst (shr_fexp prec emax (Zpos m) e loc_Exact)))
              (loc_of_shr_record (fst (shr_fexp prec emax (Zpos m) e loc_Exact))))
           (snd (shr_fexp prec emax (Zpos m) e loc_Exact))
      <= dyad (Zpos mB) eB)%R.
Proof.
  intros Hle. unfold shr_fexp. simpl shr_record_of_loc. simpl Zdigits2.
  set (d := Zpos (digits2_pos m)).
  set (n := fexp prec emax (d + e) - e).
  destruct (shr_exact_spec (Zpos m) e n ltac:(lia))
    as [(Hn & Hq & Hloc & He)|(Hn & Hq & He & Hloc)].
  - rewrite Hq, Hloc, He. simpl. split; [lia | exact Hle].
  - rewrite Hq, He.
    assert (Hp : 0 < 2 ^ n) by (apply Z.pow_pos_nonneg; lia).
    assert (Hq0 : 0 <= Zpos m / 2 ^ n) by (apply Z.div_pos; lia).
    destruct (round_nearest_even_cases (Zpos m / 2 ^ n)
                (loc_of_shr_record
                   (fst (shr {| shr_m := Zpos m; shr_r := false; shr_s := false |} e n))))
      as [Hr|[Hr Hinexact]]; rewrite Hr.
    + split; [exact Hq0|].
      rewrite <- dyad_shift by lia.
      eapply Rle_trans; [|exact Hle]. apply dyad_le.
      rewrite Z.mul_comm. apply Z.mul_div_le. exact Hp.
    + split; [lia|]. specialize (Hloc Hinexact).
      destruct (Z_le_gt_dec (e + n) eB) as [Hcase|Hcase].
      * set (k := Zpos mB * 2 ^ (eB - (e + n))).
        assert (HBk : dyad (Zpos mB) eB = dyad k (e + n)).
        { unfold k. rewrite dyad_shift by lia. f_equal. lia. }
        rewrite HBk. apply dyad_le.
        apply round_up_below; [lia | lia | exact Hloc |].
        apply (dyad_le_inv _ _ e). rewrite dyad_shift by lia.
        rewrite <- HBk. exact Hle.
      * exfalso.
        destruct (bounded_facts mB eB HB) as (HeB & _ & _).
        assert (Hn' : e + n = d + e - 53).
        { unfold n, fexp, SpecFloat.emin, prec, emax in *. lia. }
        pose proof (digits2_pos_bounds m) as [Hlo _]. fold d in Hlo.
        assert (H1 : (bpow (d - 1 + e) <= dyad (Zpos m) e)%R).
        { rewrite <- dyad_pow by (unfold d; lia). apply dyad_le, Hlo. }
        pose proof bound_lt_bpow as H2.
        assert (H3 : (bpow (53 + eB) <= bpow (d - 1 + e))%R) by (apply bpow_le; lia).
        lra.
Qed.

Lemma second_shift_below (r e1 : Z) :
  0 <= r ->
  0 <= shr_m (fst (shr_fexp prec emax r e1 loc_Exact))
  /\ (dyad (shr_m (fst (shr_fexp prec emax r e1 loc_Exact)))
           (snd (shr_fexp prec emax r e1 loc_Exact))
      <= dyad r e1)%R.
Proof.
  intros Hr. unfold shr_fexp. simpl shr_record_of_loc.
  set (n := fexp prec emax (Zdigits2 r + e1) - e1).
  destruct (shr_exact_spec r e1 n Hr)
    as [(Hn & Hq & Hloc & He)|(Hn & Hq & He & Hloc)]; rewrite Hq, He.
  - split; [exact Hr | lra].
  - assert (Hp : 0 < 2 ^ n) by (apply Z.pow_pos_nonneg; lia).
    split; [apply Z.div_pos; lia|].
    rewrite <- dyad_shift by lia. apply dyad_le.
    rewrite Z.mul_comm. apply Z.mul_div_le. exact Hp.
Qed.

(** Rounding a positive dyadic number that lies below a double gives a
    double that lies below it too. *)
Lemma binary_round_aux_below (m : positive) (e : Z) :
  eB <= 918 ->
  (dyad (Zpos m) e <= dyad (Zpos mB) eB)%R ->
  nonneg_finite (binary_round_aux prec emax false (Zpos m) e loc_Exact)
  /\ (SF2R (binary_round_aux prec emax false (Zpos m) e loc_Exact)
      <= dyad (Zpos mB) eB)%R.
Proof.
  intros HeB Hle. unfold binary_round_aux.
  pose proof (first_round_below m e Hle) as [Hr0 Hr].
  destruct (shr_fexp prec emax (Zpos m) e loc_Exact) as [mrs' e'].
  simpl fst in Hr0, Hr. simpl snd in Hr.
  set (r := round_nearest_even (shr_m mrs') (loc_of_shr_record mrs')) in *.
  pose proof (second_shift_below r e' Hr0) as [Hq0 Hq].
  destruct (shr_fexp prec emax r e' loc_Exact) as [mrs'' e''].
  simpl fst in Hq0, Hq. simpl snd in Hq.
  destruct (shr_m mrs'') as [|q|q].
  - simpl. split; [exact I|]. pose proof bound_pos. lra.
  - assert (He'' : e'' <= emax - prec).
    { assert (H1 : (bpow e'' <= dyad (Zpos q) e'')%R).
      { rewrite <- (Z.add_0_l e'') at 1. rewrite <- dyad_pow by lia.
        apply dyad_le. simpl. lia. }
      pose proof bound_lt_bpow as H2.
      assert (H3 : e'' < 53 + eB) by (apply bpow_lt_inv; lra).
      unfold emax, prec. lia. }
    apply Z.leb_le in He''. rewrite He''. simpl. split; [exact I | lra].
  - lia.
Qed.

End RoundBelow.

(** ** Doubles: products, sums and comparisons *)

Lemma iter_xO_val (m d : positive) : Zpos (Pos.iter xO m d) = Zpos m * 2 ^ Zpos d.
Proof.
  induction d as [|d IH] using Pos.peano_ind.
  - simpl. lia.
  - rewrite Pos.iter_succ, Pos2Z.inj_xO, IH, Pos2Z.inj_succ, Z.pow_succ_r by lia. ring.
Qed.

Lemma shl_align_val (mx : positive) (ex ex' : Z) :
  dyad (Zpos (fst (shl_align mx ex ex'))) (snd (shl_align mx ex ex')) = dyad (Zpos mx) ex.
Proof.
  unfold shl_align. destruct (ex' - ex) as [|d|d] eqn:E; simpl; try reflexivity.
  rewrite iter_xO_val, dyad_shift by lia. f_equal. lia.
Qed.

Lemma shl_align_fst_val (mx : positive) (ex ez : Z) :
  ez <= ex -> dyad (Zpos (fst (shl_align mx ex ez))) ez = dyad (Zpos mx) ex.
Proof.
  intros Hle. pose proof (shl_align_val mx ex ez) as H.
  unfold shl_align in *. destruct (ez - ex) as [|d|d] eqn:E; simpl in *.
  - replace ez with ex by lia. reflexivity.
  - lia.
  - exact H.
Qed.

Lemma SF2R_nonneg (x : spec_float) : nonneg_finite x -> (0 <= SF2R x)%R.
Proof.
  destruct x as [s|s| |[] m e]; simpl; try lra; try contradiction.
  intros _. unfold dyad. pose proof (bpow_pos e).
  assert (0 < IZR (Zpos m))%R by (apply IZR_lt; lia). nra.
Qed.

Section Below.

Variables (mB : positive) (eB : Z).
Hypothesis HB : SpecFloat.bounded prec emax mB eB = true.
Hypothesis HeB : eB <= 918.

Lemma SFmul_below (x y : spec_float) :
  nonneg_finite x -> nonneg_finite y ->
  (SF2R x * SF2R y <= dyad (Zpos mB) eB)%R ->
  nonneg_finite (SFmul prec emax x y)
  /\ (SF2R (SFmul prec emax x y) <= dyad (Zpos mB) eB)%R.
Proof.
  pose proof (bound_pos mB eB) as HBpos.
  destruct x as [sx|sx| |[] mx ex]; try contradiction;
    destruct y as [sy|sy| |[] my ey]; try contradiction; intros _ _ Hle;
    try (simpl; split; [exact I | lra]).
  unfold SFmul. simpl xorb.
  apply (binary_round_aux_below mB eB HB (mx * my) (ex + ey) HeB).
  simpl in Hle. unfold dyad in *. rewrite Pos2Z.inj_mul, mult_IZR, bpow_add. lra.
Qed.

Lemma SFadd_below (x y : spec_float) :
  nonneg_finite x -> nonneg_finite y ->
  (SF2R x + SF2R y <= dyad (Zpos mB) eB)%R ->
  nonneg_finite (SFadd prec emax x y)
  /\ (SF2R (SFadd prec emax x y) <= dyad (Zpos mB) eB)%R.
Proof.
  pose proof (bound_pos mB eB) as HBpos.
  destruct x as [sx|sx| |[] mx ex]; try contradiction;
    destruct y as [sy|sy| |[] my ey]; try contradiction; intros _ _ Hle.
  - destruct sx, sy; simpl; split; (exact I || lra).
  - simpl in *. split; [exact I | lra].
  - simpl in *. split; [exact I | lra].
  - unfold SFadd. simpl cond_Zopp.
    set (ez := Z.min ex ey).
    set (a := fst (shl_align mx ex ez)). set (b := fst (shl_align my ey ez)).
    change (Zpos a + Zpos b) with (Zpos (a + b)).
    unfold binary_normalize, binary_round.
    pose proof (shl_align_val (a + b) ez
                  (fexp prec emax (Zpos (digits2_pos (a + b)) + ez))) as Hv.
    destruct (shl_align (a + b) ez _) as [mz ez']. simpl fst in Hv. simpl snd in Hv.
    apply (binary_round_aux_below mB eB HB mz ez' HeB).
    rewrite Hv. simpl in Hle.
    assert (Ha : dyad (Zpos a) ez = dyad (Zpos mx) ex)
      by (apply shl_align_fst_val; unfold ez; lia).
    assert (Hb : dyad (Zpos b) ez = dyad (Zpos my) ey)
      by (apply shl_align_fst_val; unfold ez; lia).
    unfold dyad in *. rewrite Pos2Z.inj_add, plus_IZR. lra.
Qed.

End Below.

(** The order of two valid doubles that are zero or positive is the
    order of their values. *)
Lemma exponent_lt_value (m1 m2 : positive) (e1 e2 : Z) :
  SpecFloat.bounded prec emax m1 e1 = true ->
  SpecFloat.bounded prec emax m2 e2 = true ->
  e1 < e2 -> (dyad (Zpos m1) e1 < dyad (Zpos m2) e2)%R.
Proof.
  intros H1 H2 Hlt.
  destruct (bounded_facts m1 e1 H1) as (He1 & _ & _).
  destruct (bounded_facts m2 e2 H2) as (_ & _ & Hm2).
  pose proof (bound_lt_bpow m1 e1 H1) as Hup.
  assert (Hlo : (bpow (52 + e2) <= dyad (Zpos m2) e2)%R).
  { rewrite <- dyad_pow by lia. apply dyad_le, Hm2. lia. }
  assert (Hmid : (bpow (53 + e1) <= bpow (52 + e2))%R) by (apply bpow_le; lia).
  lra.
Qed.

Lemma SFcompare_nonneg (x y : spec_float) :
  valid_binary x = true -> valid_binary y = true ->
  nonneg_finite x -> nonneg_finite y ->
  match SFcompare x y with
  | Some Lt => (SF2R x < SF2R y)%R
  | Some Eq => SF2R x = SF2R y
  | Some Gt => (SF2R y < SF2R x)%R
  | None => False
  end.
Proof.
  destruct x as [sx|sx| |[] mx ex]; try contradiction;
    destruct y as [sy|sy| |[] my ey]; try contradiction; intros Hx Hy _ _; simpl.
  - reflexivity.
  - apply (bound_pos my ey).
  - apply (bound_pos mx ex).
  - simpl in Hx, Hy. destruct (Z.compare_spec ex ey) as [->|Hlt|Hgt].
    + fold (Pos.compare mx my). destruct (Pos.compare_spec mx my) as [->|Hm|Hm].
      * reflexivity.
      * apply dyad_lt. lia.
      * apply dyad_lt. lia.
    + apply exponent_lt_value; assumption.
    + apply exponent_lt_value; assumption.
Qed.

(** ** Primitive doubles *)

Lemma leb_F2R (x y : float) :
  fin_nonneg x -> fin_nonneg y -> ((x <=? y)%float = true <-> (F2R x <= F2R y)%R).
Proof.
  intros Hx Hy. rewrite leb_spec. unfold SFleb, F2R.
  pose proof (SFcompare_nonneg _ _ (Prim2SF_valid x) (Prim2SF_valid y) Hx Hy) as H.
  destruct (SFcompare (Prim2SF x) (Prim2SF y)) as [[]|];
    split; intros; try lra; try discriminate; try reflexivity; contradiction.
Qed.

Lemma ltb_F2R (x y : float) :
  fin_nonneg x -> fin_nonneg y -> ((x <? y)%float = true <-> (F2R x < F2R y)%R).
Proof.
  intros Hx Hy. rewrite ltb_spec. unfold SFltb, F2R.
  pose proof (SFcompare_nonneg _ _ (Prim2SF_valid x) (Prim2SF_valid y) Hx Hy) as H.
  destruct (SFcompare (Prim2SF x) (Prim2SF y)) as [[]|];
    split; intros; try lra; try discriminate; try reflexivity; contradiction.
Qed.

Lemma double_ltb_leb (x y : float) : (x <? y)%float = true -> (x <=? y)%float = true.
Proof.
  rewrite ltb_spec, leb_spec. unfold SFltb, SFleb.
  destruct (SFcompare _ _) as [[]|]; congruence.
Qed.

Lemma zero_leb_fin_nonneg (x : float) : fin_nonneg x -> (0 <=? x)%float = true.
Proof.
  unfold fin_nonneg. rewrite leb_spec. unfold SFleb.
  change (Prim2SF 0) with (S754_zero false).
  destruct (Prim2SF x) as [s|s| |[] m e]; simpl; try contradiction; reflexivity.
Qed.

Lemma unit_interval (t : float) :
  (0 <=? t)%float = true -> (t <=? 1)%float = true ->
  fin_nonneg t /\ (0 <= F2R t <= 1)%R.
Proof.
  intros H0 H1.
  assert (Hone : Prim2SF 1 = S754_finite false 4503599627370496 (-52)) by reflexivity.
  assert (Hfin : fin_nonneg t).
  { unfold fin_nonneg. rewrite leb_spec in H0, H1. unfold SFleb in H0, H1.
    change (Prim2SF 0) with (S754_zero false) in H0. rewrite Hone in H1.
    destruct (Prim2SF t) as [s|[]| |[] m e]; try exact I;
      simpl in H0; try discriminate; simpl in H1; discriminate. }
  split; [exact Hfin|]. split; [apply SF2R_nonneg, Hfin|].
  assert (Hfin1 : fin_nonneg 1) by (unfold fin_nonneg; rewrite Hone; exact I).
  apply (leb_F2R t 1 Hfin Hfin1) in H1.
  assert (Hv : F2R 1 = 1%R).
  { unfold F2R. rewrite Hone. simpl. unfold dyad.
    change (-52) with (- (52)). unfold bpow. rewrite powerRZ_neg'.
    fold (bpow 52). rewrite bpow_IZR by lia.
    change (2 ^ 52) with 4503599627370496. field. }
  lra.
Qed.

Lemma mul_below (B x y : float) (mB : positive) (eB : Z) :
  Prim2SF B = S754_finite false mB eB -> eB <= 918 ->
  fin_nonneg x -> fin_nonneg y ->
  (F2R x * F2R y <= F2R B)%R ->
  fin_nonneg (x * y) /\ (F2R (x * y) <= F2R B)%R.
Proof.
  intros HB HeB Hx Hy Hle. unfold fin_nonneg, F2R in *. rewrite mul_spec.
  pose proof (Prim2SF_valid B) as Hv. rewrite HB in *. 
  apply (SFmul_below mB eB Hv HeB); assumption.
Qed.

Lemma add_below (B x y : float) (mB : positive) (eB : Z) :
  Prim2SF B = S754_finite false mB eB -> eB <= 918 ->
  fin_nonneg x -> fin_nonneg y ->
  (F2R x + F2R y <= F2R B)%R ->
  fin_nonneg (x + y) /\ (F2R (x + y) <= F2R B)%R.
Proof.
  intros HB HeB Hx Hy Hle. unfold fin_nonneg, F2R in *. rewrite add_spec.
  pose proof (Prim2SF_valid B) as Hv. rewrite HB in *.
  apply (SFadd_below mB eB Hv HeB); assumption.
Qed.

Lemma SFmul_comm (x y : spec_float) : SFmul prec emax x y = SFmul prec emax y x.
Proof.
  destruct x as [sx|sx| |sx mx ex], y as [sy|sy| |sy my ey]; simpl;
    try reflexivity; try (rewrite Bool.xorb_comm; reflexivity).
  rewrite Bool.xorb_comm, Pos.mul_comm, Z.add_comm. reflexivity.
Qed.

Lemma double_mul_comm (x y : float) : (x * y)%float = (y * x)%float.
Proof. apply Prim2SF_inj. rewrite !mul_spec. apply SFmul_comm. Qed.

Lemma dyad_neg_exp (m k : Z) : 0 <= k -> dyad m (- k) = (IZR m / IZR (2 ^ k))%R.
Proof.
  intros Hk. unfold dyad, bpow. rewrite powerRZ_neg'. fold (bpow k).
  rewrite bpow_IZR by exact Hk. reflexivity.
Qed.

(** ** The score of a participant *)

Lemma F2R_finite (c : float) (m k : positive) :
  Prim2SF c = S754_finite false m (Zneg k) ->
  fin_nonneg c /\ F2R c = (IZR (Zpos m) / IZR (2 ^ Zpos k))%R.
Proof.
  intros H. unfold fin_nonneg, F2R. rewrite H. split; [exact I|].
  simpl SF2R. change (Zneg k) with (- Zpos k). apply dyad_neg_exp. lia.
Qed.

Lemma const_0_3 : fin_nonneg 0.3 /\ F2R 0.3 = (5404319552844595 / 18014398509481984)%R.
Proof. exact (F2R_finite 0.3 5404319552844595 54 eq_refl). Qed.
Lemma const_0_6 : fin_nonneg 0.6 /\ F2R 0.6 = (5404319552844595 / 9007199254740992)%R.
Proof. exact (F2R_finite 0.6 5404319552844595 53 eq_refl). Qed.
Lemma const_0_15 : fin_nonneg 0.15 /\ F2R 0.15 = (5404319552844595 / 36028797018963968)%R.
Proof. exact (F2R_finite 0.15 5404319552844595 55 eq_refl). Qed.
Lemma const_0_1 : fin_nonneg 0.1 /\ F2R 0.1 = (7205759403792794 / 72057594037927936)%R.
Proof. exact (F2R_finite 0.1 7205759403792794 56 eq_refl). Qed.
Lemma const_0_8 : fin_nonneg 0.8 /\ F2R 0.8 = (7205759403792794 / 9007199254740992)%R.
Proof. exact (F2R_finite 0.8 7205759403792794 53 eq_refl). Qed.
Lemma const_0_95 : fin_nonneg 0.95 /\ F2R 0.95 = (8556839292003942 / 9007199254740992)%R.
Proof. exact (F2R_finite 0.95 8556839292003942 53 eq_refl). Qed.
Lemma const_0_5 : fin_nonneg 0.5 /\ F2R 0.5 = (4503599627370496 / 9007199254740992)%R.
Proof. exact (F2R_finite 0.5 4503599627370496 53 eq_refl). Qed.
Lemma const_0_75 : fin_nonneg 0.75 /\ F2R 0.75 = (6755399441055744 / 9007199254740992)%R.
Proof. exact (F2R_finite 0.75 6755399441055744 53 eq_refl). Qed.
Lemma const_1 : fin_nonneg 1 /\ F2R 1 = (4503599627370496 / 4503599627370496)%R.
Proof. exact (F2R_finite 1 4503599627370496 52 eq_refl). Qed.

Lemma at_most_weaken (x : float) (q q' : R) : at_most x q -> (q <= q')%R -> at_most x q'.
Proof. intros [H1 H2] Hq. split; [exact H1 | lra]. Qed.

Lemma scale_by_0_3 (t : float) : at_most t 1 -> at_most (t * 0.3) (3 / 10).
Proof.
  intros [Ht Hle]. destruct const_0_3 as [Hc Hv].
  pose proof (SF2R_nonneg _ Ht) as Ht0. fold (F2R t) in Ht0.
  destruct (mul_below 0.3 t 0.3 5404319552844595 (-54) eq_refl ltac:(lia) Ht Hc)
    as [Hf Hb]; [rewrite Hv; nra|].
  split; [exact Hf | rewrite Hv in Hb; lra].
Qed.

Lemma add_0_6 (b : float) : at_most b (3 / 10) -> at_most (b + 0.6) 1.
Proof.
  intros [Hb Hle]. destruct const_0_6 as [Hc Hv]. destruct const_1 as [_ H1].
  destruct (add_below 1 b 0.6 4503599627370496 (-52) eq_refl ltac:(lia) Hb Hc)
    as [Hf Hs]; [rewrite Hv, H1; lra|].
  split; [exact Hf | rewrite H1 in Hs; lra].
Qed.

Lemma add_0_15 (b : float) : at_most b (3 / 10) -> at_most (b + 0.15) (1 / 2).
Proof.
  intros [Hb Hle]. destruct const_0_15 as [Hc Hv]. destruct const_0_5 as [_ H1].
  destruct (add_below 0.5 b 0.15 4503599627370496 (-53) eq_refl ltac:(lia) Hb Hc)
    as [Hf Hs]; [rewrite Hv, H1; lra|].
  split; [exact Hf | rewrite H1 in Hs; lra].
Qed.

Lemma add_0_1 (b : float) : at_most b (1 / 2) -> at_most (b + 0.1) (3 / 4).
Proof.
  intros [Hb Hle]. destruct const_0_1 as [Hc Hv]. destruct const_0_75 as [_ H1].
  destruct (add_below 0.75 b 0.1 6755399441055744 (-53) eq_refl ltac:(lia) Hb Hc)
    as [Hf Hs]; [rewrite Hv, H1; lra|].
  split; [exact Hf | rewrite H1 in Hs; lra].
Qed.

Lemma damp_by_0_3 (b : float) : at_most b (3 / 4) -> at_most (b * 0.3) (3 / 4).
Proof.
  intros [Hb Hle]. destruct const_0_3 as [Hc Hv]. destruct const_0_75 as [_ H1].
  pose proof (SF2R_nonneg _ Hb) as Hb0. fold (F2R b) in Hb0.
  destruct (mul_below 0.75 b 0.3 6755399441055744 (-53) eq_refl ltac:(lia) Hb Hc)
    as [Hf Hs]; [rewrite Hv, H1; nra|].
  split; [exact Hf | rewrite H1 in Hs; lra].
Qed.

Lemma damp_by_0_6 (b : float) : at_most b (3 / 4) -> at_most (b * 0.6) (3 / 4).
Proof.
  intros [Hb Hle]. destruct const_0_6 as [Hc Hv]. destruct const_0_75 as [_ H1].
  pose proof (SF2R_nonneg _ Hb) as Hb0. fold (F2R b) in Hb0.
  destruct (mul_below 0.75 b 0.6 6755399441055744 (-53) eq_refl ltac:(lia) Hb Hc)
    as [Hf Hs]; [rewrite Hv, H1; nra|].
  split; [exact Hf | rewrite H1 in Hs; lra].
Qed.

Lemma min_0_8_small (b : float) : at_most b (3 / 4) -> py.min 0.8 b = b.
Proof.
  intros [Hb Hle]. unfold py.min. destruct const_0_8 as [Hc Hv].
  assert (H : (b <? 0.8)%float = true) by (apply ltb_F2R; [assumption..|rewrite Hv; lra]).
  rewrite H. reflexivity.
Qed.

Lemma should_respond_unmentioned (now : py.datetime) (self : agent.Agent)
    (m : message.Message) (names : list string) :
  agent.mentioned self m = false ->
  agent.should_respond now self m names = py.min 0.8 (unmentioned_base now self m).
Proof. intros H. unfold agent.should_respond. rewrite H. reflexivity. Qed.

(** With a tendency in [[0, 1]] the score before the final [min] is at
    most [3/4], on every path through the boosts and the damping. *)
Lemma unmentioned_base_small (now : py.datetime) (self : agent.Agent)
    (m : message.Message) :
  at_most (agent.response_tendency self) 1 ->
  at_most (unmentioned_base now self m) (3 / 4).
Proof.
  intros Ht. unfold unmentioned_base.
  pose proof (scale_by_0_3 _ Ht) as H0.
  set (b0 := (agent.response_tendency self * 0.3)%float) in *.
  assert (H1 : at_most (if py.contains "?" (message.content m)
                        then (b0 + 0.15)%float else b0) (1 / 2)).
  { destruct (py.contains _ _); [apply add_0_15, H0 | eapply at_most_weaken; [exact H0|lra]]. }
  set (b1 := if py.contains "?" (message.content m) then (b0 + 0.15)%float else b0) in *.
  assert (H2 : at_most (if existsb (fun interest =>
                                      py.contains (py.lower interest)
                                        (py.lower (message.content m)))
                             (agent.interests self)
                        then (b1 + 0.1)%float else b1) (3 / 4)).
  { destruct (existsb _ _); [apply add_0_1, H1 | eapply at_most_weaken; [exact H1|lra]]. }
  set (b2 := if existsb _ _ then (b1 + 0.1)%float else b1) in *.
  destruct (agent.last_spoke_at self) as [t|]; [|exact H2].
  destruct (py.seconds_ago_lt now t 10); [apply damp_by_0_3, H2|].
  destruct (py.seconds_ago_lt now t 30); [apply damp_by_0_6, H2 | exact H2].
Qed.

Lemma tendency_in_unit (t : float) :
  (0 <=? t)%float = true -> (t <=? 1)%float = true -> at_most t 1.
Proof. intros H0 H1. destruct (unit_interval t H0 H1) as [Hf [_ Hle]]. split; assumption. Qed.

(** C8, as the code has it: take a participant with [response_tendency]
    in [[0, 1]] (the range of the data model, which the code does not
    enforce) whose name is not among the mentions of the message. With
    [last_spoke_at] five seconds before the time of scoring,
    [should_respond] returns [0.3] times, in double precision, what it
    returns for the same participant and message with no
    [last_spoke_at]. *)
Theorem recency_suppression (now t0 : py.datetime) (self : agent.Agent)
    (m : message.Message) (names : list string) :
  (0 <=? agent.response_tendency self)%float = true ->
  (agent.response_tendency self <=? 1)%float = true ->
  agent.mentioned self m = false ->
  now - t0 = 5 * 1000000 ->
  agent.should_respond now (with_last_spoke_at self (Some t0)) m names
  = (0.3 * agent.should_respond now (with_last_spoke_at self None) m names)%float.
Proof.
  intros H0 H1 Hm Hago.
  pose proof (tendency_in_unit _ H0 H1) as Ht.
  rewrite !should_respond_unmentioned by exact Hm.
  rewrite !min_0_8_small by (apply unmentioned_base_small; exact Ht).
  unfold unmentioned_base. simpl agent.last_spoke_at.
  unfold py.seconds_ago_lt. rewrite Hago. simpl Z.ltb. cbv iota.
  apply double_mul_comm.
Qed.

Lemma recency_suppression_witness :
  agent.should_respond 105000000
    (with_last_spoke_at (sample_agent "Alice" 0.5 types.IDLE None) (Some 100000000))
    (sample_message "any news?" "general") ["Alice"]
  = PrimFloat.mul 0.3
      (agent.should_respond 105000000
         (with_last_spoke_at (sample_agent "Alice" 0.5 types.IDLE None) None)
         (sample_message "any news?" "general") ["Alice"]).
Proof.
  apply (recency_suppression 105000000 100000000 (sample_agent "Alice" 0.5 types.IDLE None)
           (sample_message "any news?" "general") ["Alice"]);
    reflexivity.
Defined.

(** C8, as stated, fails: a participant with [response_tendency = 3.0]
    that the message does not mention and that spoke five seconds
    before scoring. With no [last_spoke_at] the score [3.0 * 0.3] is
    capped at [0.8]; with it the score is [3.0 * 0.3 * 0.3], the double
    [0.26999999999999996], below the cap, and that is not
    [0.3 * 0.8]. *)
Example recency_suppression_outside_range :
  agent.mentioned (sample_agent "Alice" 3 types.IDLE None)
    (sample_message "any news" "general") = false
  /\ 105000000 - 100000000 = 5 * 1000000
  /\ agent.should_respond 105000000
       (with_last_spoke_at (sample_agent "Alice" 3 types.IDLE None) None)
       (sample_message "any news" "general") ["Alice"]
     = 0.8%float
  /\ agent.should_respond 105000000
       (with_last_spoke_at (sample_agent "Alice" 3 types.IDLE None) (Some 100000000))
       (sample_message "any news" "general") ["Alice"]
     = 0.26999999999999996%float
  /\ agent.should_respond 105000000
       (with_last_spoke_at (sample_agent "Alice" 3 types.IDLE None) (Some 100000000))
       (sample_message "any news" "general") ["Alice"]
     <> PrimFloat.mul 0.3
          (agent.should_respond 105000000
             (with_last_spoke_at (sample_agent "Alice" 3 types.IDLE None) None)
             (sample_message "any news" "general") ["Alice"]).
Proof.
  split; [reflexivity|]. split; [reflexivity|].
  split; [vm_compute; reflexivity|]. split; [vm_compute; reflexivity|].
  vm_compute. intros H.
  assert (Hb : PrimFloat.eqb 0.26999999999999996 0.24 = true) by (rewrite H; reflexivity).
  vm_compute in Hb. discriminate.
Qed.

(** C4, as the code has it: for a participant with [response_tendency]
    in [[0, 1]] and any message, [should_respond] returns a double in
    [[0, 0.95]]; it is in [[0, 0.8]] when the participant is not among
    the mentions of the message. *)
Theorem should_respond_range (now : py.datetime) (self : agent.Agent)
    (m : message.Message) (names : list string) :
  (0 <=? agent.response_tendency self)%float = true ->
  (agent.response_tendency self <=? 1)%float = true ->
  (0 <=? agent.should_respond now self m names)%float = true
  /\ (agent.should_respond now self m names <=? 0.95)%float = true
  /\ (agent.mentioned self m = false ->
      (agent.should_respond now self m names <=? 0.8)%float = true).
Proof.
  intros H0 H1. pose proof (tendency_in_unit _ H0 H1) as Ht.
  destruct (agent.mentioned self m) eqn:Hm.
  - unfold agent.should_respond. rewrite Hm.
    pose proof (add_0_6 _ (scale_by_0_3 _ Ht)) as [Hx _].
    unfold py.min.
    destruct (_ <? 0.95)%float eqn:Hlt.
    + split; [apply zero_leb_fin_nonneg, Hx|]. split; [apply double_ltb_leb, Hlt | discriminate].
    + split; [reflexivity|]. split; [reflexivity | discriminate].
  - rewrite should_respond_unmentioned by exact Hm.
    pose proof (unmentioned_base_small now self m Ht) as Hb.
    rewrite (min_0_8_small _ Hb). destruct Hb as [Hf Hle].
    destruct const_0_8 as [Hc8 Hv8]. destruct const_0_95 as [Hc95 Hv95].
    split; [apply zero_leb_fin_nonneg, Hf|].
    split; [|intros _]; apply leb_F2R; try assumption; lra.
Qed.

Lemma should_respond_range_witness :
  PrimFloat.leb 0
    (agent.should_respond 0 (sample_agent "Alice" 1 types.IDLE None)
       sample_mention ["Alice"]) = true
  /\ PrimFloat.leb
       (agent.should_respond 0 (sample_agent "Alice" 1 types.IDLE None)
          sample_mention ["Alice"]) 0.95 = true
  /\ (agent.mentioned (sample_agent "Alice" 1 types.IDLE None) sample_mention = false ->
      PrimFloat.leb
        (agent.should_respond 0 (sample_agent "Alice" 1 types.IDLE None)
           sample_mention ["Alice"]) 0.8 = true).
Proof.
  apply (should_respond_range 0 (sample_agent "Alice" 1 types.IDLE None)
           sample_mention ["Alice"]);
    reflexivity.
Defined.

(** C4, as stated, fails: a participant with [response_tendency = 1.0]
    that the message mentions scores [1.0 * 0.3 + 0.6], the double
    [0.8999999999999999], which is above [0.8]. *)
Lemma should_respond_mentioned_above_0_8 :
  PrimFloat.leb 0 (agent.response_tendency (sample_agent "Alice" 1 types.IDLE None)) = true
  /\ PrimFloat.leb (agent.response_tendency (sample_agent "Alice" 1 types.IDLE None)) 1
     = true
  /\ agent.should_respond 0 (sample_agent "Alice" 1 types.IDLE None) sample_mention ["Alice"]
     = 0.89999999999999991%float
  /\ PrimFloat.leb
       (agent.should_respond 0 (sample_agent "Alice" 1 types.IDLE None)
          sample_mention ["Alice"]) 0.8 = false.
Proof. repeat split; vm_compute; reflexivity. Qed.

(** C5: a participant with [response_tendency = 0.5] and no
    [last_spoke_at], whose lower-cased name is among the lower-cased
    mentions of the message, scores [min(0.95, 0.5 * 0.3 + 0.6)], which
    is the double [0.75], whatever the content and the interests: the
    mention branch returns before they are read. *)
Theorem mention_score_half_tendency (now : py.datetime) (self : agent.Agent)
    (m : message.Message) (names : list string) :
  agent.response_tendency self = 0.5%float ->
  agent.last_spoke_at self = None ->
  agent.mentioned self m = true ->
  agent.should_respond now self m names = py.min 0.95 (0.5 * 0.3 + 0.6)
  /\ agent.should_respond now self m names = 0.75%float.
Proof.
  intros Ht _ Hm. unfold agent.should_respond. rewrite Hm, Ht.
  split; reflexivity.
Qed.

Lemma mention_score_half_tendency_witness :
  agent.should_respond 0 (sample_agent "Alice" 0.5 types.IDLE None) sample_mention ["Alice"]
  = 0.75%float.
Proof.
  apply (mention_score_half_tendency 0 (sample_agent "Alice" 0.5 types.IDLE None)
           sample_mention ["Alice"]);
    reflexivity.
Defined.

(** ** The registry *)

Lemma lookup_id_app (k : string) (l1 l2 : list (string * agent.Agent)) :
  registry.lookup_id k (l1 ++ l2)
  = match registry.lookup_id k l1 with
    | Some a => Some a
    | None => registry.lookup_id k l2
    end.
Proof.
  induction l1 as [|[k' a'] l1 IH]; simpl; [reflexivity|].
  destruct (decide (k' = k)); [reflexivity | exact IH].
Qed.

Lemma lookup_id_None (k : string) (l : list (string * agent.Agent)) :
  registry.lookup_id k l = None <-> k ∉ fst <$> l.
Proof.
  induction l as [|[k' a'] l IH]; simpl.
  - split; [intros _; apply not_elem_of_nil | reflexivity].
  - destruct (decide (k' = k)) as [->|Hne].
    + split; [discriminate | intros H; exfalso; apply H; left].
    + rewrite IH. rewrite not_elem_of_cons. split; [intros H; split; [congruence | exact H] | intros [_ H]; exact H].
Qed.

Lemma lookup_id_Some_elem (k : string) (a : agent.Agent) (l : list (string * agent.Agent)) :
  registry.lookup_id k l = Some a -> (k, a) ∈ l.
Proof.
  induction l as [|[k' a'] l IH]; simpl; [discriminate|].
  destruct (decide (k' = k)) as [->|Hne].
  - intros [= ->]. left.
  - intros H. right. apply IH, H.
Qed.

Lemma lookup_remove_id_ne (k k' : string) (l : list (string * agent.Agent)) :
  k <> k' -> registry.lookup_id k' (registry.remove_id k l) = registry.lookup_id k' l.
Proof.
  intros Hne. induction l as [|[k0 a0] l IH]; simpl; [reflexivity|].
  destruct (decide (k0 = k)) as [->|Hk].
  - destruct (decide (k = k')); [contradiction | reflexivity].
  - simpl. destruct (decide (k0 = k')); [reflexivity | exact IH].
Qed.

Lemma remove_id_absent (k : string) (l : list (string * agent.Agent)) :
  k ∉ fst <$> l -> registry.remove_id k l = l.
Proof.
  induction l as [|[k0 a0] l IH]; simpl; [reflexivity|].
  rewrite not_elem_of_cons. intros [Hne H].
  destruct (decide (k0 = k)); [congruence|]. rewrite IH by exact H. reflexivity.
Qed.

Lemma remove_id_snoc (k : string) (a : agent.Agent) (l : list (string * agent.Agent)) :
  k ∉ fst <$> l -> registry.remove_id k (l ++ [(k, a)]) = l.
Proof.
  induction l as [|[k0 a0] l IH]; simpl.
  - intros _. destruct (decide (k = k)); [reflexivity | contradiction].
  - rewrite not_elem_of_cons. intros [Hne H].
    destruct (decide (k0 = k)); [congruence|]. rewrite IH by exact H. reflexivity.
Qed.

Lemma remove_id_sublist (k : string) (l : list (string * agent.Agent)) :
  sublist (registry.remove_id k l) l.
Proof.
  induction l as [|[k0 a0] l IH]; simpl; [constructor|].
  destruct (decide (k0 = k)).
  - apply sublist_cons. reflexivity.
  - apply sublist_skip, IH.
Qed.

Lemma remove_id_not_elem (k : string) (l : list (string * agent.Agent)) :
  NoDup (fst <$> l) -> k ∉ fst <$> registry.remove_id k l.
Proof.
  induction l as [|[k0 a0] l IH]; simpl; [intros _; apply not_elem_of_nil|].
  intros Hnd. apply NoDup_cons in Hnd. destruct Hnd as [Hk0 Hnd].
  destruct (decide (k0 = k)) as [->|Hne]; [exact Hk0|].
  simpl. rewrite not_elem_of_cons. split; [congruence | apply IH, Hnd].
Qed.

Lemma register_duplicate (self : registry.AgentRegistry) (a : agent.Agent) :
  agent.id a ∈ fst <$> registry._agents self ->
  registry.register self a
  = py.Raised (py.ValueError ("Agent " +:+ agent.id a +:+ " already registered")).
Proof.
  intros H. unfold registry.register. rewrite bool_decide_eq_true_2 by exact H. reflexivity.
Qed.

Lemma register_fresh (self : registry.AgentRegistry) (a : agent.Agent) :
  agent.id a ∉ fst <$> registry._agents self ->
  exists r, registry.register self a = py.Returned r
    /\ registry.all r = registry.all self ++ [a]
    /\ registry.count r = registry.count self + 1
    /\ registry.get r (agent.id a) = Some a
    /\ forall k, k <> agent.id a -> registry.get r k = registry.get self k.
Proof.
  intros H. unfold registry.register.
  rewrite bool_decide_eq_false_2 by exact H. eexists. split; [reflexivity|].
  unfold registry.all, registry.count, registry.get. simpl.
  split; [rewrite fmap_app; reflexivity|]. split; [rewrite length_app; simpl; lia|].
  rewrite lookup_id_app. apply lookup_id_None in H. rewrite H. simpl.
  split.
  - destruct (decide (agent.id a = agent.id a)); [reflexivity | contradiction].
  - intros k Hk. rewrite lookup_id_app.
    destruct (registry.lookup_id k (registry._agents self)); [reflexivity|].
    simpl. destruct (decide (agent.id a = k)); [congruence | reflexivity].
Qed.

(** X1: [register] fails exactly on an id that is already registered. On
    success the agent is the last in iteration order, [get] finds it
    under its id, and every other id is found as before. *)
Theorem register_outcome (self : registry.AgentRegistry) (a : agent.Agent) :
  (agent.id a ∈ fst <$> registry._agents self ->
   registry.register self a
   = py.Raised (py.ValueError ("Agent " +:+ agent.id a +:+ " already registered")))
  /\ (agent.id a ∉ fst <$> registry._agents self ->
      exists r, registry.register self a = py.Returned r
        /\ registry.all r = registry.all self ++ [a]
        /\ registry.count r = registry.count self + 1
        /\ registry.get r (agent.id a) = Some a
        /\ forall k, k <> agent.id a -> registry.get r k = registry.get self k).
Proof. split; [apply register_duplicate | apply register_fresh]. Qed.

Lemma register_outcome_witness :
  registry.get (sample_registry [sample_agent "Alice" 0.5 types.IDLE None]) "Alice"
  = Some (sample_agent "Alice" 0.5 types.IDLE None)
  /\ registry.register (sample_registry [sample_agent "Alice" 0.5 types.IDLE None])
       (sample_agent "Alice" 0.9 types.OFFLINE None)
     = py.Raised (py.ValueError "Agent Alice already registered").
Proof.
  split; [reflexivity|].
  apply (proj1 (register_outcome (sample_registry [sample_agent "Alice" 0.5 types.IDLE None])
                  (sample_agent "Alice" 0.9 types.OFFLINE None))).
  apply (bool_decide_unpack _). vm_compute. exact I.
Defined.

Lemma consistent_empty : registry.consistent registry.empty.
Proof.
  split; [constructor|]. split.
  - intros k a H. inversion H.
  - intros n k H. simpl in H. rewrite lookup_empty in H. discriminate.
Qed.

Lemma register_consistent (self r : registry.AgentRegistry) (a : agent.Agent) :
  registry.consistent self -> registry.register self a = py.Returned r ->
  registry.consistent r.
Proof.
  intros (Hnd & Hkey & Hname). unfold registry.register.
  destruct (bool_decide _) eqn:Hin; [discriminate|].
  apply bool_decide_eq_false in Hin. intros [= <-].
  pose proof (proj1 (lookup_id_None _ _) (proj2 (lookup_id_None _ _) Hin)) as Hin'.
  split; [|split]; simpl.
  - rewrite fmap_app. simpl. apply NoDup_app. split; [exact Hnd|]. split.
    + intros k Hk Hk'. apply list_elem_of_singleton in Hk'. subst k. contradiction.
    + apply NoDup_singleton.
  - intros k b Hb. apply elem_of_app in Hb. destruct Hb as [Hb|Hb].
    + apply Hkey, Hb.
    + apply list_elem_of_singleton in Hb. injection Hb as -> ->. reflexivity.
  - intros n k Hn. unfold registry.get. simpl. rewrite lookup_id_app.
    destruct (decide (py.lower (agent.name a) = n)) as [<-|Hne].
    + rewrite lookup_insert_eq in Hn. injection Hn as <-.
      apply lookup_id_None in Hin. rewrite Hin. simpl.
      destruct (decide (agent.id a = agent.id a)); [|contradiction].
      exists a. split; reflexivity.
    + rewrite lookup_insert_ne in Hn by exact Hne.
      destruct (Hname n k Hn) as (b & Hb & Hbn). unfold registry.get in Hb.
      rewrite Hb. exists b. split; [reflexivity | exact Hbn].
Qed.

Lemma unregister_consistent (self : registry.AgentRegistry) (k : string) :
  registry.consistent self -> registry.consistent (registry.unregister self k).1.
Proof.
  intros (Hnd & Hkey & Hname). unfold registry.unregister.
  destruct (registry.get self k) as [a|] eqn:Hget; simpl; [|repeat split; assumption].
  split; [|split]; simpl.
  - apply (sublist_NoDup _ _ Hnd). apply fmap_sublist, remove_id_sublist.
  - intros k' b Hb. apply Hkey.
    eapply elem_of_sublist; [exact Hb | apply remove_id_sublist].
  - intros n k' Hn.
    destruct (decide (py.lower (agent.name a) = n)) as [<-|Hne].
    + rewrite lookup_delete_eq in Hn. discriminate.
    + rewrite lookup_delete_ne in Hn by exact Hne.
      destruct (Hname n k' Hn) as (b & Hb & Hbn).
      exists b. split; [|exact Hbn]. unfold registry.get in *. simpl.
      rewrite lookup_remove_id_ne; [exact Hb|].
      intros <-. rewrite Hget in Hb. injection Hb as <-. contradiction.
Qed.

(** X2: The two indices stay consistent: the empty registry is consistent,
    and [register] and [unregister] keep a consistent registry
    consistent. *)
Theorem registry_stays_consistent (self : registry.AgentRegistry) (a : agent.Agent)
    (k : string) :
  registry.consistent registry.empty
  /\ (registry.consistent self ->
      (forall r, registry.register self a = py.Returned r -> registry.consistent r)
      /\ registry.consistent (registry.unregister self k).1).
Proof.
  split; [apply consistent_empty|]. intros H. split.
  - intros r Hr. eapply register_consistent; eassumption.
  - apply unregister_consistent, H.
Qed.

Lemma registry_stays_consistent_witness :
  registry.consistent
    (sample_registry [sample_agent "Alice" 0.5 types.IDLE None;
                      sample_agent "Bob" 0.5 types.IDLE None;
                      sample_agent "Carol" 0.5 types.IDLE None])
  /\ registry.consistent
       (registry.unregister
          (sample_registry [sample_agent "Alice" 0.5 types.IDLE None;
                            sample_agent "Bob" 0.5 types.IDLE None]) "Alice").1
  /\ registry.all
       (registry.unregister
          (sample_registry [sample_agent "Alice" 0.5 types.IDLE None;
                            sample_agent "Bob" 0.5 types.IDLE None]) "Alice").1
     = [sample_agent "Bob" 0.5 types.IDLE None].
Proof.
  assert (H : registry.consistent
                (sample_registry [sample_agent "Alice" 0.5 types.IDLE None;
                                  sample_agent "Bob" 0.5 types.IDLE None])).
  { apply (register_consistent
             (sample_registry [sample_agent "Alice" 0.5 types.IDLE None]) _
             (sample_agent "Bob" 0.5 types.IDLE None)); [|reflexivity].
    apply (register_consistent registry.empty _ (sample_agent "Alice" 0.5 types.IDLE None));
      [apply consistent_empty | reflexivity]. }
  destruct (proj2 (registry_stays_consistent
                     (sample_registry [sample_agent "Alice" 0.5 types.IDLE None;
                                       sample_agent "Bob" 0.5 types.IDLE None])
                     (sample_agent "Carol" 0.5 types.IDLE None) "Alice") H)
    as [Hregister Hunregister].
  split; [apply Hregister; reflexivity|]. split; [exact Hunregister | reflexivity].
Defined.

(** X3: In a consistent registry [get_by_name] never returns an agent under
    a name it does not bear: the agent found is registered under its own
    id and its name equals the name asked for, up to case. *)
Theorem get_by_name_sound (self : registry.AgentRegistry) (n : string) (a : agent.Agent) :
  registry.consistent self ->
  registry.get_by_name self n = Some a ->
  py.lower (agent.name a) = py.lower n
  /\ registry.get self (agent.id a) = Some a
  /\ a ∈ registry.all self.
Proof.
  intros (Hnd & Hkey & Hname). unfold registry.get_by_name.
  destruct (registry._by_name self !! py.lower n) as [[|c k]|] eqn:Hn; try discriminate.
  intros Hget. destruct (Hname _ _ Hn) as (b & Hb & Hbn).
  rewrite Hget in Hb. injection Hb as <-.
  pose proof (lookup_id_Some_elem _ _ _ Hget) as Hel.
  pose proof (Hkey _ _ Hel) as Hid.
  split; [exact Hbn|]. split; [rewrite Hid; exact Hget|].
  unfold registry.all. apply list_elem_of_fmap. exists (String c k, a). split; [reflexivity | exact Hel].
Qed.

Lemma get_by_name_sound_witness :
  py.lower (agent.name (sample_agent "Alice" 0.5 types.IDLE None)) = py.lower "ALICE".
Proof.
  apply (get_by_name_sound (sample_registry [sample_agent "Alice" 0.5 types.IDLE None])
           "ALICE" (sample_agent "Alice" 0.5 types.IDLE None)).
  - apply (register_consistent registry.empty _ (sample_agent "Alice" 0.5 types.IDLE None));
      [apply consistent_empty | reflexivity].
  - reflexivity.
Defined.

(** X4: Two agents whose names differ only in case share one entry of the
    name index. After both are registered the name leads to the second
    when its id is not the empty string, and to nobody when it is (an
    empty id is falsy in [get_by_name]); after the second is
    unregistered the name leads to nobody in either case, although the
    first is still registered. *)
Theorem name_collision_hides_agent (self r1 r2 : registry.AgentRegistry)
    (a b : agent.Agent) :
  registry.register self a = py.Returned r1 ->
  registry.register r1 b = py.Returned r2 ->
  py.lower (agent.name a) = py.lower (agent.name b) ->
  (agent.id b <> "" -> registry.get_by_name r2 (agent.name a) = Some b)
  /\ (agent.id b = "" -> registry.get_by_name r2 (agent.name a) = None)
  /\ registry.get_by_name (registry.unregister r2 (agent.id b)).1 (agent.name a) = None
  /\ registry.get (registry.unregister r2 (agent.id b)).1 (agent.id a) = Some a.
Proof.
  intros Ha Hb Hname.
  destruct (decide (agent.id a ∈ fst <$> registry._agents self)) as [Hin|Hin];
    [rewrite (register_duplicate _ _ Hin) in Ha; discriminate|].
  destruct (register_fresh _ _ Hin) as (r1' & Hr1 & _ & _ & Hga & _).
  rewrite Hr1 in Ha. injection Ha as ->.
  destruct (decide (agent.id b ∈ fst <$> registry._agents r1)) as [Hin'|Hin'];
    [rewrite (register_duplicate _ _ Hin') in Hb; discriminate|].
  destruct (register_fresh _ _ Hin') as (r2' & Hr2 & _ & _ & Hgb & Hother).
  rewrite Hr2 in Hb. injection Hb as ->.
  assert (Hab : agent.id a <> agent.id b).
  { intros E. apply Hin'. rewrite <- E.
    apply list_elem_of_fmap. exists (agent.id a, a). split; [reflexivity|].
    apply lookup_id_Some_elem, Hga. }
  assert (Hby : registry._by_name r2 !! py.lower (agent.name a) = Some (agent.id b)).
  { unfold registry.register in Hr2. destruct (bool_decide _); [discriminate|].
    injection Hr2 as <-. simpl. rewrite Hname. apply lookup_insert_eq. }
  split; [|split; [|split]].
  - intros Hid. unfold registry.get_by_name. rewrite Hby.
    destruct (agent.id b) as [|c k]; [contradiction | exact Hgb].
  - intros Hid. unfold registry.get_by_name. rewrite Hby, Hid. reflexivity.
  - unfold registry.unregister. rewrite Hgb. simpl.
    unfold registry.get_by_name. simpl. rewrite Hname, lookup_delete_eq. reflexivity.
  - unfold registry.unregister. rewrite Hgb. simpl. unfold registry.get. simpl.
    rewrite lookup_remove_id_ne by congruence.
    fold (registry.get r2 (agent.id a)). rewrite Hother by exact Hab. exact Hga.
Qed.

Lemma name_collision_hides_agent_witness :
  registry.get_by_name
    (sample_registry [sample_agent "bob" 0.5 types.IDLE None;
                      sample_agent "Bob" 0.5 types.IDLE None]) "bob"
  = Some (sample_agent "Bob" 0.5 types.IDLE None)
  /\ registry.get_by_name
       (registry.unregister
          (sample_registry [sample_agent "bob" 0.5 types.IDLE None;
                            sample_agent "Bob" 0.5 types.IDLE None]) "Bob").1 "bob"
     = None
  /\ registry.get
       (registry.unregister
          (sample_registry [sample_agent "bob" 0.5 types.IDLE None;
                            sample_agent "Bob" 0.5 types.IDLE None]) "Bob").1 "bob"
     = Some (sample_agent "bob" 0.5 types.IDLE None).
Proof.
  destruct (name_collision_hides_agent registry.empty
              (sample_registry [sample_agent "bob" 0.5 types.IDLE None])
              (sample_registry [sample_agent "bob" 0.5 types.IDLE None;
                                sample_agent "Bob" 0.5 types.IDLE None])
              (sample_agent "bob" 0.5 types.IDLE None)
              (sample_agent "Bob" 0.5 types.IDLE None)
              eq_refl eq_refl eq_refl)
    as (Hsecond & _ & Hhidden & Hfirst).
  split; [apply Hsecond; discriminate|]. split; [exact Hhidden | exact Hfirst].
Defined.

(** X5: [unregister] of an id that is not registered returns [None] and
    changes nothing. [unregister] right after [register] gives back the
    agent and the registry as it was, when the name was not in the name
    index before. *)
Theorem unregister_outcome (self r : registry.AgentRegistry) (a : agent.Agent)
    (k : string) :
  (registry.get self k = None -> registry.unregister self k = (self, None))
  /\ (registry.register self a = py.Returned r ->
      registry._by_name self !! py.lower (agent.name a) = None ->
      registry.unregister r (agent.id a) = (self, Some a)).
Proof.
  split.
  - intros H. unfold registry.unregister. rewrite H. reflexivity.
  - intros Hr Hfresh.
    destruct (decide (agent.id a ∈ fst <$> registry._agents self)) as [Hin|Hin];
      [rewrite (register_duplicate _ _ Hin) in Hr; discriminate|].
    destruct (register_fresh _ _ Hin) as (r' & Hr' & _ & _ & Hget & _).
    rewrite Hr' in Hr. injection Hr as ->.
    unfold registry.unregister. rewrite Hget.
    unfold registry.register in Hr'. destruct (bool_decide _); [discriminate|].
    injection Hr' as <-. simpl.
    rewrite remove_id_snoc by exact Hin.
    rewrite delete_insert_eq, delete_id by exact Hfresh.
    destruct self. reflexivity.
Qed.

Lemma unregister_outcome_witness :
  registry.unregister (sample_registry [sample_agent "Alice" 0.5 types.IDLE None]) "Zed"
  = (sample_registry [sample_agent "Alice" 0.5 types.IDLE None], None).
Proof.
  apply (proj1 (unregister_outcome
                  (sample_registry [sample_agent "Alice" 0.5 types.IDLE None])
                  registry.empty (sample_agent "Alice" 0.5 types.IDLE None) "Zed")).
  reflexivity.
Defined.

(** ** Mentions *)

Lemma take_word_word_only (s : string) : word_only (py.take_word s) = true.
Proof.
  induction s as [|c s IH]; simpl; [reflexivity|].
  destruct (py.is_word c) eqn:E; simpl; [|reflexivity].
  unfold word_only in *. simpl. rewrite E, IH. reflexivity.
Qed.

Lemma take_word_prefix (s : string) : String.prefix (py.take_word s) s = true.
Proof.
  induction s as [|c s IH]; simpl; [reflexivity|].
  destruct (py.is_word c); simpl; [|reflexivity].
  destruct (ascii_dec c c); [exact IH | contradiction].
Qed.

Lemma contains_tail (sub : string) (c : ascii) (s : string) :
  py.contains sub s = true -> py.contains sub (String c s) = true.
Proof. intros H. cbn [py.contains]. rewrite H. apply orb_true_r. Qed.

Lemma contains_prefix (sub s : string) :
  String.prefix sub s = true -> py.contains sub s = true.
Proof. intros H. destruct s; cbn [py.contains]; rewrite H; reflexivity. Qed.

Lemma findall_mentions_sound (s w : string) :
  w ∈ py.findall_mentions s ->
  w <> "" /\ word_only w = true /\ py.contains ("@" +:+ w) s = true.
Proof.
  induction s as [|c s IH]; simpl.
  - intros H. inversion H.
  - assert (Hrec : w ∈ py.findall_mentions s ->
                   w <> "" /\ word_only w = true
                   /\ (String.prefix ("@" +:+ w) (String c s)
                       || py.contains ("@" +:+ w) s)%bool = true).
    { intros H. destruct (IH H) as (H1 & H2 & H3). rewrite H3, orb_true_r. auto. }
    destruct (Ascii.eqb c "@") eqn:Ec; [|exact Hrec].
    apply Ascii.eqb_eq in Ec. subst c.
    destruct (py.take_word s) as [|c' w'] eqn:Ew; [exact Hrec|].
    intros H. apply elem_of_cons in H. destruct H as [->|H]; [|exact (Hrec H)].
    split; [discriminate|]. split; [rewrite <- Ew; apply take_word_word_only|].
    apply orb_true_iff. left. simpl.
    destruct (ascii_dec "@" "@"); [|contradiction].
    rewrite <- Ew. apply take_word_prefix.
Qed.

(** X6: In a content of the ASCII range, every mention
    [_extract_mentions] returns is a run of word characters that is not
    empty and that follows an ["@"] in the content. *)
Theorem extract_mentions_sound (text w : string) :
  ascii_only text = true ->
  w ∈ message._extract_mentions text ->
  w <> "" /\ word_only w = true /\ py.contains ("@" +:+ w) text = true.
Proof. intros _. apply findall_mentions_sound. Qed.

Lemma extract_mentions_sound_witness :
  "carol_2" <> ""
  /\ word_only "carol_2" = true
  /\ py.contains ("@" +:+ "carol_2") "hey @Bob and @carol_2 check this" = true.
Proof.
  apply (extract_mentions_sound "hey @Bob and @carol_2 check this" "carol_2").
  - reflexivity.
  - apply (bool_decide_unpack _). vm_compute. exact I.
Defined.

Lemma take_word_app (w post : string) :
  word_only w = true -> word_stops post = true -> py.take_word (w +:+ post) = w.
Proof.
  intros Hw Hpost. induction w as [|c w IH]; simpl.
  - destruct post as [|c post]; [reflexivity|]. simpl in *.
    destruct (py.is_word c); [discriminate | reflexivity].
  - unfold word_only in Hw. simpl in Hw. apply andb_prop in Hw. destruct Hw as [Hc Hw].
    rewrite Hc, (IH Hw). reflexivity.
Qed.

(** X7: Every ["@"] followed by a run of word characters yields the run as
    a mention: for a content [pre @ w post] of the ASCII range where
    [w] is a run of word characters that is not empty and [post] does
    not go on with one, [w] is among the mentions. *)
Theorem extract_mentions_complete (pre w post : string) :
  ascii_only (pre +:+ "@" +:+ w +:+ post) = true ->
  w <> "" -> word_only w = true -> word_stops post = true ->
  w ∈ message._extract_mentions (pre +:+ "@" +:+ w +:+ post).
Proof.
  intros _ Hne Hw Hpost. unfold message._extract_mentions.
  induction pre as [|c pre IH].
  - simpl. change ("" +:+ w +:+ post) with (w +:+ post).
    rewrite (take_word_app w post Hw Hpost).
    destruct w as [|c w]; [contradiction | left].
  - change (String c pre +:+ "@" +:+ w +:+ post)
      with (String c (pre +:+ "@" +:+ w +:+ post)).
    simpl. destruct (Ascii.eqb c "@"); [|exact IH].
    destruct (py.take_word _); [exact IH | right; exact IH].
Qed.

Lemma extract_mentions_complete_witness :
  "Bob" ∈ message._extract_mentions ("hey " +:+ "@" +:+ "Bob" +:+ " and @carol_2").
Proof.
  apply (extract_mentions_complete "hey " "Bob" " and @carol_2");
    [reflexivity | discriminate | reflexivity | reflexivity].
Defined.

Lemma is_word_lower_ascii (c : ascii) : py.is_word (py.lower_ascii c) = py.is_word c.
Proof. destruct c as [[] [] [] [] [] [] [] []]; reflexivity. Qed.

Lemma word_only_lower (s : string) : word_only (py.lower s) = word_only s.
Proof.
  unfold word_only. induction s as [|c s IH]; simpl; [reflexivity|].
  rewrite is_word_lower_ascii, IH. reflexivity.
Qed.

Lemma word_only_no_nonword (s : string) :
  word_only s = true -> string_forallb (fun c => negb (ascii_nonword c)) s = true.
Proof.
  unfold word_only. induction s as [|c s IH]; simpl; [reflexivity|].
  intros H. apply andb_prop in H. destruct H as [Hc Hs].
  rewrite (IH Hs). unfold ascii_nonword. rewrite Hc. simpl.
  rewrite andb_false_r. reflexivity.
Qed.

(** X8: A participant whose name holds a character of the ASCII range that
    is not a word character (a space, a hyphen, a dot) is never among
    the mentions of a message built from its content: no ["@"] in any
    content of the ASCII range reaches it. *)
Theorem name_with_nonword_never_mentioned (self : agent.Agent)
    (the_sender_id the_sender_name the_content the_channel the_id : string)
    (the_type : types.MessageType) (the_timestamp : py.datetime)
    (the_reply_to : option string) :
  string_forallb (fun c => negb (ascii_nonword c)) (agent.name self) = false ->
  ascii_only the_content = true ->
  agent.mentioned self
    (message.new the_sender_id the_sender_name the_content the_channel the_id
       the_type the_timestamp the_reply_to [])
  = false.
Proof.
  intros Hname _. unfold agent.mentioned. apply bool_decide_eq_false_2.
  simpl. intros Hin. apply list_elem_of_fmap in Hin. destruct Hin as (w & Hw & Hin).
  apply findall_mentions_sound in Hin. destruct Hin as (_ & Hword & _).
  assert (H : word_only (agent.name self) = true).
  { rewrite <- word_only_lower, Hw, word_only_lower. exact Hword. }
  apply word_only_no_nonword in H. congruence.
Qed.

Lemma name_with_nonword_never_mentioned_witness :
  agent.mentioned (sample_agent "Dr Who" 0.5 types.IDLE None)
    (message.new "human" "Human" "@Dr Who, are you there? @dr_who @Dr" "general" "m2"
       types.CHAT 0 None [])
  = false.
Proof.
  apply (name_with_nonword_never_mentioned (sample_agent "Dr Who" 0.5 types.IDLE None));
    reflexivity.
Defined.

(** ** The log, read and rendered *)

(** X9: Whatever the integer [count], [get_recent_messages(count)] is a
    suffix of the log; for a negative [count] it is the log without its
    first [-count] messages. *)
Theorem get_recent_messages_suffix (self : channel.Channel) (count : Z) :
  channel.get_recent_messages self count `suffix_of` channel.messages self
  /\ (count < 0 ->
      channel.get_recent_messages self count
      = drop (Z.to_nat (- count)) (channel.messages self)).
Proof.
  unfold channel.get_recent_messages, py.slice_from. split.
  - apply suffix_drop.
  - intros Hneg. destruct (Z.ltb_spec (- count) 0) as [|_]; [lia|].
    destruct (Z.min_spec (- count) (Z.of_nat (length (channel.messages self))))
      as [[_ ->]|[Hle ->]]; [reflexivity|].
    rewrite Nat2Z.id, !drop_ge by lia. reflexivity.
Qed.

Lemma get_recent_messages_suffix_witness :
  channel.get_recent_messages
    (sample_channel 1000 [sample_message "a" "general"; sample_message "b" "general";
                          sample_message "c" "general"]) (-1)
  = drop (Z.to_nat (- (-1)))
      [sample_message "a" "general"; sample_message "b" "general";
       sample_message "c" "general"].
Proof.
  apply (proj2 (get_recent_messages_suffix
                  (sample_channel 1000 [sample_message "a" "general";
                                        sample_message "b" "general";
                                        sample_message "c" "general"]) (-1))).
  lia.
Defined.

Lemma lastn_last_snoc {A : Type} (n : nat) (l : list A) (x : A) :
  (0 < n)%nat -> last (lastn n (l ++ [x])) = Some x.
Proof.
  intros Hn. destruct n as [|n]; [lia|].
  rewrite lastn_snoc. apply last_snoc.
Qed.

Lemma add_message_appended (self : channel.Channel) (m : message.Message) :
  0 <= channel.max_history self ->
  exists l, channel.messages (channel.add_message self m) = l ++ [m].
Proof.
  intros Hk. destruct (Z.eq_dec (channel.max_history self) 0) as [H0|Hne].
  - unfold channel.add_message. rewrite H0.
    destruct (_ >? 0); simpl; [rewrite slice_from_zero|]; eexists; reflexivity.
  - rewrite add_message_messages by lia.
    destruct (Z.to_nat (channel.max_history self)) as [|n] eqn:E; [lia|].
    rewrite lastn_snoc. eexists; reflexivity.
Qed.

Lemma add_message_last (self : channel.Channel) (m : message.Message) :
  0 <= channel.max_history self ->
  last (channel.messages (channel.add_message self m)) = Some m
  /\ channel.get_recent_messages (channel.add_message self m) 1 = [m].
Proof.
  intros Hk. destruct (add_message_appended self m Hk) as [l Hl].
  split; [rewrite Hl; apply last_snoc|].
  rewrite get_recent_messages_positive by lia. rewrite Hl.
  change (Z.to_nat 1) with 1%nat. rewrite lastn_snoc.
  unfold lastn. rewrite Nat.sub_0_r, drop_all. reflexivity.
Qed.

(** X10: With a capacity that is not negative, the message just added is the
    last of the log, and the one [get_recent_messages(1)] returns. *)
Theorem add_message_is_last (self : channel.Channel) (m : message.Message) :
  0 <= channel.max_history self ->
  last (channel.messages (channel.add_message self m)) = Some m
  /\ channel.get_recent_messages (channel.add_message self m) 1 = [m].
Proof. apply add_message_last. Qed.

Lemma add_message_is_last_witness :
  channel.get_recent_messages
    (channel.add_message (sample_channel 2 [sample_message "a" "general";
                                            sample_message "b" "general"])
       (sample_message "c" "general")) 1
  = [sample_message "c" "general"].
Proof.
  apply (proj2 (add_message_is_last
                  (sample_channel 2 [sample_message "a" "general";
                                     sample_message "b" "general"])
                  (sample_message "c" "general") ltac:(simpl; lia))).
Defined.

(** X11: With a negative capacity the trim is [messages[k:]] for
    [k = -max_history]: a channel that starts empty stays empty, every
    message added is dropped at once. *)
Theorem negative_capacity_drops_everything (self : channel.Channel)
    (ms : list message.Message) :
  channel.max_history self < 0 ->
  channel.messages self = [] ->
  channel.messages (channel.add_messages self ms) = [].
Proof.
  intros Hk. unfold channel.add_messages. revert self Hk.
  induction ms as [|m ms IH]; intros self Hk Hempty; simpl; [exact Hempty|].
  apply IH.
  - rewrite add_message_max_history. exact Hk.
  - unfold channel.add_message. rewrite Hempty.
    change ([] ++ [m]) with [m].
    destruct (Z.gtb_spec (Z.of_nat (length [m])) (channel.max_history self)) as [_|H];
      [|simpl in H; lia].
    cbn [channel.messages channel.with_messages]. unfold py.slice_from.
    destruct (Z.ltb_spec (- channel.max_history self) 0) as [|_]; [lia|].
    apply drop_ge. simpl. lia.
Qed.

Lemma negative_capacity_drops_everything_witness :
  channel.messages
    (channel.add_messages (sample_channel (-1) [])
       [sample_message "a" "general"; sample_message "b" "general"])
  = [].
Proof.
  apply (negative_capacity_drops_everything (sample_channel (-1) [])
           [sample_message "a" "general"; sample_message "b" "general"]);
    [simpl; lia | reflexivity].
Defined.

Lemma contains_refl (s : string) : py.contains s s = true.
Proof.
  apply contains_prefix. induction s as [|c s IH]; simpl; [reflexivity|].
  destruct (ascii_dec c c); [exact IH | contradiction].
Qed.

Lemma contains_app_r (sub s1 s2 : string) :
  py.contains sub s2 = true -> py.contains sub (s1 +:+ s2) = true.
Proof.
  intros H. induction s1 as [|c s1 IH]; [exact H|].
  change (String c s1 +:+ s2) with (String c (s1 +:+ s2)).
  apply contains_tail, IH.
Qed.

Lemma string_app_assoc (s1 s2 s3 : string) : (s1 +:+ s2) +:+ s3 = s1 +:+ s2 +:+ s3.
Proof.
  induction s1 as [|c s1 IH]; [reflexivity|].
  change (String c ((s1 +:+ s2) +:+ s3) = String c (s1 +:+ s2 +:+ s3)).
  rewrite IH. reflexivity.
Qed.

Lemma join_snoc (sep : string) (l : list string) (x : string) :
  exists p, py.join sep (l ++ [x]) = p +:+ x.
Proof.
  induction l as [|y l [p IH]].
  - exists "". reflexivity.
  - simpl. rewrite IH. destruct (l ++ [x]) eqn:E.
    + destruct l; discriminate.
    + exists (y +:+ sep +:+ p). rewrite !string_app_assoc. reflexivity.
Qed.

Lemma format_irc_ends_with_content (m : message.Message) :
  exists p, message.format_irc m = p +:+ message.content m.
Proof.
  unfold message.format_irc.
  destruct (message.type m).
  - exists ("[" +:+ py.strftime_HMS (message.timestamp m) +:+ "] <"
            +:+ message.sender_name m +:+ "> ").
    rewrite !string_app_assoc. reflexivity.
  - exists ("[" +:+ py.strftime_HMS (message.timestamp m) +:+ "] *** ").
    rewrite !string_app_assoc. reflexivity.
  - exists ("[" +:+ py.strftime_HMS (message.timestamp m) +:+ "] * "
            +:+ message.sender_name m +:+ " ").
    rewrite !string_app_assoc. reflexivity.
  - exists ("[" +:+ py.strftime_HMS (message.timestamp m) +:+ "] --> ").
    rewrite !string_app_assoc. reflexivity.
  - exists ("[" +:+ py.strftime_HMS (message.timestamp m) +:+ "] <-- ").
    rewrite !string_app_assoc. reflexivity.
Qed.

(** X12: What [broadcast] appends is in the next context: after a broadcast
    to a channel that exists and whose capacity is not negative, the
    context string of that channel, for any positive number of lines,
    holds the content of the message. *)
Theorem broadcast_then_context_contains (now : py.datetime) (self : world.ArenaWorld)
    (m : message.Message) (ch : channel.Channel) (count : Z) :
  world.channels self !! message.channel m = Some ch ->
  0 <= channel.max_history ch ->
  0 < count ->
  exists ch', world.channels (world.broadcast now self m).1.1 !! message.channel m = Some ch'
    /\ py.contains (message.content m) (channel.get_context_string ch' count) = true.
Proof.
  intros Hch Hk Hcount.
  destruct (broadcast_known_channel now self m ch Hch) as [Hch' _].
  exists (channel.add_message ch m). split; [exact Hch'|].
  unfold channel.get_context_string.
  rewrite get_recent_messages_positive by exact Hcount.
  destruct (add_message_appended ch m Hk) as [l Hl]. rewrite Hl.
  destruct (Z.to_nat count) as [|n] eqn:E; [lia|].
  rewrite lastn_snoc, fmap_app, app_assoc. simpl.
  destruct (join_snoc py.nl
              ((if decide (channel.topic (channel.add_message ch m) = "")
                then []
                else ["=== Room Topic: " +:+ channel.topic (channel.add_message ch m)
                      +:+ " ==="; ""]) ++ (message.format_irc <$> lastn n l))
              (message.format_irc m)) as [p ->].
  apply contains_app_r.
  destruct (format_irc_ends_with_content m) as [q ->].
  apply contains_app_r, contains_refl.
Qed.

Lemma broadcast_then_context_contains_witness :
  exists ch',
    world.channels
      (world.broadcast 7 (sample_world [] [] false) (sample_message "hello" "general")).1.1
      !! message.channel (sample_message "hello" "general") = Some ch'
    /\ py.contains (message.content (sample_message "hello" "general"))
         (channel.get_context_string ch' 20) = true.
Proof.
  apply (broadcast_then_context_contains 7 (sample_world [] [] false)
           (sample_message "hello" "general") (sample_channel 1000 []) 20);
    [reflexivity | simpl; lia | lia].
Defined.

Lemma join_empty_iff (sep : string) (l : list string) :
  (forall x, x ∈ l -> x <> "") -> py.join sep l = "" -> l = [].
Proof.
  destruct l as [|x l]; [reflexivity|]. intros Hne. simpl.
  assert (Hx : x <> "") by (apply Hne; left).
  destruct l; [intros ->; contradiction|].
  destruct x; [contradiction | discriminate].
Qed.

(** X13: [get_context_string] returns the empty string exactly when the
    topic is empty and no message is selected. *)
Theorem get_context_string_empty (self : channel.Channel) (count : Z) :
  channel.get_context_string self count = ""
  <-> channel.topic self = "" /\ channel.get_recent_messages self count = [].
Proof.
  unfold channel.get_context_string. split.
  - destruct (decide (channel.topic self = "")) as [Ht|Ht].
    + simpl. intros H. split; [exact Ht|].
      apply join_empty_iff in H.
      * destruct (channel.get_recent_messages self count); [reflexivity | discriminate].
      * intros x Hx. apply list_elem_of_fmap in Hx. destruct Hx as (m & -> & _).
        unfold message.format_irc. destruct (message.type m); discriminate.
    + simpl. destruct (message.format_irc <$> _); discriminate.
  - intros [Ht Hr]. rewrite Hr. destruct (decide (channel.topic self = ""));
      [reflexivity | contradiction].
Qed.

(** ** Subscriptions *)

Lemma list_remove_absent (h : events.Handler) (l : list events.Handler) :
  h ∉ l -> events.list_remove h l = None.
Proof.
  induction l as [|x l IH]; simpl; [reflexivity|].
  rewrite not_elem_of_cons. intros [Hne H].
  destruct (decide (x = h)); [congruence|]. rewrite (IH H). reflexivity.
Qed.

Lemma list_remove_first (h : events.Handler) (l : list events.Handler) :
  h ∈ l ->
  exists l1 l2, l = l1 ++ (h :: l2) /\ (h ∉ l1) /\ events.list_remove h l = Some (l1 ++ l2).
Proof.
  induction l as [|x l IH]; [intros H; inversion H|].
  intros H. simpl. destruct (decide (x = h)) as [->|Hne].
  - exists [], l. repeat split. apply not_elem_of_nil.
  - apply elem_of_cons in H. destruct H as [->|H]; [contradiction|].
    destruct (IH H) as (l1 & l2 & -> & Hl1 & ->).
    exists (x :: l1), l2. repeat split. rewrite not_elem_of_cons. split; [congruence | exact Hl1].
Qed.

Lemma list_remove_snoc (h : events.Handler) (l : list events.Handler) :
  h ∉ l -> events.list_remove h (l ++ [h]) = Some l.
Proof.
  induction l as [|x l IH]; simpl.
  - intros _. destruct (decide (h = h)); [reflexivity | contradiction].
  - rewrite not_elem_of_cons. intros [Hne H].
    destruct (decide (x = h)); [congruence|]. rewrite (IH H). reflexivity.
Qed.

(** X14: [unsubscribe]: a type nobody ever subscribed to is a silent no-op;
    a handler that is not in the list of an existing type raises
    [ValueError]; otherwise the first registration of the handler is
    removed and the others keep their order. *)
Theorem unsubscribe_outcome (self : events.EventBus) (event_type : string)
    (h : events.Handler) (l : list events.Handler) :
  (events._handlers self !! event_type = None ->
   events.unsubscribe self event_type h = py.Returned self)
  /\ (events._handlers self !! event_type = Some l -> h ∉ l ->
      events.unsubscribe self event_type h
      = py.Raised (py.ValueError "list.remove(x): x not in list"))
  /\ (events._handlers self !! event_type = Some l -> h ∈ l ->
      exists l1 l2, l = l1 ++ (h :: l2) /\ (h ∉ l1)
        /\ events.unsubscribe self event_type h
           = py.Returned
               (events.with_handlers self
                  (<[event_type := l1 ++ l2]> (events._handlers self)))).
Proof.
  unfold events.unsubscribe. split; [|split].
  - intros ->. reflexivity.
  - intros -> Hh. rewrite (list_remove_absent _ _ Hh). reflexivity.
  - intros -> Hh. destruct (list_remove_first _ _ Hh) as (l1 & l2 & Hl & Hl1 & ->).
    exists l1, l2. repeat split; assumption.
Qed.

Lemma unsubscribe_outcome_witness :
  events.unsubscribe (events.subscribe events.empty_bus "message" 1%nat) "message" 2%nat
  = py.Raised (py.ValueError "list.remove(x): x not in list").
Proof.
  apply (proj1 (proj2 (unsubscribe_outcome
                         (events.subscribe events.empty_bus "message" 1%nat)
                         "message" 2%nat [1%nat]))).
  - reflexivity.
  - apply (bool_decide_unpack _). vm_compute. exact I.
Defined.

(** X15: [subscribe] then [unsubscribe] of a handler that was not in the
    list: for a type that had a list the bus is as before; for a type
    that had none the type stays in the table, with an empty list. *)
Theorem subscribe_unsubscribe (self : events.EventBus) (event_type : string)
    (h : events.Handler) :
  h ∉ default [] (events._handlers self !! event_type) ->
  events.unsubscribe (events.subscribe self event_type h) event_type h
  = py.Returned
      (events.with_handlers self
         (<[event_type := default [] (events._handlers self !! event_type)]>
            (events._handlers self)))
  /\ (is_Some (events._handlers self !! event_type) ->
      events.unsubscribe (events.subscribe self event_type h) event_type h
      = py.Returned self).
Proof.
  intros Hh.
  assert (Hres : events.unsubscribe (events.subscribe self event_type h) event_type h
                 = py.Returned
                     (events.with_handlers self
                        (<[event_type := default [] (events._handlers self !! event_type)]>
                           (events._handlers self)))).
  { unfold events.unsubscribe, events.subscribe.
    destruct (events._handlers self !! event_type) as [l|] eqn:E; simpl in *.
    - rewrite lookup_insert_eq, E. simpl. rewrite list_remove_snoc by exact Hh.
      unfold events.with_handlers. simpl. rewrite insert_insert_eq. reflexivity.
    - rewrite !lookup_insert_eq. simpl.
      destruct (decide (h = h)); [|contradiction].
      unfold events.with_handlers. simpl. rewrite !insert_insert_eq. reflexivity. }
  split; [exact Hres|].
  intros [l Hl]. rewrite Hres, Hl. simpl. rewrite insert_id by exact Hl.
  destruct self. reflexivity.
Qed.

Lemma subscribe_unsubscribe_witness :
  events.unsubscribe
    (events.subscribe (events.subscribe events.empty_bus "message" 1%nat) "message" 2%nat)
    "message" 2%nat
  = py.Returned (events.subscribe events.empty_bus "message" 1%nat).
Proof.
  apply (proj2 (subscribe_unsubscribe
                  (events.subscribe events.empty_bus "message" 1%nat) "message" 2%nat
                  ltac:(apply (bool_decide_unpack _); vm_compute; exact I))).
  vm_compute. eexists. reflexivity.
Defined.

(** X16: With no wildcard handler subscribed, [_dispatch] calls the handlers
    of the event's type, in subscription order, and leaves the bus as
    it was. *)
Theorem dispatch_without_wildcard (self : events.EventBus) (event : events.Event) :
  default [] (events._handlers self !! "*") = [] ->
  events._dispatch self event
  = (self, default [] (events._handlers self !! events.type event)).
Proof.
  intros Hw.
  destruct (events._handlers self !! events.type event) as [l|] eqn:E.
  - rewrite (dispatch_subscribed_type self event l E), Hw, app_nil_r.
    rewrite insert_id by exact E. destruct self. reflexivity.
  - rewrite (dispatch_unsubscribed_type self event E), Hw. reflexivity.
Qed.

Lemma dispatch_without_wildcard_witness :
  events._dispatch
    (events.subscribe (events.subscribe events.empty_bus "message" 1%nat) "message" 2%nat)
    {| events.type := "message"; events.data := events.NoData; events.timestamp := 0 |}
  = (events.subscribe (events.subscribe events.empty_bus "message" 1%nat) "message" 2%nat,
     [1%nat; 2%nat]).
Proof.
  apply (dispatch_without_wildcard
           (events.subscribe (events.subscribe events.empty_bus "message" 1%nat)
              "message" 2%nat)
           {| events.type := "message"; events.data := events.NoData;
              events.timestamp := 0 |});
    reflexivity.
Defined.

Lemma repeated_succ {A : Type} (n : nat) (l : list A) :
  repeated (S n) l = repeated n l ++ l.
Proof.
  unfold repeated. induction n as [|n IH]; simpl in *.
  - rewrite app_nil_r. reflexivity.
  - rewrite IH at 1. rewrite app_assoc. reflexivity.
Qed.

Lemma repeated_double {A : Type} (n : nat) (l : list A) :
  repeated n l ++ repeated n l = repeated (2 * n) l.
Proof.
  unfold repeated. replace (2 * n)%nat with (n + n)%nat by lia.
  rewrite replicate_add, join_app. reflexivity.
Qed.

(** X17: Each dispatch of an event whose type has subscribers stores the
    wildcard handlers once more in the list of that type: the [n]-th
    dispatch of such an event calls every wildcard handler [n] times.
    An event whose type is ["*"] itself doubles the wildcard list at
    each dispatch: the [n]-th one calls [2^n] copies of it. *)
Theorem dispatch_repeats_wildcard (self : events.EventBus) (event : events.Event)
    (l w : list events.Handler) (n : nat) :
  events._handlers self !! "*" = Some w ->
  (events.type event <> "*" ->
   events._handlers self !! events.type event = Some l ->
   (dispatch_times (S n) self event).2 = l ++ repeated (S n) w)
  /\ (events.type event = "*" ->
      (dispatch_times (S n) self event).2 = repeated (2 ^ S n) w).
Proof.
  intros Hw. split.
  - intros Hty Hl.
    assert (Hinv : forall k,
               events._handlers (dispatch_times k self event).1 !! "*" = Some w
               /\ events._handlers (dispatch_times k self event).1 !! events.type event
                  = Some (l ++ repeated k w)).
    { induction k as [|k [IHw IHl]]; simpl.
      - split; [exact Hw|]. unfold repeated. simpl. rewrite app_nil_r. exact Hl.
      - rewrite (dispatch_subscribed_type _ event _ IHl). simpl. rewrite IHw. simpl.
        rewrite lookup_insert_ne by exact Hty. split; [exact IHw|].
        rewrite lookup_insert_eq, repeated_succ, app_assoc; reflexivity. }
    destruct (Hinv n) as [Hnw Hnl]. simpl.
    rewrite (dispatch_subscribed_type _ event _ Hnl). simpl. rewrite Hnw. simpl.
    rewrite repeated_succ, app_assoc; reflexivity.
  - intros Hty.
    assert (Hinv : forall k,
               events._handlers (dispatch_times k self event).1 !! "*"
               = Some (repeated (2 ^ k) w)).
    { induction k as [|k IH]; simpl.
      - unfold repeated. simpl. rewrite app_nil_r. exact Hw.
      - pose proof IH as IH'. rewrite <- Hty in IH'.
        rewrite (dispatch_subscribed_type _ event _ IH'). simpl.
        rewrite Hty, lookup_insert_eq, IH. simpl.
        rewrite repeated_double. reflexivity. }
    pose proof (Hinv n) as Hn. pose proof Hn as Hn'. rewrite <- Hty in Hn'.
    simpl dispatch_times.
    rewrite (dispatch_subscribed_type _ event _ Hn'). simpl.
    rewrite Hn. simpl. rewrite repeated_double. reflexivity.
Qed.

Lemma dispatch_repeats_wildcard_witness :
  (dispatch_times 3
     (events.subscribe (events.subscribe events.empty_bus "message" 1%nat) "*" 2%nat)
     {| events.type := "message"; events.data := events.NoData; events.timestamp := 0 |}).2
  = [1%nat] ++ repeated 3 [2%nat].
Proof.
  apply (proj1 (dispatch_repeats_wildcard
                  (events.subscribe (events.subscribe events.empty_bus "message" 1%nat)
                     "*" 2%nat)
                  {| events.type := "message"; events.data := events.NoData;
                     events.timestamp := 0 |}
                  [1%nat] [2%nat] 2 eq_refl));
    [discriminate | reflexivity].
Defined.

(** ** The life cycle and the memory of a participant *)

(** X18: An agent without a client rejects [step] with [RuntimeError] and is
    left exactly as it was, its status included. That is the state of
    an agent after [disconnect], and of an agent whose [connect] found
    no API key: the failed [connect] changes nothing either. *)
Theorem step_requires_connection (now : py.datetime) (api : agent.ApiOutcome)
    (self : agent.Agent) (chat_context : string) :
  (agent._client self = false ->
   agent.step now api self chat_context
   = (self, py.Raised (py.RuntimeError ("Agent " +:+ agent.name self +:+ " is not connected"))))
  /\ agent.step now api (agent.disconnect self) chat_context
     = (agent.disconnect self,
        py.Raised (py.RuntimeError ("Agent " +:+ agent.name self +:+ " is not connected")))
  /\ (agent.connect None self).1 = self
  /\ (agent.connect (Some "") self).1 = self
  /\ (agent.connect None self).2 = (agent.connect (Some "") self).2
  /\ (agent.connect None self).2
     = py.Raised (py.ValueError "ANTHROPIC_API_KEY environment variable not set").
Proof.
  split; [|repeat split].
  intros H. unfold agent.step. rewrite H. reflexivity.
Qed.

Lemma step_requires_connection_witness :
  agent.step 42 (agent.ApiResponse ["hi"])
    (agent.disconnect (sample_agent "Alice" 0.5 types.IDLE None)) "ctx"
  = (agent.disconnect (sample_agent "Alice" 0.5 types.IDLE None),
     py.Raised (py.RuntimeError "Agent Alice is not connected")).
Proof.
  apply (proj1 (step_requires_connection 42 (agent.ApiResponse ["hi"])
                  (agent.disconnect (sample_agent "Alice" 0.5 types.IDLE None)) "ctx")).
  reflexivity.
Defined.

Lemma slice_from_neg_length {A : Type} (k : Z) (l : list A) :
  0 < k -> Z.of_nat (length (py.slice_from (- k) l)) <= k.
Proof.
  intros Hk. rewrite slice_from_neg_pos by exact Hk. rewrite lastn_length. lia.
Qed.

(** The prompt that [step] appends to the history. *)
Lemma step_body_history (now : py.datetime) (api : agent.ApiOutcome) (self : agent.Agent)
    (chat_context : string) :
  exists prompt h,
    py.contains chat_context prompt = true
    /\ Z.of_nat (length (h ++ [("user", prompt)])) <= 40
    /\ h `suffix_of` agent.conversation_history self
    /\ match api with
       | agent.ApiResponse (text :: _) =>
           agent.conversation_history (agent.step_body now api self chat_context).1
           = h ++ [("user", prompt); ("assistant", py.strip text)]
       | _ =>
           agent.conversation_history (agent.step_body now api self chat_context).1
           = h ++ [("user", prompt)]
       end.
Proof.
  unfold agent.step_body.
  set (prompt := "Current conversation:" +:+ _).
  set (h0 := agent.conversation_history self).
  assert (Hctx : py.contains chat_context prompt = true).
  { unfold prompt.
    apply (contains_app_r _ "Current conversation:"), (contains_app_r _ py.nl),
      (contains_app_r _ py.nl).
    apply contains_prefix. clear. induction chat_context as [|c s IH]; [reflexivity|].
    change (String c s +:+ ?x) with (String c (s +:+ x)). simpl.
    destruct (ascii_dec c c); [exact IH | contradiction]. }
  set (a0 := if Z.of_nat _ >? 40 then _ else _).
  assert (Htrim : exists h, h `suffix_of` h0
            /\ Z.of_nat (length (h ++ [("user", prompt)])) <= 40
            /\ agent.conversation_history a0 = h ++ [("user", prompt)]).
  { unfold a0. cbn [agent.conversation_history agent.with_history].
    destruct (Z.gtb_spec (Z.of_nat (length (h0 ++ [("user", prompt)]))) 40) as [Hgt|Hle].
    - cbn [agent.conversation_history agent.with_history].
      change (-40) with (- (40)). rewrite slice_from_neg_pos by lia.
      change (Z.to_nat 40) with 40%nat.
      rewrite lastn_snoc. exists (lastn 39 h0). split; [apply suffix_drop|].
      split; [|reflexivity]. rewrite length_app, lastn_length.
      change (length [("user", prompt)]) with 1%nat. lia.
    - exists h0. split; [reflexivity|]. split; [exact Hle | reflexivity]. }
  clearbody a0.
  destruct Htrim as (h & Hsuf & Hlen & Hh).
  exists prompt, h. split; [exact Hctx|]. split; [exact Hlen|]. split; [exact Hsuf|].
  destruct api as [[|text rest]|msg|]; cbn [fst]; try exact Hh.
  destruct (decide (py.strip text = "[PASS]"));
    cbn [fst agent.conversation_history agent.with_status agent.with_history agent.spoke];
    rewrite Hh, <- app_assoc; reflexivity.
Qed.

Lemma step_history (now : py.datetime) (api : agent.ApiOutcome) (self : agent.Agent)
    (chat_context : string) :
  agent._client self = true ->
  agent.conversation_history (agent.step now api self chat_context).1
  = agent.conversation_history
      (agent.step_body now api (agent.with_status self types.THINKING) chat_context).1.
Proof.
  intros Hc. unfold agent.step. rewrite Hc. cbn [negb].
  unfold agent.step_finally, agent.step_except.
  destruct (agent.step_body now api _ chat_context) as [a [r|e]]; [reflexivity|].
  destruct (py.is_Exception e); reflexivity.
Qed.

(** X19: The history a connected agent keeps is bounded whatever it held
    before: after a [step] it has at most 41 entries, the trim to 40
    coming before the reply is appended. *)
Theorem step_bounds_history (now : py.datetime) (api : agent.ApiOutcome)
    (self : agent.Agent) (chat_context : string) :
  agent._client self = true ->
  Z.of_nat (length (agent.conversation_history (agent.step now api self chat_context).1))
  <= 41.
Proof.
  intros Hc. rewrite step_history by exact Hc.
  destruct (step_body_history now api (agent.with_status self types.THINKING) chat_context)
    as (prompt & h & _ & Hlen & _ & Hh).
  rewrite length_app in Hlen. simpl in Hlen.
  destruct api as [[|text rest]|msg|]; rewrite Hh, length_app; simpl; lia.
Qed.

Lemma step_bounds_history_witness :
  Z.of_nat
    (length
       (agent.conversation_history
          (agent.step 42 (agent.ApiResponse ["hi"])
             (sample_agent "Alice" 0.5 types.IDLE None) "ctx").1))
  <= 41.
Proof.
  apply (step_bounds_history 42 (agent.ApiResponse ["hi"])
           (sample_agent "Alice" 0.5 types.IDLE None) "ctx").
  reflexivity.
Defined.

(** X20: When the API call fails (an error of the client, a response with
    no content block, a cancellation) the prompt of this step, which
    holds the chat context, stays as the last entry of the history with
    no reply after it; when the call answers, the last two entries are
    the prompt and the stripped reply. *)
Theorem step_history_tail (now : py.datetime) (api : agent.ApiOutcome)
    (self : agent.Agent) (chat_context : string) :
  agent._client self = true ->
  exists prompt h,
    py.contains chat_context prompt = true
    /\ match api with
       | agent.ApiResponse (text :: _) =>
           agent.conversation_history (agent.step now api self chat_context).1
           = h ++ [("user", prompt); ("assistant", py.strip text)]
       | _ =>
           agent.conversation_history (agent.step now api self chat_context).1
           = h ++ [("user", prompt)]
       end.
Proof.
  intros Hc. rewrite step_history by exact Hc.
  destruct (step_body_history now api (agent.with_status self types.THINKING) chat_context)
    as (prompt & h & Hctx & _ & _ & Hh).
  exists prompt, h. split; [exact Hctx | exact Hh].
Qed.

Lemma step_history_tail_witness :
  exists prompt h,
    py.contains "ctx" prompt = true
    /\ agent.conversation_history
         (agent.step 42 (agent.ApiRaises "overloaded")
            (sample_agent "Alice" 0.5 types.IDLE None) "ctx").1
       = h ++ [("user", prompt)].
Proof.
  apply (step_history_tail 42 (agent.ApiRaises "overloaded")
           (sample_agent "Alice" 0.5 types.IDLE None) "ctx").
  reflexivity.
Defined.

(** ** The Arena: channels, injection, restart *)

(** X21: A stop followed by a start leaves both lifecycle events in the
    queue, the stop first: the bus is stopped before
    [simulation_stopped] is emitted, so the event waits for the next
    start. The round counter goes on from where it was; the start time
    is the time of the restart. *)
Theorem restart_queues_stop_before_start (t1 t2 : py.datetime) (self : world.ArenaWorld) :
  world.running self = true ->
  events._queue (world.event_bus (world.start t2 (world.stop t1 self)))
  = events._queue (world.event_bus self)
    ++ [{| events.type := "simulation_stopped";
           events.data := events.RoundsData (world.current_round self);
           events.timestamp := t1 |};
        {| events.type := "simulation_started";
           events.data := events.ModeData (types.ScheduleMode_value (world.mode self));
           events.timestamp := t2 |}]
  /\ events._running (world.event_bus (world.stop t1 self)) = false
  /\ world.current_round (world.start t2 (world.stop t1 self)) = world.current_round self
  /\ world.start_time (world.start t2 (world.stop t1 self)) = Some t2
  /\ world.running (world.start t2 (world.stop t1 self)) = true.
Proof.
  intros Hr. unfold world.start, world.stop. rewrite Hr. simpl.
  destruct (world._scheduler_task self); simpl; rewrite <- app_assoc; repeat split.
Qed.

Lemma restart_queues_stop_before_start_witness :
  world.start_time (world.start 20 (world.stop 10 (sample_world [] [] true))) = Some 20.
Proof.
  apply (restart_queues_stop_before_start 10 20 (sample_world [] [] true)).
  reflexivity.
Defined.

Lemma select_speakers_empty_log (now : py.datetime) (rnd : py.RandomSource)
    (self : world.ArenaWorld) (ch : channel.Channel) :
  world.channels self !! world.default_channel self = Some ch ->
  channel.messages ch = [] ->
  world._select_speakers now rnd self
  = py.Returned match py.choice rnd (registry.all (world.registry self)) with
                | Some a => [a]
                | None => []
                end.
Proof.
  intros Hch Hempty. unfold world._select_speakers. rewrite Hch.
  unfold channel.get_recent_messages. rewrite Hempty.
  change (py.slice_from (- 1) []) with (@nil message.Message). simpl.
  destruct (py.choice rnd _); reflexivity.
Qed.

(** X22: [create_channel] does not look for an existing channel: the name
    leads to the new, empty channel whatever was stored under it, and
    the other names are untouched. Creating a channel under the name of
    the default channel discards the conversation, so the next
    selection is the icebreaker draw among all registered agents. *)
Theorem create_channel_replaces (now now' : py.datetime) (uuid : string)
    (rnd : py.RandomSource) (self : world.ArenaWorld) (the_name the_description : string) :
  world.get_channel (world.create_channel now uuid self the_name the_description).1 the_name
  = Some (channel.new now uuid the_name the_description)
  /\ (forall other, other <> the_name ->
        world.get_channel (world.create_channel now uuid self the_name the_description).1
          other
        = world.get_channel self other)
  /\ (the_name = world.default_channel self ->
      world._select_speakers now' rnd
        (world.create_channel now uuid self the_name the_description).1
      = py.Returned match py.choice rnd (registry.all (world.registry self)) with
                    | Some a => [a]
                    | None => []
                    end).
Proof.
  unfold world.get_channel, world.create_channel. simpl. split; [|split].
  - apply lookup_insert_eq.
  - intros other Hne. apply lookup_insert_ne. congruence.
  - intros ->.
    erewrite select_speakers_empty_log;
      [reflexivity | apply lookup_insert_eq | reflexivity].
Qed.

Lemma create_channel_replaces_witness :
  world._select_speakers 9 sample_random
    (world.create_channel 5 "c1"
       (sample_world [sample_agent "Alice" 0.5 types.IDLE None]
          [sample_message "hello" "general"] true)
       "general" "again").1
  = py.Returned [sample_agent "Alice" 0.5 types.IDLE None].
Proof.
  apply (proj2 (proj2 (create_channel_replaces 5 9 "c1" sample_random
                         (sample_world [sample_agent "Alice" 0.5 types.IDLE None]
                            [sample_message "hello" "general"] true)
                         "general" "again"))).
  reflexivity.
Defined.

(** X23: [inject_message] returns its message in every case. When the
    target channel does not exist the world is unchanged: the message
    is returned to the caller although it was stored nowhere and no
    event was queued. When the channel exists, with a capacity that is
    not negative, the message returned is the last of its log and its
    mentions are those extracted from the content. *)
Theorem inject_message_outcome (now : py.datetime) (uuid : string) (self : world.ArenaWorld)
    (the_content the_sender_name : string) (the_channel : option string) :
  let r := world.inject_message now uuid self the_content the_sender_name the_channel in
  message.sender_id r.2 = "human"
  /\ message.channel r.2 = inject_target self the_channel
  /\ message.mentions r.2 = message._extract_mentions the_content
  /\ (world.channels self !! inject_target self the_channel = None -> r.1.1 = self)
  /\ (forall ch, world.channels self !! inject_target self the_channel = Some ch ->
        0 <= channel.max_history ch ->
        exists ch', world.channels r.1.1 !! inject_target self the_channel = Some ch'
          /\ last (channel.messages ch') = Some r.2).
Proof.
  cbv zeta. unfold world.inject_message.
  set (m := message.new _ _ _ _ _ _ _ _ _).
  assert (Hm : message.channel m = inject_target self the_channel) by reflexivity.
  destruct (world.broadcast now self m) as [[w' log] c] eqn:Hb. simpl.
  split; [reflexivity|]. split; [exact Hm|]. split; [reflexivity|]. split.
  - intros Hnone. rewrite <- Hm in Hnone.
    unfold world.broadcast in Hb. rewrite Hnone in Hb.
    injection Hb as <- _ _. reflexivity.
  - intros ch Hch Hk. rewrite <- Hm in Hch.
    destruct (broadcast_known_channel now self m ch Hch) as [Hch' _].
    rewrite Hb in Hch'.
    exists (channel.add_message ch m). split; [exact Hch'|].
    apply add_message_last, Hk.
Qed.

Lemma inject_message_outcome_witness :
  (world.inject_message 7 "m9" (sample_world [] [] false) "hi @bob" "Human"
     (Some "lobby")).1.1
  = sample_world [] [] false.
Proof.
  apply (proj1 (proj2 (proj2 (proj2
           (inject_message_outcome 7 "m9" (sample_world [] [] false) "hi @bob" "Human"
              (Some "lobby")))))).
  reflexivity.
Defined.

(** X24: The default channel outlives every operation: [__post_init__]
    creates it when it is missing and changes nothing when it is there,
    and [broadcast], [inject_message], [create_channel], [start] and
    [stop] keep a channel under the name of the default channel, which
    they never change. With it in place [_select_speakers] does not
    raise. *)
Theorem default_channel_persists (now : py.datetime) (uuid : string)
    (rnd : py.RandomSource) (self : world.ArenaWorld) (m : message.Message)
    (the_content the_sender_name the_name the_description : string)
    (the_channel : option string) :
  is_Some (world.channels (world.post_init now uuid self) !! world.default_channel self)
  /\ (is_Some (world.channels self !! world.default_channel self) ->
      world.post_init now uuid self = self
      /\ Forall (fun w => world.default_channel w = world.default_channel self
                          /\ is_Some (world.channels w !! world.default_channel self))
           [(world.broadcast now self m).1.1;
            (world.inject_message now uuid self the_content the_sender_name
               the_channel).1.1;
            (world.create_channel now uuid self the_name the_description).1;
            world.start now self;
            world.stop now self]
      /\ exists speakers, world._select_speakers now rnd self = py.Returned speakers).
Proof.
  split.
  - unfold world.post_init.
    destruct (world.channels self !! world.default_channel self) eqn:E.
    + rewrite E. eexists; reflexivity.
    + simpl. rewrite lookup_insert_eq. eexists; reflexivity.
  - intros [ch Hch]. split; [unfold world.post_init; rewrite Hch; reflexivity|].
    assert (Hb : forall m0,
               world.default_channel (world.broadcast now self m0).1.1
               = world.default_channel self
               /\ is_Some (world.channels (world.broadcast now self m0).1.1
                             !! world.default_channel self)).
    { intros m0. unfold world.broadcast.
      destruct (world.channels self !! message.channel m0) as [c|] eqn:E; simpl.
      - split; [reflexivity|].
        destruct (decide (message.channel m0 = world.default_channel self)) as [->|Hne].
        + rewrite lookup_insert_eq. eexists; reflexivity.
        + rewrite lookup_insert_ne by exact Hne. rewrite Hch. eexists; reflexivity.
      - split; [reflexivity|]. rewrite Hch. eexists; reflexivity. }
    split.
    + apply Forall_cons. split; [apply Hb|].
      apply Forall_cons. split.
      { unfold world.inject_message.
        pose proof (Hb (message.new "human" the_sender_name the_content
                          match the_channel with
                          | Some (String c0 k) => String c0 k
                          | _ => world.default_channel self
                          end uuid types.CHAT now None [])) as H.
        destruct (world.broadcast now self _) as [[w' lg] c]. exact H. }
      apply Forall_cons. split.
      { simpl. split; [reflexivity|].
        destruct (decide (the_name = world.default_channel self)) as [->|Hne].
        - rewrite lookup_insert_eq. eexists; reflexivity.
        - rewrite lookup_insert_ne by exact Hne. rewrite Hch. eexists; reflexivity. }
      apply Forall_cons. split.
      { unfold world.start. destruct (world.running self); simpl;
          (split; [reflexivity | rewrite Hch; eexists; reflexivity]). }
      apply Forall_cons. split; [|constructor].
      unfold world.stop.
      destruct (world.running self); simpl; try destruct (world._scheduler_task self);
        simpl; split; try reflexivity; rewrite Hch; eexists; reflexivity.
    + unfold world._select_speakers. rewrite Hch.
      destruct (last _); [eexists; reflexivity|].
      destruct (py.choice rnd _); eexists; reflexivity.
Qed.

Lemma default_channel_persists_witness :
  world.post_init 3 "c9" (sample_world [] [] false) = sample_world [] [] false.
Proof.
  apply (proj2 (default_channel_persists 3 "c9" sample_random (sample_world [] [] false)
                  (sample_message "a" "general") "" "" "" "" None)).
  vm_compute. eexists. reflexivity.
Defined.

(** ** Speaker selection after a message *)

(** X25: Nobody follows itself: after a broadcast to the default channel
    (its capacity not negative) the next selection holds no participant
    whose id is the sender id of that message, and only IDLE
    participants. *)
Theorem sender_not_selected_next (now now' : py.datetime) (rnd : py.RandomSource)
    (self : world.ArenaWorld) (m : message.Message) (ch : channel.Channel)
    (speakers : list agent.Agent) :
  message.channel m = world.default_channel self ->
  world.channels self !! world.default_channel self = Some ch ->
  0 <= channel.max_history ch ->
  world._select_speakers now' rnd (world.broadcast now self m).1.1 = py.Returned speakers ->
  Forall (fun a => agent.id a <> message.sender_id m /\ agent.status a = types.IDLE)
    speakers.
Proof.
  intros Hm Hch Hk Hsel. rewrite <- Hm in Hch.
  destruct (broadcast_known_channel now self m ch Hch) as [Hch' _].
  assert (Hd : world.default_channel (world.broadcast now self m).1.1
               = message.channel m).
  { unfold world.broadcast. rewrite Hch. simpl. symmetry. exact Hm. }
  rewrite <- Hd in Hch'.
  destruct (add_message_last ch m Hk) as [_ Hrecent].
  pose proof (select_speakers_scored_idle now' rnd _ (channel.add_message ch m) m speakers
                Hch' ltac:(rewrite Hrecent; reflexivity) Hsel) as H.
  eapply Forall_impl; [exact H|]. intros a (Hs & Hid & _). split; assumption.
Qed.

Lemma sender_not_selected_next_witness :
  Forall (fun a => agent.id a <> message.sender_id (sample_message "hello" "general")
                   /\ agent.status a = types.IDLE)
    [sample_agent "Alice" 0.5 types.IDLE None].
Proof.
  apply (sender_not_selected_next 7 8
           {| py.randbelow := fun _ => 0%nat; py.draws := fun _ => 0%float |}
           (sample_world [sample_agent "Alice" 0.5 types.IDLE None] [] true)
           (sample_message "hello" "general") (sample_channel 1000 []));
    [reflexivity | reflexivity | simpl; lia | vm_compute; reflexivity].
Defined.

Lemma insert_desc_perm {A : Type} (key : A -> float) (x : A) (l : list A) :
  py.insert_desc key x l ≡ₚ x :: l.
Proof.
  induction l as [|y l IH]; simpl; [reflexivity|].
  destruct (key x <? key y)%float; [|reflexivity].
  rewrite IH. apply Permutation_swap.
Qed.

Lemma sort_desc_perm {A : Type} (key : A -> float) (l : list A) :
  py.sort_desc key l ≡ₚ l.
Proof.
  unfold py.sort_desc. induction l as [|x l IH]; simpl; [reflexivity|].
  rewrite insert_desc_perm, IH. reflexivity.
Qed.

Lemma scan_candidates_sublist (now : py.datetime) (rnd : py.RandomSource)
    (last_message : message.Message) (all_names : list string)
    (agents : list agent.Agent) (k : nat) :
  snd <$> world.scan_candidates now rnd last_message all_names agents k
  `sublist_of` agents.
Proof.
  revert k. induction agents as [|a rest IH]; intros k; simpl; [constructor|].
  destruct (negb _); [apply sublist_cons, IH|].
  destruct (decide _); [apply sublist_cons, IH|].
  destruct (_ <? _)%float; [simpl; apply sublist_skip, IH | apply sublist_cons, IH].
Qed.

Lemma ids_of_values (l : list (string * agent.Agent)) :
  (forall k a, (k, a) ∈ l -> agent.id a = k) ->
  agent.id <$> (snd <$> l) = fst <$> l.
Proof.
  induction l as [|[k a] l IH]; intros Hkey; simpl; [reflexivity|].
  rewrite (Hkey k a) by left. f_equal. apply IH.
  intros k' a' H. apply Hkey. right. exact H.
Qed.

Lemma consistent_all_NoDup (r : registry.AgentRegistry) :
  registry.consistent r -> NoDup (registry.all r).
Proof.
  intros (Hnd & Hkey & _). unfold registry.all.
  apply (NoDup_fmap_1 agent.id). rewrite (ids_of_values _ Hkey). exact Hnd.
Qed.

(** X26: In a consistent registry no participant is selected twice, and
    every participant selected is registered. *)
Theorem select_speakers_no_duplicates (now : py.datetime) (rnd : py.RandomSource)
    (self : world.ArenaWorld) (speakers : list agent.Agent) :
  registry.consistent (world.registry self) ->
  world._select_speakers now rnd self = py.Returned speakers ->
  NoDup speakers /\ speakers ⊆ registry.all (world.registry self).
Proof.
  intros Hcons. pose proof (consistent_all_NoDup _ Hcons) as Hnd.
  unfold world._select_speakers.
  destruct (world.channels self !! world.default_channel self) as [ch|]; [|discriminate].
  destruct (last _) as [lm|].
  - intros [= <-].
    assert (Hp : snd <$> py.sort_desc fst
                   (world.scan_candidates now rnd lm (registry.names (world.registry self))
                      (registry.all (world.registry self)) 0)
                 ≡ₚ snd <$> world.scan_candidates now rnd lm
                              (registry.names (world.registry self))
                              (registry.all (world.registry self)) 0)
      by (apply fmap_Permutation, sort_desc_perm).
    pose proof (scan_candidates_sublist now rnd lm (registry.names (world.registry self))
                  (registry.all (world.registry self)) 0) as Hsub.
    split.
    + rewrite Hp. apply (sublist_NoDup _ _ Hnd Hsub).
    + intros a Ha. rewrite Hp in Ha. apply (elem_of_sublist _ _ _ Ha Hsub).
  - unfold py.choice.
    destruct (registry.all (world.registry self) !! _) as [a|] eqn:E; intros [= <-].
    + split; [apply NoDup_singleton|]. intros b Hb.
      apply list_elem_of_singleton in Hb. subst b. apply (list_elem_of_lookup_2 _ _ _ E).
    + split; [constructor|]. intros b Hb. inversion Hb.
Qed.

Lemma select_speakers_no_duplicates_witness :
  NoDup [sample_agent "Alice" 0.5 types.IDLE None;
         sample_agent "Bob" 0.5 types.IDLE None;
         sample_agent "Carol" 0.5 types.IDLE None]
  /\ [sample_agent "Alice" 0.5 types.IDLE None;
      sample_agent "Bob" 0.5 types.IDLE None;
      sample_agent "Carol" 0.5 types.IDLE None]
     ⊆ registry.all
         (world.registry
            (sample_world [sample_agent "Bob" 0.5 types.IDLE None;
                           sample_agent "Carol" 0.5 types.IDLE None;
                           sample_agent "Alice" 0.5 types.IDLE None]
               [sample_mention] true)).
Proof.
  apply (select_speakers_no_duplicates 8 sample_random
           (sample_world [sample_agent "Bob" 0.5 types.IDLE None;
                          sample_agent "Carol" 0.5 types.IDLE None;
                          sample_agent "Alice" 0.5 types.IDLE None]
              [sample_mention] true)
           [sample_agent "Alice" 0.5 types.IDLE None;
            sample_agent "Bob" 0.5 types.IDLE None;
            sample_agent "Carol" 0.5 types.IDLE None]).
  - apply (register_consistent
             (sample_registry [sample_agent "Bob" 0.5 types.IDLE None;
                               sample_agent "Carol" 0.5 types.IDLE None]) _
             (sample_agent "Alice" 0.5 types.IDLE None)); [|reflexivity].
    apply (register_consistent
             (sample_registry [sample_agent "Bob" 0.5 types.IDLE None]) _
             (sample_agent "Carol" 0.5 types.IDLE None)); [|reflexivity].
    apply (register_consistent registry.empty _ (sample_agent "Bob" 0.5 types.IDLE None));
      [apply consistent_empty | reflexivity].
  - vm_compute. reflexivity.
Defined.

(** ** Doubles: rounding from below *)

Lemma Zdigits2_le_53 (r : Z) : 0 <= r < 2 ^ 53 -> Zdigits2 r <= 53.
Proof.
  intros [H0 H1]. destruct r as [|p|p]; simpl; [lia| |lia].
  pose proof (digits2_pos_bounds p) as [Hlo _].
  destruct (Z_le_gt_dec (Zpos (digits2_pos p)) 53) as [|Hgt]; [assumption|].
  assert (2 ^ 53 <= 2 ^ (Zpos (digits2_pos p) - 1)) by (apply Z.pow_le_mono_r; lia).
  lia.
Qed.

(** The second shift of [binary_round_aux] keeps the value: it moves
    nothing, or halves the mantissa [2^53] of a carry. *)
Lemma second_shift_exact (r e1 : Z) :
  0 <= r <= 2 ^ 53 -> -1074 <= e1 ->
  dyad (shr_m (fst (shr_fexp prec emax r e1 loc_Exact)))
       (snd (shr_fexp prec emax r e1 loc_Exact))
  = dyad r e1.
Proof.
  intros [Hr0 Hr1] He. unfold shr_fexp. simpl shr_record_of_loc.
  set (n := fexp prec emax (Zdigits2 r + e1) - e1).
  destruct (shr_exact_spec r e1 n Hr0)
    as [(Hn & Hq & Hloc & He')|(Hn & Hq & He' & Hloc)]; rewrite Hq, He'; [reflexivity|].
  destruct (Z.eq_dec r (2 ^ 53)) as [->|Hne].
  - assert (Hn1 : n = 1).
    { unfold n, fexp, SpecFloat.emin, prec, emax.
      change (Zdigits2 (2 ^ 53)) with 54. lia. }
    rewrite Hn1. change (2 ^ 53 / 2 ^ 1) with (2 ^ 52).
    rewrite <- dyad_shift by lia. reflexivity.
  - exfalso. pose proof (Zdigits2_le_53 r ltac:(lia)) as Hd.
    unfold n, fexp, SpecFloat.emin, prec, emax in Hn. lia.
Qed.

Section RoundAbove.

Variables (mB : positive) (eB : Z).
Hypothesis HB : SpecFloat.bounded prec emax mB eB = true.

Lemma first_round_above (m : positive) (e : Z) :
  (dyad (Zpos mB) eB <= dyad (Zpos m) e)%R ->
  0 <= round_nearest_even
         (shr_m (fst (shr_fexp prec emax (Zpos m) e loc_Exact)))
         (loc_of_shr_record (fst (shr_fexp prec emax (Zpos m) e loc_Exact)))
       <= 2 ^ 53
  /\ -1074 <= snd (shr_fexp prec emax (Zpos m) e loc_Exact)
  /\ (dyad (Zpos mB) eB
      <= dyad (round_nearest_even
                 (shr_m (fst (shr_fexp prec emax (Zpos m) e loc_Exact)))
                 (loc_of_shr_record (fst (shr_fexp prec emax (Zpos m) e loc_Exact))))
              (snd (shr_fexp prec emax (Zpos m) e loc_Exact)))%R.
Proof.
  intros Hle. unfold shr_fexp. simpl shr_record_of_loc. simpl Zdigits2.
  set (d := Zpos (digits2_pos m)).
  set (n := fexp prec emax (d + e) - e).
  pose proof (digits2_pos_bounds m) as [Hlo Hhi]. fold d in Hlo, Hhi.
  assert (Hd : 0 < d) by (unfold d; lia).
  destruct (shr_exact_spec (Zpos m) e n ltac:(lia))
    as [(Hn & Hq & Hloc & He)|(Hn & Hq & He & Hloc)].
  - rewrite Hq, Hloc, He. simpl round_nearest_even.
    assert (Hd53 : d <= 53 /\ -1074 <= e)
      by (unfold n, fexp, SpecFloat.emin, prec, emax in Hn; lia).
    split; [|split; [lia | exact Hle]].
    split; [lia|].
    assert (2 ^ d <= 2 ^ 53) by (apply Z.pow_le_mono_r; lia). lia.
  - rewrite Hq, He.
    assert (Hp : 0 < 2 ^ n) by (apply Z.pow_pos_nonneg; lia).
    assert (Hq0 : 0 <= Zpos m / 2 ^ n) by (apply Z.div_pos; lia).
    assert (Hen : -1074 <= e + n /\ d - 53 <= n)
      by (unfold n, fexp, SpecFloat.emin, prec, emax; lia).
    assert (Hq53 : Zpos m / 2 ^ n < 2 ^ 53).
    { apply Z.div_lt_upper_bound; [exact Hp|].
      rewrite <- Z.pow_add_r by lia.
      eapply Z.lt_le_trans; [exact Hhi|]. apply Z.pow_le_mono_r; lia. }
    assert (Hqlow : (dyad (Zpos mB) eB <= dyad (Zpos m / 2 ^ n) (e + n))%R).
    { destruct (Z_le_gt_dec (e + n) eB) as [Hcase|Hcase].
      - set (k := Zpos mB * 2 ^ (eB - (e + n))).
        assert (HBk : dyad (Zpos mB) eB = dyad k (e + n)).
        { unfold k. rewrite dyad_shift by lia. f_equal. lia. }
        rewrite HBk. apply dyad_le. apply Z.div_le_lower_bound; [exact Hp|].
        rewrite Z.mul_comm. apply (dyad_le_inv _ _ e).
        rewrite dyad_shift by lia. rewrite <- HBk. exact Hle.
      - destruct (bounded_facts mB eB HB) as (HeB & _ & _).
        assert (Hn' : n = d - 53)
          by (unfold n, fexp, SpecFloat.emin, prec, emax in *; lia).
        assert (Hq52 : 2 ^ 52 <= Zpos m / 2 ^ n).
        { apply Z.div_le_lower_bound; [exact Hp|].
          rewrite <- Z.pow_add_r by lia. replace (n + 52) with (d - 1) by lia. exact Hlo. }
        pose proof (bound_lt_bpow mB eB HB) as Hup.
        assert (H1 : (bpow (52 + (e + n)) <= dyad (Zpos m / 2 ^ n) (e + n))%R).
        { rewrite <- dyad_pow by lia. apply dyad_le, Hq52. }
        assert (H2 : (bpow (53 + eB) <= bpow (52 + (e + n)))%R) by (apply bpow_le; lia).
        lra. }
    destruct (round_nearest_even_cases (Zpos m / 2 ^ n)
                (loc_of_shr_record
                   (fst (shr {| shr_m := Zpos m; shr_r := false; shr_s := false |} e n))))
      as [Hr|[Hr _]]; rewrite Hr.
    + split; [lia|]. split; [lia | exact Hqlow].
    + split; [lia|]. split; [lia|].
      eapply Rle_trans; [exact Hqlow|]. apply dyad_le. lia.
Qed.

(** Rounding a positive dyadic number that lies above a double gives
    a double that lies above it too, or overflows. *)
Lemma binary_round_aux_above (m : positive) (e : Z) :
  (dyad (Zpos mB) eB <= dyad (Zpos m) e)%R ->
  nonneg_finite (binary_round_aux prec emax false (Zpos m) e loc_Exact) ->
  (dyad (Zpos mB) eB <= SF2R (binary_round_aux prec emax false (Zpos m) e loc_Exact))%R.
Proof.
  intros Hle. unfold binary_round_aux.
  pose proof (first_round_above m e Hle) as (Hr & He & Hlow).
  destruct (shr_fexp prec emax (Zpos m) e loc_Exact) as [mrs' e'].
  simpl fst in Hr, Hlow. simpl snd in He, Hlow.
  set (r := round_nearest_even (shr_m mrs') (loc_of_shr_record mrs')) in *.
  pose proof (second_shift_exact r e' Hr He) as Hex.
  destruct (shr_fexp prec emax r e' loc_Exact) as [mrs'' e''].
  simpl fst in Hex. simpl snd in Hex. rewrite <- Hex in Hlow.
  pose proof (bound_pos mB eB) as HBpos.
  destruct (shr_m mrs'') as [|q|q].
  - unfold dyad in Hlow at 2. simpl in Hlow. lra.
  - destruct (e'' <=? emax - prec); simpl; [intros _; exact Hlow | contradiction].
  - simpl. contradiction.
Qed.

Lemma SFadd_above (x y : spec_float) :
  nonneg_finite x -> nonneg_finite y ->
  (dyad (Zpos mB) eB <= SF2R x + SF2R y)%R ->
  nonneg_finite (SFadd prec emax x y) ->
  (dyad (Zpos mB) eB <= SF2R (SFadd prec emax x y))%R.
Proof.
  pose proof (bound_pos mB eB) as HBpos.
  destruct x as [sx|sx| |[] mx ex]; try contradiction;
    destruct y as [sy|sy| |[] my ey]; try contradiction; intros _ _ Hle.
  - simpl in Hle. lra.
  - simpl in *. intros _. lra.
  - simpl in *. intros _. lra.
  - unfold SFadd. simpl cond_Zopp.
    set (ez := Z.min ex ey).
    set (a := fst (shl_align mx ex ez)). set (b := fst (shl_align my ey ez)).
    change (Zpos a + Zpos b) with (Zpos (a + b)).
    unfold binary_normalize, binary_round.
    pose proof (shl_align_val (a + b) ez
                  (fexp prec emax (Zpos (digits2_pos (a + b)) + ez))) as Hv.
    destruct (shl_align (a + b) ez _) as [mz ez']. simpl fst in Hv. simpl snd in Hv.
    apply binary_round_aux_above.
    rewrite Hv. simpl in Hle.
    assert (Ha : dyad (Zpos a) ez = dyad (Zpos mx) ex)
      by (apply shl_align_fst_val; unfold ez; lia).
    assert (Hb : dyad (Zpos b) ez = dyad (Zpos my) ey)
      by (apply shl_align_fst_val; unfold ez; lia).
    unfold dyad in *. rewrite Pos2Z.inj_add, plus_IZR. lra.
Qed.

End RoundAbove.

Lemma add_above (B x y : float) (mB : positive) (eB : Z) :
  Prim2SF B = S754_finite false mB eB ->
  fin_nonneg x -> fin_nonneg y -> fin_nonneg (x + y) ->
  (F2R B <= F2R x + F2R y)%R ->
  (F2R B <= F2R (x + y))%R.
Proof.
  intros HB Hx Hy Hxy Hle. unfold fin_nonneg, F2R in *. rewrite add_spec in *.
  pose proof (Prim2SF_valid B) as Hv. rewrite HB in *.
  apply (SFadd_above mB eB Hv); assumption.
Qed.


(** ** Scores: mentions before everything else *)

Lemma const_15_32 :
  fin_nonneg 0.46875 /\ F2R 0.46875 = (8444249301319680 / 18014398509481984)%R.
Proof. exact (F2R_finite 0.46875 8444249301319680 54 eq_refl). Qed.
Lemma const_19_32 :
  fin_nonneg 0.59375 /\ F2R 0.59375 = (5348024557502464 / 9007199254740992)%R.
Proof. exact (F2R_finite 0.59375 5348024557502464 53 eq_refl). Qed.

Lemma add_0_15_tight (b : float) : at_most b (3 / 10) -> at_most (b + 0.15) (15 / 32).
Proof.
  intros [Hb Hle]. destruct const_0_15 as [Hc Hv]. destruct const_15_32 as [_ H1].
  destruct (add_below 0.46875 b 0.15 8444249301319680 (-54) eq_refl ltac:(lia) Hb Hc)
    as [Hf Hs]; [rewrite Hv, H1; lra|].
  split; [exact Hf | rewrite H1 in Hs; lra].
Qed.

Lemma add_0_1_tight (b : float) : at_most b (15 / 32) -> at_most (b + 0.1) (19 / 32).
Proof.
  intros [Hb Hle]. destruct const_0_1 as [Hc Hv]. destruct const_19_32 as [_ H1].
  destruct (add_below 0.59375 b 0.1 5348024557502464 (-53) eq_refl ltac:(lia) Hb Hc)
    as [Hf Hs]; [rewrite Hv, H1; lra|].
  split; [exact Hf | rewrite H1 in Hs; lra].
Qed.

Lemma damp_tight (b c : float) :
  at_most b (19 / 32) -> at_most c 1 -> at_most (b * c) (19 / 32).
Proof.
  intros [Hb Hle] [Hc Hc1]. destruct const_19_32 as [_ H1].
  pose proof (SF2R_nonneg _ Hb) as Hb0. fold (F2R b) in Hb0.
  pose proof (SF2R_nonneg _ Hc) as Hc0. fold (F2R c) in Hc0.
  destruct (mul_below 0.59375 b c 5348024557502464 (-53) eq_refl ltac:(lia) Hb Hc)
    as [Hf Hs]; [rewrite H1; nra|].
  split; [exact Hf | rewrite H1 in Hs; lra].
Qed.

(** With a tendency in [[0, 1]] the score of a participant that is not
    mentioned stays at or below [19/32], whatever the boosts. *)
Lemma unmentioned_base_tight (now : py.datetime) (self : agent.Agent)
    (m : message.Message) :
  at_most (agent.response_tendency self) 1 ->
  at_most (unmentioned_base now self m) (19 / 32).
Proof.
  intros Ht. unfold unmentioned_base.
  pose proof (scale_by_0_3 _ Ht) as H0.
  set (b0 := (agent.response_tendency self * 0.3)%float) in *.
  assert (H1 : at_most (if py.contains "?" (message.content m)
                        then (b0 + 0.15)%float else b0) (15 / 32)).
  { destruct (py.contains _ _);
      [apply add_0_15_tight, H0 | eapply at_most_weaken; [exact H0|lra]]. }
  set (b1 := if py.contains "?" (message.content m) then (b0 + 0.15)%float else b0) in *.
  assert (H2 : at_most (if existsb (fun interest =>
                                      py.contains (py.lower interest)
                                        (py.lower (message.content m)))
                             (agent.interests self)
                        then (b1 + 0.1)%float else b1) (19 / 32)).
  { destruct (existsb _ _);
      [apply add_0_1_tight, H1 | eapply at_most_weaken; [exact H1|lra]]. }
  set (b2 := if existsb _ _ then (b1 + 0.1)%float else b1) in *.
  assert (H03 : at_most 0.3 1) by (destruct const_0_3 as [Hc Hv]; split; [exact Hc | lra]).
  assert (H06 : at_most 0.6 1) by (destruct const_0_6 as [Hc Hv]; split; [exact Hc | lra]).
  destruct (agent.last_spoke_at self) as [t|]; [|exact H2].
  destruct (py.seconds_ago_lt now t 10); [apply damp_tight; assumption|].
  destruct (py.seconds_ago_lt now t 30); [apply damp_tight; assumption | exact H2].
Qed.

(** The score of a mentioned participant is at least the double [0.6]. *)
Lemma mentioned_score_above (now : py.datetime) (self : agent.Agent)
    (m : message.Message) (names : list string) :
  at_most (agent.response_tendency self) 1 ->
  agent.mentioned self m = true ->
  fin_nonneg (agent.should_respond now self m names)
  /\ (F2R 0.6 <= F2R (agent.should_respond now self m names))%R.
Proof.
  intros Ht Hm. unfold agent.should_respond. rewrite Hm.
  pose proof (scale_by_0_3 _ Ht) as H0.
  pose proof (add_0_6 _ H0) as [Hx _].
  destruct H0 as [Hb0 _]. destruct const_0_6 as [Hc6 Hv6].
  destruct const_0_95 as [Hc95 Hv95].
  pose proof (SF2R_nonneg _ Hb0) as Hb00.
  fold (F2R (agent.response_tendency self * 0.3)) in Hb00.
  pose proof (add_above 0.6 _ 0.6 5404319552844595 (-53) eq_refl Hb0 Hc6 Hx
                ltac:(lra)) as Hlow.
  unfold py.min. destruct (_ <? 0.95)%float.
  - split; assumption.
  - split; [exact Hc95 | rewrite Hv6, Hv95; lra].
Qed.

Lemma unmentioned_score_below (now : py.datetime) (self : agent.Agent)
    (m : message.Message) (names : list string) :
  at_most (agent.response_tendency self) 1 ->
  agent.mentioned self m = false ->
  at_most (agent.should_respond now self m names) (19 / 32).
Proof.
  intros Ht Hm. rewrite should_respond_unmentioned by exact Hm.
  rewrite min_0_8_small by (apply unmentioned_base_small; exact Ht).
  apply unmentioned_base_tight, Ht.
Qed.

Lemma should_respond_fin_nonneg (now : py.datetime) (self : agent.Agent)
    (m : message.Message) (names : list string) :
  at_most (agent.response_tendency self) 1 ->
  fin_nonneg (agent.should_respond now self m names).
Proof.
  intros Ht. destruct (agent.mentioned self m) eqn:Hm.
  - apply mentioned_score_above; assumption.
  - apply unmentioned_score_below; assumption.
Qed.

Lemma mention_outranks_real (now now' : py.datetime) (a b : agent.Agent)
    (m m' : message.Message) (names names' : list string) :
  at_most (agent.response_tendency a) 1 ->
  at_most (agent.response_tendency b) 1 ->
  agent.mentioned a m = true ->
  agent.mentioned b m' = false ->
  (agent.should_respond now' b m' names' <? agent.should_respond now a m names)%float
  = true.
Proof.
  intros Ha Hb Hma Hmb.
  destruct (mentioned_score_above now a m names Ha Hma) as [Hfa Hla].
  destruct (unmentioned_score_below now' b m' names' Hb Hmb) as [Hfb Hlb].
  destruct const_0_6 as [_ Hv6]. apply ltb_F2R; [assumption..|]. rewrite Hv6 in Hla. lra.
Qed.

(** X27: A mention outweighs everything else: the score of a participant
    that a message mentions is strictly above the score of a
    participant that its message does not mention, for tendencies in
    [[0, 1]], whatever the contents, the interests and the times they
    last spoke. *)
Theorem mention_outranks (now now' : py.datetime) (a b : agent.Agent)
    (m m' : message.Message) (names names' : list string) :
  (0 <=? agent.response_tendency a)%float = true ->
  (agent.response_tendency a <=? 1)%float = true ->
  (0 <=? agent.response_tendency b)%float = true ->
  (agent.response_tendency b <=? 1)%float = true ->
  agent.mentioned a m = true ->
  agent.mentioned b m' = false ->
  (agent.should_respond now' b m' names' <? agent.should_respond now a m names)%float
  = true.
Proof.
  intros Ha0 Ha1 Hb0 Hb1. apply mention_outranks_real; apply tendency_in_unit; assumption.
Qed.

Lemma mention_outranks_witness :
  PrimFloat.ltb
    (agent.should_respond 0 (sample_agent "Bob" 1 types.IDLE None) sample_mention ["Bob"])
    (agent.should_respond 0 (sample_agent "Alice" 0 types.IDLE (Some 0)) sample_mention
       ["Alice"])
  = true.
Proof.
  apply (mention_outranks 0 0 (sample_agent "Alice" 0 types.IDLE (Some 0))
           (sample_agent "Bob" 1 types.IDLE None) sample_mention sample_mention
           ["Alice"] ["Bob"]);
    reflexivity.
Defined.

(** X28: The three regimes of the recency damping, for a participant that
    is not mentioned and has a tendency in [[0, 1]]: having spoken less
    than 10 seconds ago multiplies the score by [0.3], from 10 to less
    than 30 seconds ago by [0.6], and from 30 seconds on the score is
    that of a participant that never spoke. *)
Theorem recency_regimes (now t0 : py.datetime) (self : agent.Agent)
    (m : message.Message) (names : list string) :
  (0 <=? agent.response_tendency self)%float = true ->
  (agent.response_tendency self <=? 1)%float = true ->
  agent.mentioned self m = false ->
  (now - t0 < 10 * 1000000 ->
   agent.should_respond now (with_last_spoke_at self (Some t0)) m names
   = (agent.should_respond now (with_last_spoke_at self None) m names * 0.3)%float)
  /\ (10 * 1000000 <= now - t0 < 30 * 1000000 ->
      agent.should_respond now (with_last_spoke_at self (Some t0)) m names
      = (agent.should_respond now (with_last_spoke_at self None) m names * 0.6)%float)
  /\ (30 * 1000000 <= now - t0 ->
      agent.should_respond now (with_last_spoke_at self (Some t0)) m names
      = agent.should_respond now (with_last_spoke_at self None) m names).
Proof.
  intros H0 H1 Hm.
  pose proof (tendency_in_unit _ H0 H1) as Ht.
  rewrite !should_respond_unmentioned by exact Hm.
  rewrite !min_0_8_small by (apply unmentioned_base_small; exact Ht).
  unfold unmentioned_base. simpl agent.last_spoke_at. unfold py.seconds_ago_lt.
  split; [|split]; intros Hago.
  - destruct (Z.ltb_spec (now - t0) (10 * 1000000)); [reflexivity | lia].
  - destruct (Z.ltb_spec (now - t0) (10 * 1000000)); [lia|].
    destruct (Z.ltb_spec (now - t0) (30 * 1000000)); [reflexivity | lia].
  - destruct (Z.ltb_spec (now - t0) (10 * 1000000)); [lia|].
    destruct (Z.ltb_spec (now - t0) (30 * 1000000)); [lia | reflexivity].
Qed.

Lemma recency_regimes_witness :
  agent.should_respond 120000000
    (with_last_spoke_at (sample_agent "Alice" 0.5 types.IDLE None) (Some 100000000))
    (sample_message "any news?" "general") ["Alice"]
  = PrimFloat.mul
      (agent.should_respond 120000000
         (with_last_spoke_at (sample_agent "Alice" 0.5 types.IDLE None) None)
         (sample_message "any news?" "general") ["Alice"])
      0.6.
Proof.
  apply (proj1 (proj2 (recency_regimes 120000000 100000000
                         (sample_agent "Alice" 0.5 types.IDLE None)
                         (sample_message "any news?" "general") ["Alice"]
                         eq_refl eq_refl eq_refl))).
  lia.
Defined.

(** ** Speaker selection: the order *)

Lemma insert_desc_descending {A : Type} (key : A -> float) (x : A) (l : list A) :
  fin_nonneg (key x) -> Forall (fun y => fin_nonneg (key y)) l ->
  descending key l -> descending key (py.insert_desc key x l).
Proof.
  intros Hx. induction l as [|y l IH]; intros Hfin Hd; simpl.
  - split; [constructor | exact I].
  - apply Forall_cons in Hfin. destruct Hfin as [Hy Hfin]. destruct Hd as [Hall Hd].
    destruct (key x <? key y)%float eqn:Hlt.
    + split; [|apply IH; assumption].
      rewrite insert_desc_perm. apply Forall_cons. split; [|exact Hall].
      apply double_ltb_leb, Hlt.
    + assert (Hyx : (F2R (key y) <= F2R (key x))%R).
      { destruct (Rle_or_lt (F2R (key y)) (F2R (key x))) as [|Hc]; [assumption|].
        apply (ltb_F2R _ _ Hx Hy) in Hc. congruence. }
      split; [|split; assumption].
      apply Forall_cons. split; [apply leb_F2R; assumption|].
      apply Forall_forall. intros z Hz.
      pose proof (proj1 (Forall_forall _ _) Hall z Hz) as Hzy.
      pose proof (proj1 (Forall_forall _ _) Hfin z Hz) as Hfz.
      simpl in Hzy, Hfz.
      apply (leb_F2R _ _ Hfz Hy) in Hzy. apply leb_F2R; [assumption..|lra].
Qed.

Lemma sort_desc_descending {A : Type} (key : A -> float) (l : list A) :
  Forall (fun y => fin_nonneg (key y)) l -> descending key (py.sort_desc key l).
Proof.
  unfold py.sort_desc. induction l as [|x l IH]; intros Hfin; simpl; [exact I|].
  apply Forall_cons in Hfin. destruct Hfin as [Hx Hfin].
  apply insert_desc_descending; [exact Hx| |apply IH, Hfin].
  fold (py.sort_desc key l). rewrite sort_desc_perm. exact Hfin.
Qed.

Lemma descending_fmap {A B : Type} (key : A -> float) (score : B -> float)
    (f : A -> B) (l : list A) :
  Forall (fun c => key c = score (f c)) l ->
  descending key l -> descending score (f <$> l).
Proof.
  induction l as [|x l IH]; intros Hk Hd; simpl; [exact I|].
  apply Forall_cons in Hk. destruct Hk as [Hx Hk]. destruct Hd as [Hall Hd].
  split; [|apply IH; assumption].
  apply Forall_fmap. apply Forall_forall. intros z Hz. simpl.
  pose proof (proj1 (Forall_forall _ _) Hall z Hz) as Hzx.
  pose proof (proj1 (Forall_forall _ _) Hk z Hz) as Hkz.
  simpl in Hzx, Hkz. rewrite <- Hkz, <- Hx. exact Hzx.
Qed.

Lemma scan_candidates_scores (now : py.datetime) (rnd : py.RandomSource)
    (last_message : message.Message) (all_names : list string)
    (agents : list agent.Agent) (k : nat) :
  Forall (fun c => c.1 = agent.should_respond now c.2 last_message all_names)
    (world.scan_candidates now rnd last_message all_names agents k).
Proof.
  revert k. induction agents as [|a rest IH]; intros k; simpl; [constructor|].
  destruct (negb _); [apply IH|].
  destruct (decide _); [apply IH|].
  destruct (_ <? _)%float; [|apply IH].
  apply Forall_cons. split; [reflexivity | apply IH].
Qed.

Lemma select_speakers_descending_real (now : py.datetime) (rnd : py.RandomSource)
    (self : world.ArenaWorld) (ch : channel.Channel) (last_message : message.Message)
    (speakers : list agent.Agent) :
  Forall (fun a => at_most (agent.response_tendency a) 1)
    (registry.all (world.registry self)) ->
  world.channels self !! world.default_channel self = Some ch ->
  last (channel.get_recent_messages ch 1) = Some last_message ->
  world._select_speakers now rnd self = py.Returned speakers ->
  descending (fun a => agent.should_respond now a last_message
                         (registry.names (world.registry self)))
    speakers.
Proof.
  intros Hall Hch Hlast. unfold world._select_speakers. rewrite Hch, Hlast.
  intros [= <-].
  set (cs := world.scan_candidates now rnd last_message
               (registry.names (world.registry self))
               (registry.all (world.registry self)) 0).
  pose proof (scan_candidates_scores now rnd last_message
                (registry.names (world.registry self))
                (registry.all (world.registry self)) 0) as Hsc.
  fold cs in Hsc.
  apply (descending_fmap fst).
  - rewrite sort_desc_perm. exact Hsc.
  - apply sort_desc_descending. apply Forall_forall. intros c Hc.
    pose proof (proj1 (Forall_forall _ _) Hsc c Hc) as Hs. simpl in Hs. rewrite Hs.
    apply should_respond_fin_nonneg.
    destruct (scan_candidates_idle _ _ _ _ _ _ _ Hc) as (_ & _ & Hin).
    exact (proj1 (Forall_forall _ _) Hall _ Hin).
Qed.

Lemma tendencies_in_unit (l : list agent.Agent) :
  Forall (fun a => (0 <=? agent.response_tendency a)%float = true
                   /\ (agent.response_tendency a <=? 1)%float = true) l ->
  Forall (fun a => at_most (agent.response_tendency a) 1) l.
Proof.
  intros H. eapply Forall_impl; [exact H|].
  intros a [H0 H1]. apply tendency_in_unit; assumption.
Qed.

(** X29: When every registered participant has a tendency in [[0, 1]], the
    speakers selected after a message come in non-increasing order of
    their scores for that message. *)
Theorem select_speakers_descending (now : py.datetime) (rnd : py.RandomSource)
    (self : world.ArenaWorld) (ch : channel.Channel) (last_message : message.Message)
    (speakers : list agent.Agent) :
  Forall (fun a => (0 <=? agent.response_tendency a)%float = true
                   /\ (agent.response_tendency a <=? 1)%float = true)
    (registry.all (world.registry self)) ->
  world.channels self !! world.default_channel self = Some ch ->
  last (channel.get_recent_messages ch 1) = Some last_message ->
  world._select_speakers now rnd self = py.Returned speakers ->
  descending (fun a => agent.should_respond now a last_message
                         (registry.names (world.registry self)))
    speakers.
Proof.
  intros Hall. apply select_speakers_descending_real, tendencies_in_unit, Hall.
Qed.

Lemma select_speakers_descending_witness :
  descending
    (fun a => agent.should_respond 8 a sample_mention
                (registry.names
                   (world.registry
                      (sample_world [sample_agent "Bob" 0.5 types.IDLE None;
                                     sample_agent "Alice" 0.5 types.IDLE None]
                         [sample_mention] true))))
    [sample_agent "Alice" 0.5 types.IDLE None; sample_agent "Bob" 0.5 types.IDLE None].
Proof.
  apply (select_speakers_descending 8 sample_random
           (sample_world [sample_agent "Bob" 0.5 types.IDLE None;
                          sample_agent "Alice" 0.5 types.IDLE None]
              [sample_mention] true)
           (sample_channel 1000 [sample_mention]) sample_mention).
  - repeat (apply Forall_cons; split; [split; reflexivity|]). apply Forall_nil. exact I.
  - reflexivity.
  - reflexivity.
  - vm_compute. reflexivity.
Defined.

(** X30: The mentioned speak first: under the same condition, once the
    list of selected speakers reaches a participant that the last
    message does not mention, no participant after it is mentioned. *)
Theorem mentioned_speakers_first (now : py.datetime) (rnd : py.RandomSource)
    (self : world.ArenaWorld) (ch : channel.Channel) (last_message : message.Message)
    (before after : list agent.Agent) (b : agent.Agent) :
  Forall (fun a => (0 <=? agent.response_tendency a)%float = true
                   /\ (agent.response_tendency a <=? 1)%float = true)
    (registry.all (world.registry self)) ->
  world.channels self !! world.default_channel self = Some ch ->
  last (channel.get_recent_messages ch 1) = Some last_message ->
  world._select_speakers now rnd self = py.Returned (before ++ b :: after) ->
  agent.mentioned b last_message = false ->
  Forall (fun a => agent.mentioned a last_message = false) after.
Proof.
  intros Hall Hch Hlast Hsel Hb.
  apply tendencies_in_unit in Hall.
  pose proof (select_speakers_descending_real now rnd self ch last_message _
                Hall Hch Hlast Hsel) as Hd.
  pose proof (select_speakers_scored_idle now rnd self ch last_message _
                Hch Hlast Hsel) as Hreg.
  assert (Ht : forall a, a ∈ before ++ b :: after ->
                 at_most (agent.response_tendency a) 1).
  { intros a Ha. pose proof (proj1 (Forall_forall _ _) Hreg a Ha) as (_ & _ & Hin).
    exact (proj1 (Forall_forall _ _) Hall a Hin). }
  clear Hsel Hreg. induction before as [|x before IH].
  - simpl in Hd. destruct Hd as [Hle _]. apply Forall_forall. intros a Ha.
    pose proof (proj1 (Forall_forall _ _) Hle a Ha) as Hab. simpl in Hab.
    destruct (agent.mentioned a last_message) eqn:Hma; [|reflexivity].
    exfalso.
    assert (Hta : at_most (agent.response_tendency a) 1)
      by (apply Ht; simpl; right; exact Ha).
    assert (Htb : at_most (agent.response_tendency b) 1) by (apply Ht; simpl; left).
    pose proof (mention_outranks_real now now a b last_message last_message
                  (registry.names (world.registry self))
                  (registry.names (world.registry self)) Hta Htb Hma Hb) as Hlt.
    rewrite ltb_spec in Hlt. rewrite leb_spec in Hab.
    unfold SFltb in Hlt. unfold SFleb in Hab.
    pose proof (SFcompare_nonneg _ _
                  (Prim2SF_valid (agent.should_respond now a last_message
                                    (registry.names (world.registry self))))
                  (Prim2SF_valid (agent.should_respond now b last_message
                                    (registry.names (world.registry self))))
                  (should_respond_fin_nonneg _ _ _ _ Hta)
                  (should_respond_fin_nonneg _ _ _ _ Htb)) as Hab'.
    pose proof (SFcompare_nonneg _ _
                  (Prim2SF_valid (agent.should_respond now b last_message
                                    (registry.names (world.registry self))))
                  (Prim2SF_valid (agent.should_respond now a last_message
                                    (registry.names (world.registry self))))
                  (should_respond_fin_nonneg _ _ _ _ Htb)
                  (should_respond_fin_nonneg _ _ _ _ Hta)) as Hba'.
    destruct (SFcompare (Prim2SF (agent.should_respond now a _ _)) _) as [[]|];
      destruct (SFcompare (Prim2SF (agent.should_respond now b _ _)) _) as [[]|];
      try discriminate; try contradiction; lra.
  - apply IH; [exact (proj2 Hd)|]. intros a Ha. apply Ht. simpl. right. exact Ha.
Qed.

Lemma mentioned_speakers_first_witness :
  Forall (fun a => agent.mentioned a sample_mention = false)
    [sample_agent "Carol" 0.5 types.IDLE None].
Proof.
  apply (mentioned_speakers_first 8 sample_random
           (sample_world [sample_agent "Bob" 0.5 types.IDLE None;
                          sample_agent "Carol" 0.5 types.IDLE None;
                          sample_agent "Alice" 0.5 types.IDLE None]
              [sample_mention] true)
           (sample_channel 1000 [sample_mention]) sample_mention
           [sample_agent "Alice" 0.5 types.IDLE None] [sample_agent "Carol" 0.5 types.IDLE None]
           (sample_agent "Bob" 0.5 types.IDLE None)).
  - repeat (apply Forall_cons; split; [split; reflexivity|]). apply Forall_nil. exact I.
  - reflexivity.
  - reflexivity.
  - vm_compute. reflexivity.
  - reflexivity.
Defined.
